(** * VoiceIDE: task planner and orchestrator loop

    A shallow embedding of [planner/task_planner.py] (class [TaskPlanner])
    and of the parts of [main.py] (class [VoiceIDE]) that keep the queue,
    the history and the persisted state, with the properties of the
    specification stated over them. *)

From Stdlib Require Import List String Ascii Arith Bool ZArith Lia.
From Stdlib Require DecimalNat DecimalString.
Import ListNotations.
Local Open Scope string_scope.
Set Warnings "-register-all".

(** ** Python values and primitives *)

Module Py.

(** The values that [json] reads and writes, which are also the values the
    code keeps in its dictionaries. *)
Inductive pyval : Type :=
| PNone
| PBool (b : bool)
| PInt (z : Z)
| PStr (s : string)
| PList (l : list pyval)
| PDict (d : list (string * pyval)).

(** A [dict] with [str] keys: the entries in insertion order, keys unique. *)
Definition dict (V : Type) : Type := list (string * V).

Section Dict.
Context {V : Type}.

(** [d.get(k)] *)
Fixpoint dict_get (k : string) (d : dict V) : option V :=
  match d with
  | [] => None
  | (k', v) :: r => if String.eqb k' k then Some v else dict_get k r
  end.

(** [k in d] *)
Definition dict_mem (k : string) (d : dict V) : bool :=
  match dict_get k d with Some _ => true | None => false end.

(** [d[k] = v]: an existing key keeps its place, a new key goes last. *)
Fixpoint dict_set (k : string) (v : V) (d : dict V) : dict V :=
  match d with
  | [] => [(k, v)]
  | (k', v') :: r =>
      if String.eqb k' k then (k, v) :: r else (k', v') :: dict_set k v r
  end.

(** [del d[k]] for a key of [d]. *)
Fixpoint dict_del (k : string) (d : dict V) : dict V :=
  match d with
  | [] => []
  | (k', v') :: r => if String.eqb k' k then r else (k', v') :: dict_del k r
  end.

(** [d.keys()], [d.values()] *)
Definition keys (d : dict V) : list string := map fst d.
Definition values (d : dict V) : list V := map snd d.

End Dict.

(** [c.lower()] on one character. Text is modelled over the code points
    below 256, where the upper-case letters are A-Z, U+00C0-U+00D6 and
    U+00D8-U+00DE, each 32 below its lower-case letter. *)
Definition lower_char (c : ascii) : ascii :=
  let n := nat_of_ascii c in
  if (((65 <=? n) && (n <=? 90))
      || ((192 <=? n) && (n <=? 222) && negb (n =? 215)))%nat
  then ascii_of_nat (n + 32) else c.

(** [s.lower()] *)
Fixpoint lower (s : string) : string :=
  match s with
  | EmptyString => EmptyString
  | String c r => String (lower_char c) (lower r)
  end.

(** [sub in s] *)
Fixpoint contains (sub s : string) : bool :=
  String.prefix sub s
  || match s with
     | EmptyString => false
     | String _ r => contains sub r
     end.

(** [str(n)] for a natural number. *)
Definition str_of_nat (n : nat) : string :=
  DecimalString.NilEmpty.string_of_uint (Nat.to_uint n).

(** [s[:n]] *)
Definition str_prefix (n : nat) (s : string) : string := substring 0 n s.

(** [l[-n:]] for [n > 0]. *)
Definition last_slice {A : Type} (n : nat) (l : list A) : list A :=
  skipn (List.length l - n) l.

(** [bool(v)] *)
Definition py_truthy (v : pyval) : bool :=
  match v with
  | PNone => false
  | PBool b => b
  | PInt z => negb (Z.eqb z 0)
  | PStr s => negb (String.eqb s "")
  | PList l => match l with [] => false | _ :: _ => true end
  | PDict d => match d with [] => false | _ :: _ => true end
  end.

(** [c.isspace()] on the code points below 256: U+0009-U+000D,
    U+001C-U+0020, U+0085 and U+00A0. *)
Definition is_space (c : ascii) : bool :=
  let n := nat_of_ascii c in
  (((9 <=? n) && (n <=? 13)) || ((28 <=? n) && (n <=? 32))
   || (n =? 133) || (n =? 160))%nat.

(** [s.lstrip()], [s.rstrip()], [s.strip()] *)
Fixpoint lstrip (s : string) : string :=
  match s with
  | EmptyString => EmptyString
  | String c r => if is_space c then lstrip r else s
  end.

Fixpoint rstrip (s : string) : string :=
  match s with
  | EmptyString => EmptyString
  | String c r =>
      match rstrip r with
      | EmptyString => if is_space c then EmptyString else String c EmptyString
      | r' => String c r'
      end
  end.

Definition strip (s : string) : string := rstrip (lstrip s).

End Py.

Import Py.

(** ** planner/task_planner.py *)

Module Planner.

Inductive TaskStatus : Type := PENDING | IN_PROGRESS | COMPLETED | FAILED.

Definition status_eqb (a b : TaskStatus) : bool :=
  match a, b with
  | PENDING, PENDING | IN_PROGRESS, IN_PROGRESS
  | COMPLETED, COMPLETED | FAILED, FAILED => true
  | _, _ => false
  end.

(** The dataclass [Task]. A task is a value here: the planner's methods
    reach a task through [self.tasks] only, so a task returned by a method
    is the task as it was when the method returned. *)
Record Task : Type := mkTask {
  id : string;
  description : string;
  status : TaskStatus;
  result : pyval;
  error : option string;
  metadata : option (dict pyval)
}.

Record TaskPlanner : Type := mkPlanner {
  tasks : dict Task;
  current_task_id : option string
}.

(** [TaskPlanner()] *)
Definition new_planner : TaskPlanner :=
  {| tasks := []; current_task_id := None |}.

(** [metadata or {}] *)
Definition or_empty (m : option (dict pyval)) : dict pyval :=
  match m with
  | Some d => d
  | None => []
  end.

Definition create_task (description : string) (metadata : option (dict pyval))
    (p : TaskPlanner) : Task * TaskPlanner :=
  let task_id := "task_" ++ str_of_nat (List.length (tasks p) + 1) in
  let task := {| id := task_id;
                 description := description;
                 status := PENDING;
                 result := PNone;
                 error := None;
                 metadata := Some (or_empty metadata) |} in
  (task, {| tasks := dict_set task_id task (tasks p);
            current_task_id := current_task_id p |}).

Definition get_task (task_id : string) (p : TaskPlanner) : option Task :=
  dict_get task_id (tasks p).

(** [update_task_status]: the three assignments change the task where it
    is stored, under the same key. *)
Definition update_task_status (task_id : string) (status : TaskStatus)
    (result : pyval) (error : option string) (p : TaskPlanner)
    : bool * TaskPlanner :=
  match dict_get task_id (tasks p) with
  | None => (false, p)
  | Some task =>
      let task' := {| id := id task;
                      description := description task;
                      status := status;
                      result := result;
                      error := error;
                      metadata := metadata task |} in
      (true, {| tasks := dict_set task_id task' (tasks p);
                current_task_id := current_task_id p |})
  end.

(** The [create_task] calls of one list display, left to right. *)
Fixpoint create_all (specs : list (string * dict pyval)) (p : TaskPlanner)
    : list Task * TaskPlanner :=
  match specs with
  | [] => ([], p)
  | (d, m) :: r =>
      let (t, p1) := create_task d (Some m) p in
      let (ts, p2) := create_all r p1 in
      (t :: ts, p2)
  end.

Definition login_template : list (string * dict pyval) :=
  [ ("Locate login page files",
     [("type", PStr "file_discovery");
      ("patterns", PList [PStr "*login*.{js,jsx,ts,tsx,html,css,scss}"])]);
    ("Analyze current layout structure",
     [("type", PStr "code_analysis"); ("target", PStr "login_component")]);
    ("Update CSS for modern styling",
     [("type", PStr "code_modification"); ("target", PStr "login_styles")]);
    ("Ensure responsive design",
     [("type", PStr "code_modification"); ("target", PStr "responsive_design")]);
    ("Test across different screen sizes",
     [("type", PStr "testing"); ("target", PStr "responsive_testing")]) ].

Definition api_template : list (string * dict pyval) :=
  [ ("Identify API endpoint requirements",
     [("type", PStr "analysis"); ("target", PStr "api_requirements")]);
    ("Create API endpoint implementation",
     [("type", PStr "code_creation"); ("target", PStr "api_implementation")]);
    ("Add input validation",
     [("type", PStr "code_modification"); ("target", PStr "input_validation")]);
    ("Write unit tests",
     [("type", PStr "testing"); ("target", PStr "unit_tests")]) ].

Definition login_rule (command : string) : bool :=
  contains "login" command
  && (contains "layout" command || contains "style" command).

Definition api_rule (command : string) : bool :=
  contains "api" command
  && (contains "add" command || contains "create" command).

Definition plan_tasks (command : string) (p : TaskPlanner)
    : list Task * TaskPlanner :=
  let command := lower command in
  let (tasks, p1) :=
    if login_rule command then create_all login_template p
    else if api_rule command then create_all api_template p
    else create_all
           [("Process command: " ++ command,
             [("type", PStr "general"); ("command", PStr command)])] p in
  match tasks with
  | t :: _ => (tasks, {| tasks := Planner.tasks p1;
                         current_task_id := Some (id t) |})
  | [] => (tasks, p1)
  end.

(** [not s] for an [Optional[str]] *)
Definition falsy (s : option string) : bool :=
  match s with
  | None => true
  | Some EmptyString => true
  | Some _ => false
  end.

Definition get_current_task (p : TaskPlanner) : option Task :=
  match current_task_id p with
  | Some cid => if falsy (Some cid) then None else get_task cid p
  | None => None
  end.

(** The first loop of [complete_current_task]: the index of the first task
    of the list whose id is [cid], counting from [i]; -1 when there is none. *)
Fixpoint find_current_idx (cid : string) (task_list : list Task) (i : Z) : Z :=
  match task_list with
  | [] => (-1)%Z
  | task :: r =>
      if String.eqb (id task) cid then i else find_current_idx cid r (i + 1)%Z
  end.

Definition complete_current_task (result : pyval) (p : TaskPlanner)
    : option Task * TaskPlanner :=
  match current_task_id p with
  | None => (None, p)
  | Some cid =>
      if falsy (Some cid) then (None, p) else
      let (_, p1) := update_task_status cid COMPLETED result None p in
      let task_list := values (tasks p1) in
      let current_idx := find_current_idx cid task_list 0%Z in
      let next_task :=
        find (fun task => status_eqb (status task) PENDING)
             (skipn (Z.to_nat (current_idx + 1)) task_list) in
      (next_task, {| tasks := tasks p1;
                     current_task_id := option_map id next_task |})
  end.

(** The body of the loop of [clear_completed_tasks]. *)
Definition clear_one (p : TaskPlanner) (task_id : string) : TaskPlanner :=
  {| tasks := dict_del task_id (tasks p);
     current_task_id :=
       match current_task_id p with
       | Some cid => if String.eqb cid task_id then None else Some cid
       | None => None
       end |}.

Definition clear_completed_tasks (p : TaskPlanner) : TaskPlanner :=
  let completed_ids :=
    map fst (filter (fun kt => status_eqb (status (snd kt)) COMPLETED)
                    (tasks p)) in
  fold_left clear_one completed_ids p.

(** One call on the planner. *)
Inductive call : Type :=
| CreateTask (description : string) (metadata : option (dict pyval))
| PlanTasks (command : string)
| UpdateTaskStatus (task_id : string) (status : TaskStatus)
    (result : pyval) (error : option string)
| CompleteCurrentTask (result : pyval)
| ClearCompletedTasks.

(** The planner after a call, with the tasks the call created. *)
Definition exec (c : call) (p : TaskPlanner) : list Task * TaskPlanner :=
  match c with
  | CreateTask d m => let (t, p') := create_task d m p in ([t], p')
  | PlanTasks cmd => plan_tasks cmd p
  | UpdateTaskStatus k s r e => ([], snd (update_task_status k s r e p))
  | CompleteCurrentTask r => ([], snd (complete_current_task r p))
  | ClearCompletedTasks => ([], clear_completed_tasks p)
  end.

(** A sequence of calls: every task created along the way, oldest first,
    and the planner at the end. *)
Fixpoint run (cs : list call) (p : TaskPlanner) : list Task * TaskPlanner :=
  match cs with
  | [] => ([], p)
  | c :: r =>
      let (ts, p1) := exec c p in
      let (ts', p2) := run r p1 in
      ((ts ++ ts')%list, p2)
  end.

(** [TaskStatus.value] *)
Definition status_value (s : TaskStatus) : string :=
  match s with
  | PENDING => "pending"
  | IN_PROGRESS => "in_progress"
  | COMPLETED => "completed"
  | FAILED => "failed"
  end.

(** [TaskStatus(v)]: the member whose value is [v]; [None] stands for the
    [ValueError] raised when there is none. *)
Definition status_of_value (v : pyval) : option TaskStatus :=
  match v with
  | PStr s =>
      if String.eqb s "pending" then Some PENDING
      else if String.eqb s "in_progress" then Some IN_PROGRESS
      else if String.eqb s "completed" then Some COMPLETED
      else if String.eqb s "failed" then Some FAILED
      else None
  | _ => None
  end.

(** [Task.to_dict] *)
Definition to_dict (t : Task) : dict pyval :=
  [("id", PStr (id t));
   ("description", PStr (description t));
   ("status", PStr (status_value (status t)));
   ("result", result t);
   ("error", match error t with Some e => PStr e | None => PNone end);
   ("metadata", PDict (or_empty (metadata t)))].

(** What [Task.from_dict] does: it returns a task, or raises [KeyError] for
    a missing key or [ValueError] for a value that is no status.
    [IllTyped] stands for the tasks this model leaves out, built from a
    value that the annotations of [Task] exclude (an id, description or
    error that is not a [str], a metadata that is not a [dict]). *)
Inductive built : Type :=
| Built (t : Task)
| KeyError (key : string)
| ValueError (v : pyval)
| IllTyped.

(** [Task.from_dict]; the arguments of [cls] are evaluated in order. *)
Definition from_dict (data : dict pyval) : built :=
  match dict_get "id" data with
  | None => KeyError "id"
  | Some i =>
      match dict_get "description" data with
      | None => KeyError "description"
      | Some d =>
          let v := match dict_get "status" data with
                   | Some v => v
                   | None => PStr (status_value PENDING)
                   end in
          match status_of_value v with
          | None => ValueError v
          | Some s =>
              let r := match dict_get "result" data with
                       | Some r => r
                       | None => PNone
                       end in
              match i, d,
                    match dict_get "error" data with
                    | None | Some PNone => Some None
                    | Some (PStr e) => Some (Some e)
                    | Some _ => None
                    end,
                    match dict_get "metadata" data with
                    | None | Some PNone => Some None
                    | Some (PDict m) => Some (Some m)
                    | Some _ => None
                    end with
              | PStr i, PStr d, Some e, Some m =>
                  Built {| id := i; description := d; status := s;
                           result := r; error := e; metadata := m |}
              | _, _, _, _ => IllTyped
              end
          end
      end
  end.

(** [sum(1 for t in self.tasks.values() if t.status == s)] *)
Definition count_status (s : TaskStatus) (p : TaskPlanner) : nat :=
  List.length (filter (fun t => status_eqb (status t) s) (values (tasks p))).

Definition get_status_summary (p : TaskPlanner) : dict pyval :=
  [("total_tasks", PInt (Z.of_nat (List.length (tasks p))));
   ("completed", PInt (Z.of_nat (count_status COMPLETED p)));
   ("in_progress", PInt (Z.of_nat (count_status IN_PROGRESS p)));
   ("pending", PInt (Z.of_nat (count_status PENDING p)));
   ("current_task",
    match current_task_id p with Some c => PStr c | None => PNone end);
   ("tasks", PList (map (fun t => PDict (to_dict t)) (values (tasks p))))].

(** The loop of the example at the end of the module: each planned task is
    set InProgress and the current task is then completed with [result]. *)
Fixpoint simulate_execution (result : pyval) (planned : list Task)
    (p : TaskPlanner) : TaskPlanner :=
  match planned with
  | [] => p
  | task :: r =>
      let (_, p1) := update_task_status (id task) IN_PROGRESS PNone None p in
      let (_, p2) := complete_current_task result p1 in
      simulate_execution result r p2
  end.

End Planner.

Import Planner.

(** ** main.py *)

Module Orchestrator.

(** A task or a history event: a [Dict[str, Any]]. *)
Definition record : Type := dict pyval.

(** What a state file of the workspace holds: text that [json.load]
    accepts, identified with the value it denotes (any value, not only the
    array of objects that [save_state] writes; numbers that are not
    integers are left out), or a file that [open] or [json.load] rejects,
    with the message of the exception raised. *)
Inductive file : Type :=
| JsonText (doc : pyval)
| BadText (why : string).

(** A list of dictionaries as a value: what [json.dump] writes for the
    queue and for the history. *)
Definition array (l : list record) : pyval := PList (map PDict l).

(** The dictionaries of a value that is a list of dictionaries. *)
Fixpoint records_of (l : list pyval) : option (list record) :=
  match l with
  | [] => Some []
  | PDict d :: r => option_map (cons d) (records_of r)
  | _ :: _ => None
  end.

Definition as_records (v : pyval) : option (list record) :=
  match v with
  | PList l => records_of l
  | _ => None
  end.

(** [len(v)]; on the left the message of the [TypeError]. *)
Definition py_len (v : pyval) : string + nat :=
  match v with
  | PNone => inl "object of type 'NoneType' has no len()"
  | PBool _ => inl "object of type 'bool' has no len()"
  | PInt _ => inl "object of type 'int' has no len()"
  | PStr s => inr (String.length s)
  | PList l => inr (List.length l)
  | PDict d => inr (List.length d)
  end.

Inductive level : Type := INFO | WARNING | ERROR.

(** Everything outside the object: the two files of [.voice_ide] (absent
    when [None]), what was logged so far, oldest first, and how many times
    the clock was read. *)
Record World : Type := mkWorld {
  tasks_file : option file;
  history_file : option file;
  log : list (level * string);
  clock : nat
}.

Record VoiceIDE : Type := mkApp {
  running : bool;
  current_task : option record;
  task_queue : list record;
  history : list record
}.

Definition logger (l : level) (msg : string) (w : World) : World :=
  {| tasks_file := tasks_file w; history_file := history_file w;
     log := (log w ++ [(l, msg)])%list; clock := clock w |}.

Definition tick (w : World) : World :=
  {| tasks_file := tasks_file w; history_file := history_file w;
     log := log w; clock := S (clock w) |}.

Definition set_queue (q : list record) (a : VoiceIDE) : VoiceIDE :=
  {| running := running a; current_task := current_task a;
     task_queue := q; history := history a |}.

Definition set_history (h : list record) (a : VoiceIDE) : VoiceIDE :=
  {| running := running a; current_task := current_task a;
     task_queue := task_queue a; history := h |}.

Definition set_current (c : option record) (a : VoiceIDE) : VoiceIDE :=
  {| running := running a; current_task := c;
     task_queue := task_queue a; history := history a |}.

(** The fields as [__init__] sets them, before [setup_workspace]. *)
Definition init : VoiceIDE :=
  {| running := false; current_task := None; task_queue := []; history := [] |}.

(** [load_state] on the two fields it assigns, [queue] and [history] being
    their values before the call: one [try] around both files; an exception
    leaves what was assigned before it and is logged as a warning. Nothing
    checks that [json.load] returns a list: the value is assigned as it is,
    and the [len] of the log line raises on a value that has no length. *)
Definition load_fields (queue history : pyval) (w : World)
    : pyval * pyval * World :=
  let warning e := logger WARNING ("Failed to load previous state: " ++ e) in
  let load_history queue w :=
    match history_file w with
    | Some (JsonText v) =>
        match py_len v with
        | inr n =>
            (queue, v,
             logger INFO ("Loaded " ++ str_of_nat n ++ " history items") w)
        | inl e => (queue, v, warning e w)
        end
    | Some (BadText e) => (queue, history, warning e w)
    | None => (queue, history, w)
    end in
  match tasks_file w with
  | Some (JsonText v) =>
      match py_len v with
      | inr n =>
          load_history v
            (logger INFO ("Loaded " ++ str_of_nat n ++ " pending tasks") w)
      | inl e => (v, history, warning e w)
      end
  | Some (BadText e) => (queue, history, warning e w)
  | None => load_history queue w
  end.

(** The object as [load_state] leaves it: with a queue and a history that
    are lists of dictionaries, as their annotations say and as every other
    method takes them to be, or with a value read from a file that is not
    one. *)
Inductive loaded : Type :=
| Loaded (a : VoiceIDE)
| IllTyped (queue history : pyval).

Definition load_state (a : VoiceIDE) (w : World) : loaded * World :=
  let '(queue, history, w) :=
    load_fields (array (task_queue a)) (array (history a)) w in
  (match as_records queue, as_records history with
   | Some q, Some h =>
       Loaded {| running := running a; current_task := current_task a;
                 task_queue := q; history := h |}
   | _, _ => IllTyped queue history
   end, w).

(** [VoiceIDE()]: [__init__], whose [setup_workspace] ends in [load_state]. *)
Definition startup (w : World) : loaded * World := load_state init w.

(** [save_state], both files written without an I/O error. *)
Definition save_state (a : VoiceIDE) (w : World) : World :=
  let recent_history := last_slice 100 (history a) in
  {| tasks_file := Some (JsonText (array (task_queue a)));
     history_file := Some (JsonText (array recent_history));
     log := log w; clock := clock w |}.

(** [bool(d)] for an [Optional[Dict]] *)
Definition truthy (o : option record) : bool :=
  match o with
  | Some (_ :: _) => true
  | _ => false
  end.

(** [get_status]. [None] stands for the descriptions this model leaves out:
    a stored description that is not a [str] (Python raises [TypeError] on a
    number, [None] or an object, and prints the slice of an array). *)
Definition get_status (a : VoiceIDE) : option string :=
  match current_task a with
  | Some ((_ :: _) as task) =>
      match dict_get "description" task with
      | None => Some ("working on: " ++ str_prefix 20 "task" ++ "...")
      | Some (PStr d) => Some ("working on: " ++ str_prefix 20 d ++ "...")
      | Some _ => None
      end
  | _ =>
      match task_queue a with
      | _ :: _ =>
          Some (str_of_nat (List.length (task_queue a)) ++ " tasks queued")
      | [] => Some "ready"
      end
  end.

Definition estimate_complexity (description : string) : string :=
  let description := lower description in
  if existsb (fun word => contains word description)
             ["simple"; "add"; "update"; "fix"] then "low"
  else if existsb (fun word => contains word description)
                  ["implement"; "create"; "refactor"] then "medium"
  else if existsb (fun word => contains word description)
                  ["rewrite"; "migrate"; "redesign"] then "high"
  else "unknown".

(** [confirm_exit], with [answer] what is typed at its prompt when it
    asks. *)
Definition confirm_exit (answer : string) (a : VoiceIDE) : bool :=
  if match task_queue a with [] => false | _ :: _ => true end
     || truthy (current_task a)
  then String.eqb (lower answer) "y"
  else true.

(** [task["description"]]; [None] stands for the [KeyError]. *)
Definition description_of (task : record) : option pyval :=
  dict_get "description" task.

(** The rows of the queued tasks in [show_status], numbered from [i]. *)
Fixpoint queued_rows (i : nat) (queue : list record)
    : option (list (string * pyval)) :=
  match queue with
  | [] => Some []
  | task :: r =>
      match description_of task, queued_rows (S i) r with
      | Some d, Some rows =>
          Some (("[dim]Queued #" ++ str_of_nat i ++ "[/dim]", d) :: rows)
      | _, _ => None
      end
  end.

(** The rows [show_status] puts in its table, top to bottom; [None] stands
    for the [KeyError] of a task without description. *)
Definition show_status (a : VoiceIDE) : option (list (string * pyval)) :=
  let current_row :=
    match current_task a with
    | Some ((_ :: _) as task) =>
        match description_of task with
        | Some d => Some [("[yellow]In Progress[/yellow]", d)]
        | None => None
        end
    | _ => Some []
    end in
  match current_row, queued_rows 1 (firstn 5 (task_queue a)) with
  | Some c, Some q =>
      Some (c ++ q
            ++ if Nat.ltb 5 (List.length (task_queue a))
               then [("[dim]...[/dim]",
                      PStr ("[dim]and "
                            ++ str_of_nat (List.length (task_queue a) - 5)
                            ++ " more tasks[/dim]"))]
               else [])%list
  | _, _ => None
  end.

(** The tasks that [show_status] shows, top to bottom: the current one, if
    any, then the first five of the queue. *)
Definition shown_tasks (a : VoiceIDE) : list record :=
  (match current_task a with
   | Some ((_ :: _) as task) => [task]
   | _ => []
   end ++ firstn 5 (task_queue a))%list.

(** What the console of [rich] raises, which is its library's to decide:
    on a text that [console.print] is given, on a value that
    [Table.add_row] is given as a cell, and on a table that
    [console.print] is given, with its rows; [None] when nothing is
    raised. *)
Record Console : Type := mkConsole {
  print_error : string -> option string;
  cell_error : pyval -> option string;
  table_error : list (string * pyval) -> option string
}.

(** [t.get("type") == ty] *)
Definition has_type (ty : string) (t : record) : bool :=
  match dict_get "type" t with
  | Some (PStr s) => String.eqb s ty
  | _ => false
  end.

(** The three numbers of the summary that [shutdown] prints: tasks
    completed, tasks failed and "Total commands". *)
Definition session_summary (a : VoiceIDE) : nat * nat * nat :=
  (List.length (filter (has_type "task_completed") (history a)),
   List.length (filter (has_type "task_failed") (history a)),
   List.length (history a)).

(** [shutdown]: the state is saved, then the summary is printed. *)
Definition shutdown (a : VoiceIDE) (w : World) : (nat * nat * nat) * World :=
  (session_summary a, save_state a w).

(** What the body of the [try] of [process_next_task] meets outside the
    object: nothing raises; [Progress(...)] or entering it raises an
    [Exception] with this message; [progress.add_task], [progress.update],
    [simulate_work] or leaving the display does; or the [console.print]
    that follows the completion does. What is not an [Exception]
    ([KeyboardInterrupt], [SystemExit]) is left out. *)
Inductive outcome : Type :=
| Finishes
| RaisesInDisplay (msg : string)
| RaisesInWork (msg : string)
| RaisesInPrint (msg : string).

Section Loop.

(** [datetime.now().isoformat()] at the n-th reading of the clock. *)
Variable now : nat -> string.
(** The outcome of a [try] body entered after n readings of the clock. *)
Variable work : nat -> outcome.
(** The message of the [RecursionError] that the interpreter raises when a
    call finds no room on its stack. *)
Variable recursion_error : string.
(** The console of the object. *)
Variable console : Console.

Definition create_task (description : string) (a : VoiceIDE) (w : World)
    : record * World :=
  let task_id := "task_" ++ str_of_nat (List.length (history a) + 1) in
  ([("id", PStr task_id);
    ("description", PStr description);
    ("status", PStr "pending");
    ("created_at", PStr (now (clock w)));
    ("metadata", PDict [("type", PStr "code_change");
                        ("complexity",
                         PStr (estimate_complexity description))])],
   tick w).

Definition completed_event (ts : string) (task : record) : record :=
  [("timestamp", PStr ts); ("task", PDict task); ("type", PStr "task_completed")].

Definition failed_event (ts : string) (task : record) (e : string) : record :=
  [("timestamp", PStr ts); ("task", PDict task); ("error", PStr e);
   ("type", PStr "task_failed")].

(** The statements of the [try] that mark the task completed. *)
Definition mark_completed (task : record) (w : World) : record * World :=
  let task := dict_set "status" (PStr "completed") task in
  let task := dict_set "completed_at" (PStr (now (clock w))) task in
  let task :=
    dict_set "result"
      (PDict [("message", PStr "Task completed successfully");
              ("changes", PList [PStr "Simulated changes"])]) task in
  (task, tick w).

(** The assignments of the [except] clause and its log line. *)
Definition mark_failed (e : string) (task : record) (w : World)
    : record * World :=
  let task := dict_set "status" (PStr "failed") task in
  let task := dict_set "error" (PStr e) task in
  (task, logger ERROR ("Task failed: " ++ e) w).

(** [process_next_task] on a queue that is not empty, as far as the call
    in its [finally] clause: [task] is the head popped from the queue and
    [rest] what is left of it. Inside the display the [try] reads
    [self.current_task['description']], a [KeyError] on a task without
    one. A history event holds a reference to the task, so an event
    appended before a later exception shows the task as the [except]
    clause left it. *)
Definition run_task (task : record) (rest : list record)
    (a : VoiceIDE) (w : World) : VoiceIDE * World :=
  let task := dict_set "status" (PStr "in_progress") task in
  let task := dict_set "started_at" (PStr (now (clock w))) task in
  let w := tick w in
  let except e :=
    let (task, w) := mark_failed e task w in
    (task, (history a ++ [failed_event (now (clock w)) task e])%list, tick w) in
  let '(task, hist, w) :=
    match work (clock w), dict_get "description" task with
    | RaisesInDisplay e, _ => except e
    | _, None => except "'description'"
    | RaisesInWork e, Some _ => except e
    | Finishes, Some _ =>
        if running a then
          let (task, w) := mark_completed task w in
          (task, (history a ++ [completed_event (now (clock w)) task])%list,
           tick w)
        else (task, history a, w)
    | RaisesInPrint e, Some _ =>
        if running a then
          let (task, w) := mark_completed task w in
          let ts := now (clock w) in
          let w := tick w in
          let (task, w) := mark_failed e task w in
          (task,
           (history a ++ [completed_event ts task;
                          failed_event (now (clock w)) task e])%list,
           tick w)
        else (task, history a, w)
    end in
  let a := {| running := running a; current_task := Some task;
              task_queue := rest; history := hist |} in
  (a, save_state a w).

(** [process_next_task] with [self.task_queue] equal to [queue]. The call
    in the [finally] clause is the recursive call, on the rest of the
    queue: one more frame on the interpreter's stack for each task, and
    for the last call, on the empty queue. [room] is the number of nested
    calls of [process_next_task] that the stack has room for; the call for
    which there is none raises [RecursionError] before it runs a
    statement, and, raised in a [finally] clause, the exception leaves
    every call under way: the third component of the result is its
    message. The calls that the body makes need room too: when one of them
    inside the [try] finds none, that is an outcome of [work]; the logger
    and [save_state] are taken to find theirs. *)
Fixpoint process_queue (room : nat) (queue : list record)
    (a : VoiceIDE) (w : World) : VoiceIDE * World * option string :=
  match room with
  | 0 => (a, w, Some recursion_error)
  | S room =>
      match queue with
      | [] => (set_current None a, w, None)
      | task :: rest =>
          let (a, w) := run_task task rest a w in
          process_queue room rest a w
      end
  end.

Definition process_next_task (room : nat) (a : VoiceIDE) (w : World)
    : VoiceIDE * World * option string :=
  process_queue room (task_queue a) a w.

(** The line that [process_command] prints for a task it only queues. *)
Definition queued_notice (command : string) : string :=
  "[dim]Queued task: " ++ str_prefix 50 command
  ++ (if Nat.ltb 50 (String.length command) then "..." else "") ++ "[/dim]".

(** [process_command], with [room] the room on the stack at its call of
    [process_next_task]; the third component is the message of the
    exception that leaves the call, if any. *)
Definition process_command (room : nat) (command : string)
    (a : VoiceIDE) (w : World) : VoiceIDE * World * option string :=
  let a := set_history
             (history a ++ [[("timestamp", PStr (now (clock w)));
                             ("command", PStr command);
                             ("type", PStr "user_input")]])%list a in
  let w := tick w in
  let (task, w) := create_task command a w in
  let a := set_queue (task_queue a ++ [task])%list a in
  if truthy (current_task a)
  then (a, w, print_error console (queued_notice command))
  else process_next_task room a w.

(** The [except Exception] clause of the loop of [start]. *)
Definition handled (raised : option string) (w : World) : World :=
  match raised with
  | Some e => logger ERROR ("Error: " ++ e) w
  | None => w
  end.

(** What one turn of the loop of [start] does with the screen. *)
Inductive screen : Type := ShowHelp | ShowStatus | ClearAndBanner.

(** The first exception raised while [show_status] fills the rows of its
    table for these tasks, if any: the [KeyError] of a task without
    description, or what [add_row] raises on the description. *)
Fixpoint rows_error (tasks : list record) : option string :=
  match tasks with
  | [] => None
  | task :: r =>
      match description_of task with
      | None => Some "'description'"
      | Some d =>
          match cell_error console d with
          | Some e => Some e
          | None => rows_error r
          end
      end
  end.

(** The message of the exception that [show_status] raises, if any: while
    it fills the rows, or when it prints the table. *)
Definition show_status_error (a : VoiceIDE) : option string :=
  match rows_error (shown_tasks a) with
  | Some e => Some e
  | None =>
      match show_status a with
      | Some rows => table_error console rows
      | None => Some "'description'"
      end
  end.

(** One turn of the loop of [start] from the line read at the prompt, with
    [answer] what is typed if [confirm_exit] asks: the object, the world and
    what is shown. An [Exception] raised in the turn, by [show_status] or
    leaving [process_command], is logged by the [except] clause of the
    loop. *)
Definition turn (room : nat) (line answer : string) (a : VoiceIDE) (w : World)
    : VoiceIDE * World * list screen :=
  let user_input := strip line in
  if String.eqb user_input "" then (a, w, [])
  else if existsb (String.eqb (lower user_input)) ["exit"; "quit"] then
    (if confirm_exit answer a
     then {| running := false; current_task := current_task a;
             task_queue := task_queue a; history := history a |}
     else a, w, [])
  else if existsb (String.eqb (lower user_input)) ["help"; "?"] then
    (a, w, [ShowHelp])
  else if existsb (String.eqb (lower user_input))
                  ["status"; "what's going on"] then
    match show_status_error a with
    | Some e => (a, handled (Some e) w, [])
    | None => (a, w, [ShowStatus])
    end
  else if existsb (String.eqb (lower user_input)) ["clear"; "cls"] then
    (a, w, [ClearAndBanner])
  else
    let '(a, w, raised) := process_command room user_input a w in
    (a, handled raised w, []).

(** The commands of a session, one [process_command] after the other, each
    in the [try] of the loop of [start]. *)
Fixpoint process_commands (room : nat) (commands : list string)
    (a : VoiceIDE) (w : World) : VoiceIDE * World :=
  match commands with
  | [] => (a, w)
  | command :: r =>
      let '(a, w, raised) := process_command room command a w in
      process_commands room r a (handled raised w)
  end.

End Loop.

End Orchestrator.

(** ** ide/mock_ide.py *)

Module MockIDE.

(** The fields of a [MockIDE] that its methods below read or write. A
    value of [last_modified] is what [time.time()] returned, of a type [T]
    left open. *)
Record IDE (T : Type) : Type := mkIDE {
  workspace_root : string;
  open_files : list string;
  current_file : option string;
  current_position : nat * nat;
  files : dict pyval;
  last_modified : dict T
}.

Arguments mkIDE {T}.
Arguments workspace_root {T}.
Arguments open_files {T}.
Arguments current_file {T}.
Arguments current_position {T}.
Arguments files {T}.
Arguments last_modified {T}.

Definition mock_responses : dict (list string) :=
  [("fix",
    ["I've fixed the issue with the login page layout. The changes include updating the CSS for better spacing and alignment.";
     "The layout issue has been resolved. I've made the login form more responsive and improved the button styling.";
     "I've updated the login page with a more modern design. The changes include a cleaner layout and better visual hierarchy."]);
   ("create",
    ["I've created a new component with the specified functionality. The code follows best practices and includes proper error handling.";
     "The new feature has been implemented. I've added comprehensive documentation and basic tests.";
     "I've set up the requested functionality. The implementation includes type definitions and proper state management."]);
   ("refactor",
    ["I've refactored the code to improve readability and maintainability. The functionality remains the same.";
     "The code has been restructured to follow better architectural patterns. I've also updated the documentation.";
     "I've optimized the code for better performance. The changes include reducing redundancy and improving algorithm efficiency."]);
   ("test",
    ["I've added unit tests for the specified functionality. The test coverage is now at 85%.";
     "The test suite has been updated to include the new features. All tests are passing.";
     "I've written integration tests to verify the component interactions. The test coverage report has been generated."]);
   ("debug",
    ["I've identified and fixed the issue. The problem was caused by an unhandled edge case in the validation logic.";
     "The bug has been resolved. I've added additional logging to help with future debugging.";
     "I've fixed the error by addressing the root cause. The solution includes proper error handling to prevent similar issues."])].

(** [_get_random_response], with [pick] the index that [random.choice]
    draws, taken below the length of the list. *)
Definition _get_random_response (pick : nat) (intent : string) : string :=
  let responses :=
    match dict_get intent mock_responses with
    | Some l => l
    | None => ["I've completed the task: " ++ intent;
               "The " ++ intent ++ " operation was successful.";
               "I've processed your request to " ++ intent ++ "."]
    end in
  nth (Nat.modulo pick (List.length responses)) responses "".

(** The intent [send_instruction] reads in an instruction. *)
Definition intent_of (instruction : string) : string :=
  let instruction_lower := lower instruction in
  if existsb (fun word => contains word instruction_lower)
             ["fix"; "correct"; "resolve"] then "fix"
  else if existsb (fun word => contains word instruction_lower)
                  ["create"; "add"; "new"] then "create"
  else if existsb (fun word => contains word instruction_lower)
                  ["refactor"; "improve"; "clean up"] then "refactor"
  else if existsb (fun word => contains word instruction_lower)
                  ["test"; "coverage"] then "test"
  else if existsb (fun word => contains word instruction_lower)
                  ["debug"; "error"; "bug"] then "debug"
  else "general".

(** [send_instruction], with [pick] as above and the two numbers that
    [random.uniform] and [time.time] give. *)
Definition send_instruction (pick : nat) (processing_time timestamp : pyval)
    (instruction : string) : dict pyval :=
  let intent := intent_of instruction in
  let response := _get_random_response pick intent in
  [("success", PBool true);
   ("response", PStr response);
   ("changes", PList []);
   ("metadata", PDict [("intent", PStr intent);
                       ("processing_time", processing_time);
                       ("timestamp", timestamp)])].

Section Files.

Context {T : Type}.

(** [os.path.relpath(path, start)] *)
Variable relpath : string -> string -> string.

(** The path made relative to the workspace, as the methods below do. *)
Definition relative (ide : IDE T) (file_path : string) : string :=
  if String.prefix "/" file_path || contains ":" file_path
  then relpath file_path (workspace_root ide)
  else file_path.

Definition write (file_path : string) (content : pyval) (t : T) (ide : IDE T)
    : IDE T :=
  {| workspace_root := workspace_root ide;
     open_files := open_files ide;
     current_file := current_file ide;
     current_position := current_position ide;
     files := dict_set file_path content (files ide);
     last_modified := dict_set file_path t (last_modified ide) |}.

Definition get_file_content (file_path : string) (ide : IDE T)
    : option pyval :=
  dict_get (relative ide file_path) (files ide).

(** [save_file], with [t] what [time.time()] returns. *)
Definition save_file (t : T) (file_path content : string) (ide : IDE T)
    : bool * IDE T :=
  (true, write (relative ide file_path) (PStr content) t ide).

(** The loop of [apply_changes], with [time n] what [time.time()] returns
    when [n] files were written before. [None] stands for the exception
    raised on a 'file' that is neither falsy nor a [str]. *)
Fixpoint apply_each (time : nat -> T) (n : nat) (changes : list (dict pyval))
    (ide : IDE T) : option unit * IDE T :=
  match changes with
  | [] => (Some tt, ide)
  | change :: r =>
      match dict_get "file" change with
      | Some (PStr file_path) =>
          if String.eqb file_path "" then apply_each time n r ide
          else
            let file_path := relative ide file_path in
            match dict_get "content" change with
            | Some content =>
                apply_each time (S n) r (write file_path content (time n) ide)
            | None => apply_each time n r ide
            end
      | Some v => if py_truthy v then (None, ide) else apply_each time n r ide
      | None => apply_each time n r ide
      end
  end.

Definition apply_changes (time : nat -> T) (changes : list (dict pyval))
    (ide : IDE T) : option bool * IDE T :=
  match changes with
  | [] => (Some false, ide)
  | _ :: _ =>
      match apply_each time 0 changes ide with
      | (Some _, ide') => (Some true, ide')
      | (None, ide') => (None, ide')
      end
  end.

End Files.

Definition open_file {T : Type} (file_path : string) (ide : IDE T)
    : bool * IDE T :=
  (true,
   {| workspace_root := workspace_root ide;
      open_files :=
        if existsb (String.eqb file_path) (open_files ide)
        then open_files ide
        else (open_files ide ++ [file_path])%list;
      current_file := Some file_path;
      current_position := (0, 0);
      files := files ide;
      last_modified := last_modified ide |}).

Definition get_open_files {T : Type} (ide : IDE T) : list (dict pyval) :=
  map (fun f => [("path", PStr f); ("language", PStr "python")])
      (open_files ide).

End MockIDE.

Import Orchestrator.
Import MockIDE.

(** ** Vocabulary of the properties *)

(** The template [plan_tasks] picks for a lower-cased command. *)
Definition template_of (command : string) : list (string * dict pyval) :=
  if login_rule command then login_template
  else if api_rule command then api_template
  else [("Process command: " ++ command,
         [("type", PStr "general"); ("command", PStr command)])].

(** The id of the n-th task of a store that never shrinks. *)
Definition task_name (n : nat) : string := "task_" ++ str_of_nat n.

Arguments task_name : simpl never.

(** A new task, as [create_task] builds it. *)
Definition new_task (task_id d : string) (m : option (dict pyval)) : Task :=
  {| id := task_id; description := d; status := PENDING; result := PNone;
     error := None; metadata := Some (or_empty m) |}.

(** A store that never shrank: n tasks, named in order. *)
Definition named_store (n : nat) (p : TaskPlanner) : Prop :=
  keys (tasks p) = map task_name (seq 1 n).

(** A store in which nothing was ever completed: n Pending tasks, named
    in order. *)
Definition fresh_store (n : nat) (p : TaskPlanner) : Prop :=
  named_store n p
  /\ Forall (fun kt => status (snd kt) = PENDING) (tasks p).

(** The calls other than [clear_completed_tasks]. *)
Definition never_clears (c : call) : bool :=
  match c with
  | ClearCompletedTasks => false
  | _ => true
  end.

(** The calls that create tasks or clear the completed ones. *)
Definition creates_or_clears (c : call) : bool :=
  match c with
  | CreateTask _ _ | PlanTasks _ | ClearCompletedTasks => true
  | _ => false
  end.

(** Keys are distinct and non-empty, and a task is stored under its id. *)
Definition store_ok (p : TaskPlanner) : Prop :=
  NoDup (keys (tasks p))
  /\ Forall (fun kt => id (snd kt) = fst kt /\ fst kt <> "") (tasks p).

(** The current pointer, when set, names a stored task. *)
Definition current_ok (p : TaskPlanner) : Prop :=
  forall cid, current_task_id p = Some cid ->
              exists t, dict_get cid (tasks p) = Some t.

(** The current task once completed with result [r]. *)
Definition completed (r : pyval) (t : Task) : Task :=
  {| id := id t; description := description t; status := COMPLETED;
     result := r; error := None; metadata := metadata t |}.

(** The test of the second loop of [complete_current_task]. *)
Definition pending (t : Task) : bool := status_eqb (status t) PENDING.

(** A Pending task is stored under [k]. *)
Definition pending_at (k : string) (p : TaskPlanner) : Prop :=
  exists t, dict_get k (tasks p) = Some t /\ status t = PENDING.

(** The calls other than a direct [update_task_status]. *)
Definition no_update (c : call) : bool :=
  match c with
  | UpdateTaskStatus _ _ _ _ => false
  | _ => true
  end.

(** A task as the planner's own transitions leave it: no error, and either
    Pending without result or Completed. *)
Definition clean (t : Task) : Prop :=
  error t = None
  /\ (status t = PENDING /\ result t = PNone \/ status t = COMPLETED).

(** A store as [create_task], [plan_tasks], [complete_current_task] and
    [clear_completed_tasks] leave it: well formed, its tasks clean, its
    current task Pending. *)
Definition planned (p : TaskPlanner) : Prop :=
  store_ok p
  /\ Forall (fun kt => clean (snd kt)) (tasks p)
  /\ forall cid, current_task_id p = Some cid -> pending_at cid p.

(** A call that asks for a move along Pending, InProgress, then Completed
    or Failed: an [update_task_status] whose status is such a move for the
    task it names, a [complete_current_task] whose current task is not
    Failed. *)
Definition forward_status (s s' : TaskStatus) : bool :=
  match s, s' with
  | PENDING, _ => true
  | IN_PROGRESS, PENDING => false
  | IN_PROGRESS, _ => true
  | COMPLETED, COMPLETED => true
  | FAILED, FAILED => true
  | _, _ => false
  end.

Definition forward (c : call) (p : TaskPlanner) : bool :=
  match c with
  | UpdateTaskStatus k s _ _ =>
      match get_task k p with
      | Some t => forward_status (status t) s
      | None => true
      end
  | CompleteCurrentTask _ =>
      match get_current_task p with
      | Some t => forward_status (status t) COMPLETED
      | None => true
      end
  | _ => true
  end.

(** The status that a call leaves to the task stored under [k], which had
    status [s] before. *)
Definition status_after (c : call) (p : TaskPlanner) (k : string)
    (s : TaskStatus) : TaskStatus :=
  match c with
  | UpdateTaskStatus k0 s0 _ _ => if String.eqb k0 k then s0 else s
  | CompleteCurrentTask _ =>
      match current_task_id p with
      | Some cid => if String.eqb cid k then COMPLETED else s
      | None => s
      end
  | _ => s
  end.

(** A call whose arguments do not themselves set a result beside an
    error, or either of them on a Pending or InProgress task: every call
    but such an [update_task_status]. *)
Definition consistent (c : call) : bool :=
  match c with
  | UpdateTaskStatus _ s r e =>
      match r, e, s with
      | PNone, None, _ => true
      | PNone, Some _, (COMPLETED | FAILED) => true
      | _, None, (COMPLETED | FAILED) => true
      | _, _, _ => false
      end
  | _ => true
  end.

(** The two halves of a one-directional move from status [s] to [s']: a
    status that has left Pending does not return to it, and Completed and
    Failed are final. *)
Definition one_directional (s s' : TaskStatus) : Prop :=
  (s <> PENDING -> s' <> PENDING)
  /\ (s = COMPLETED \/ s = FAILED -> s' = s).

(** [result] and [error] are not both set, and neither is set on a Pending
    or InProgress task. *)
Definition result_error_exclusive (t : Task) : Prop :=
  ~ (result t <> PNone /\ error t <> None)
  /\ (status t = PENDING \/ status t = IN_PROGRESS ->
      result t = PNone /\ error t = None).

(** The most recent [n] entries of a list kept oldest first. *)
Definition most_recent {A : Type} (n : nat) (l : list A) : list A :=
  rev (firstn n (rev l)).

(** A history of 150 events, numbered from 0. *)
Definition numbered_events : list record :=
  map (fun n => [("type", PStr "user_input"); ("command", PStr (str_of_nat n))])
      (seq 0 150).

(** The line [load_state] logs when [json.load] raises with message [e]. *)
Definition load_warning (e : string) : level * string :=
  (WARNING, "Failed to load previous state: " ++ e).

(** The message of the exception that the [except] clause of
    [process_next_task] catches, if any, while it processes [task]. *)
Definition raised (o : outcome) (running : bool) (task : record)
    : option string :=
  match o, dict_get "description" task with
  | RaisesInDisplay e, _ => Some e
  | _, None => Some "'description'"
  | RaisesInWork e, Some _ => Some e
  | RaisesInPrint e, Some _ => if running then Some e else None
  | Finishes, Some _ => None
  end.

(** The result that [process_next_task] stores in a task it completes. *)
Definition success_result : pyval :=
  PDict [("message", PStr "Task completed successfully");
         ("changes", PList [PStr "Simulated changes"])].

(** A task dictionary marked in progress at time [ts], marked completed at
    time [ts], and marked failed with message [e]: the other keys are
    kept. *)
Definition started (ts : string) (task : record) : record :=
  dict_set "started_at" (PStr ts) (dict_set "status" (PStr "in_progress") task).

Definition succeeded (ts : string) (task : record) : record :=
  dict_set "result" success_result
    (dict_set "completed_at" (PStr ts)
       (dict_set "status" (PStr "completed") task)).

Definition failed_with (e : string) (task : record) : record :=
  dict_set "error" (PStr e) (dict_set "status" (PStr "failed") task).

(** The object and the world when [process_next_task] has popped a task
    and saved the state: [current] is the task as it is left, [hist] the
    history, [lg] the log and [cl] the number of readings of the clock. *)
Definition after_task (current : record) (hist : list record)
    (lg : list (level * string)) (cl : nat) (rest : list record)
    (a : VoiceIDE) : VoiceIDE * World :=
  ({| running := running a; current_task := Some current;
      task_queue := rest; history := hist |},
   {| tasks_file := Some (JsonText (array rest));
      history_file := Some (JsonText (array (last_slice 100 hist)));
      log := lg; clock := cl |}).

(** The keys that [process_next_task] writes in a task. *)
Definition written_keys : list string :=
  ["status"; "started_at"; "completed_at"; "result"; "error"].

(** The message of the exception on which [load_state] stops at a file:
    what [json.load] raises, or the [TypeError] of [len] on a value that
    has no length. *)
Definition load_error (f : option file) : option string :=
  match f with
  | Some (BadText e) => Some e
  | Some (JsonText v) =>
      match py_len v with
      | inl e => Some e
      | inr _ => None
      end
  | None => None
  end.

(** The warnings among the entries that a log gained. *)
Definition warnings (before after : list (level * string))
    : list (level * string) :=
  filter (fun l => match fst l with WARNING => true | _ => false end)
         (skipn (List.length before) after).

(** A console for examples: it prints every text and every table, and
    takes a cell that is a [str]. *)
Definition example_console : Console :=
  {| print_error := fun _ => None;
     cell_error := fun v => match v with
                            | PStr _ => None
                            | _ => Some "unable to render"
                            end;
     table_error := fun _ => None |}.

(** No description of these tasks is one that [add_row] refuses. *)
Definition cells_taken (console : Console) (tasks : list record) : Prop :=
  Forall (fun task => forall d, description_of task = Some d ->
                                cell_error console d = None) tasks.

(** A clock and a backend for an example: the first task fails, the
    others finish. *)
Definition example_now (n : nat) : string := "00:00:" ++ str_of_nat n.

Definition example_work (n : nat) : outcome :=
  if Nat.eqb n 1 then RaisesInWork "disk full" else Finishes.

(** The test of [clear_completed_tasks] on an entry of the store. *)
Definition entry_completed (kt : string * Task) : bool :=
  status_eqb (status (snd kt)) COMPLETED.

(** A task as [update_task_status] leaves it. *)
Definition updated (s : TaskStatus) (r : pyval) (e : option string)
    (t : Task) : Task :=
  {| id := id t; description := description t; status := s; result := r;
     error := e; metadata := metadata t |}.

(** The entry of the store for a task. *)
Definition entry (t : Task) : string * Task := (id t, t).

(** The event [process_command] logs for a command read at time [ts]. *)
Definition user_input_event (ts command : string) : record :=
  [("timestamp", PStr ts); ("command", PStr command); ("type", PStr "user_input")].

(** The words that the loop of [start] keeps for itself. *)
Definition reserved_words : list string :=
  ["exit"; "quit"; "help"; "?"; "status"; "what's going on"; "clear"; "cls"].

(** The number of events of a type in a history. *)
Definition count_type (ty : string) (h : list record) : nat :=
  List.length (filter (has_type ty) h).

(** The id under which a task dictionary is known. *)
Definition id_of (task : record) : option pyval := dict_get "id" task.

(** The task [process_command] builds for a command, and the object once
    the command is logged and its task queued. *)
Definition command_task (now : nat -> string) (command : string)
    (a : VoiceIDE) (w : World) : record :=
  fst (Orchestrator.create_task now command
         (set_history
            (history a ++ [user_input_event (now (clock w)) command])%list a)
         (tick w)).

Definition command_queued (now : nat -> string) (command : string)
    (a : VoiceIDE) (w : World) : VoiceIDE :=
  {| running := running a; current_task := current_task a;
     task_queue := (task_queue a ++ [command_task now command a w])%list;
     history := (history a ++ [user_input_event (now (clock w)) command])%list |}.

(** Events that one task leaves in the history: none is a "user_input",
    each is a "task_completed" or a "task_failed". *)
Definition task_events (evs : list record) : Prop :=
  count_type "user_input" evs = 0
  /\ List.length evs
     = count_type "task_completed" evs + count_type "task_failed" evs.

(** The events that one command leaves in the history: its "user_input"
    event, then the events of the tasks processed, at least one of them
    while [running] is set. *)
Definition command_block (running : bool) (command : string)
    (block : list record) : Prop :=
  exists ts evs,
    block = user_input_event ts command :: evs
    /\ task_events evs
    /\ (running = true ->
        1 <= count_type "task_completed" evs + count_type "task_failed" evs).

(** A change whose 'file' is absent, falsy or a [str]: one on which
    [apply_changes] does not raise. *)
Definition file_ok (change : dict pyval) : bool :=
  match dict_get "file" change with
  | Some (PStr _) | None => true
  | Some v => negb (py_truthy v)
  end.

(** The path that a change writes to, if it writes. *)
Definition written_path {T : Type} (relpath : string -> string -> string)
    (ide : IDE T) (change : dict pyval) : option string :=
  match dict_get "file" change, dict_get "content" change with
  | Some (PStr f), Some _ =>
      if String.eqb f "" then None else Some (relative relpath ide f)
  | _, _ => None
  end.

(** [open_file] on each path of a list, in order. *)
Definition open_all {T : Type} (paths : list string) (ide : IDE T) : IDE T :=
  fold_left (fun ide f => snd (open_file f ide)) paths ide.

(** A stand-in for [os.path.relpath] in examples: the path without the
    first [len(start) + 1] characters. *)
Definition example_relpath (path start : string) : string :=
  substring (String.length start + 1) (String.length path) path.

(** A mock IDE for examples, with the workspace at "/ws" and times that
    are numbers. *)
Definition example_ide : IDE nat :=
  {| workspace_root := "/ws"; open_files := []; current_file := None;
     current_position := (0, 0); files := []; last_modified := [] |}.

(** The answers [_get_random_response] draws from for an intent. *)
Definition responses_for (intent : string) : list string :=
  match dict_get intent mock_responses with
  | Some l => l
  | None => ["I've completed the task: " ++ intent;
             "The " ++ intent ++ " operation was successful.";
             "I've processed your request to " ++ intent ++ "."]
  end.

(** ** Facts about dictionaries *)

Section DictFacts.
Context {V : Type}.
Implicit Types (d : dict V) (k : string) (v : V).

Lemma dict_get_None d k : dict_get k d = None <-> ~ In k (keys d).
Proof.
  induction d as [|[k' v'] r IH]; simpl.
  - tauto.
  - destruct (String.eqb_spec k' k) as [->|Hne].
    + split; [discriminate | intros H; exfalso; apply H; now left].
    + rewrite IH. split; [intros H [E|E]; [congruence | auto] | tauto].
Qed.

Lemma dict_get_In d k v : dict_get k d = Some v -> In (k, v) d.
Proof.
  induction d as [|[k' v'] r IH]; simpl; [discriminate|].
  destruct (String.eqb_spec k' k) as [->|Hne].
  - intros [= ->]. now left.
  - intros H. right. auto.
Qed.

Lemma dict_get_app_r d1 d2 k :
  ~ In k (keys d1) -> dict_get k (d1 ++ d2)%list = dict_get k d2.
Proof.
  induction d1 as [|[k' v'] r IH]; simpl; [reflexivity|].
  intros H. destruct (String.eqb_spec k' k) as [->|Hne]; [tauto|].
  apply IH. tauto.
Qed.

Lemma dict_set_app_r d1 d2 k v :
  ~ In k (keys d1) -> dict_set k v (d1 ++ d2)%list = (d1 ++ dict_set k v d2)%list.
Proof.
  induction d1 as [|[k' v'] r IH]; simpl; [reflexivity|].
  intros H. destruct (String.eqb_spec k' k) as [->|Hne]; [tauto|].
  f_equal. apply IH. tauto.
Qed.

Lemma dict_get_set_eq d k v : dict_get k (dict_set k v d) = Some v.
Proof.
  induction d as [|[k' v'] r IH]; simpl.
  - now rewrite String.eqb_refl.
  - destruct (String.eqb_spec k' k) as [->|Hne]; simpl.
    + now rewrite String.eqb_refl.
    + destruct (String.eqb_spec k' k); [contradiction | exact IH].
Qed.

Lemma dict_get_set_ne d k k' v :
  k <> k' -> dict_get k' (dict_set k v d) = dict_get k' d.
Proof.
  intros Hne. induction d as [|[k0 v0] r IH]; simpl.
  - destruct (String.eqb_spec k k'); [contradiction | reflexivity].
  - destruct (String.eqb_spec k0 k) as [->|Hk]; simpl.
    + destruct (String.eqb_spec k k'); [contradiction | reflexivity].
    + destruct (String.eqb_spec k0 k'); [reflexivity | exact IH].
Qed.

Lemma keys_dict_set d k v :
  keys (dict_set k v d)
  = if dict_mem k d then keys d else (keys d ++ [k])%list.
Proof.
  unfold dict_mem. induction d as [|[k' v'] r IH]; simpl; [reflexivity|].
  destruct (String.eqb_spec k' k) as [->|Hne]; simpl; [reflexivity|].
  rewrite IH. now destruct (dict_get k r).
Qed.

Lemma length_dict_set d k v :
  List.length (dict_set k v d)
  = if dict_mem k d then List.length d else S (List.length d).
Proof.
  pose proof (keys_dict_set d k v) as H.
  apply (f_equal (@List.length string)) in H. unfold keys in H.
  rewrite length_map in H. rewrite H.
  destruct (dict_mem k d); [apply length_map|].
  rewrite length_app, length_map. simpl. lia.
Qed.

Lemma dict_get_del_ne d k k' :
  k <> k' -> dict_get k' (dict_del k d) = dict_get k' d.
Proof.
  intros Hne. induction d as [|[k0 v0] r IH]; simpl; [reflexivity|].
  destruct (String.eqb_spec k0 k) as [->|Hk]; simpl.
  - destruct (String.eqb_spec k k'); [contradiction | reflexivity].
  - destruct (String.eqb_spec k0 k'); [reflexivity | exact IH].
Qed.

Lemma keys_dict_del_incl d k k' : In k' (keys (dict_del k d)) -> In k' (keys d).
Proof.
  induction d as [|[k0 v0] r IH]; simpl; [tauto|].
  destruct (String.eqb_spec k0 k) as [->|Hk]; simpl; tauto.
Qed.

Lemma dict_get_del_eq d k : NoDup (keys d) -> dict_get k (dict_del k d) = None.
Proof.
  induction d as [|[k0 v0] r IH]; simpl; [reflexivity|].
  intros H. inversion H as [|? ? Hn Hr]; subst.
  destruct (String.eqb_spec k0 k) as [->|Hk]; simpl.
  - now apply dict_get_None.
  - destruct (String.eqb_spec k0 k); [contradiction | auto].
Qed.

Lemma NoDup_keys_dict_del d k : NoDup (keys d) -> NoDup (keys (dict_del k d)).
Proof.
  induction d as [|[k0 v0] r IH]; simpl; [auto|].
  intros H. inversion H as [|? ? Hn Hr]; subst.
  destruct (String.eqb_spec k0 k) as [->|Hk]; simpl; [assumption|].
  constructor; [|auto]. intros Hin. apply Hn. eapply keys_dict_del_incl, Hin.
Qed.

Lemma NoDup_keys_dict_set d k v : NoDup (keys d) -> NoDup (keys (dict_set k v d)).
Proof.
  intros H. rewrite keys_dict_set. unfold dict_mem.
  destruct (dict_get k d) eqn:E; [assumption|].
  apply dict_get_None in E. apply NoDup_app; repeat split; auto.
  - constructor; [simpl; tauto | constructor].
  - intros x Hx [<-|[]]. contradiction.
Qed.

Lemma Forall_dict_set (P : string * V -> Prop) d k v :
  P (k, v) -> Forall P d -> Forall P (dict_set k v d).
Proof.
  intros Hk. induction 1 as [|[k0 v0] r H0 Hr IH]; simpl.
  - now constructor.
  - destruct (String.eqb k0 k); constructor; auto.
Qed.

Lemma Forall_dict_del (P : string * V -> Prop) d k :
  Forall P d -> Forall P (dict_del k d).
Proof.
  induction 1 as [|[k0 v0] r H0 Hr IH]; simpl; [constructor|].
  destruct (String.eqb k0 k); [assumption | now constructor].
Qed.

Lemma dict_get_split d k v :
  dict_get k d = Some v ->
  exists d1 d2, d = (d1 ++ (k, v) :: d2)%list /\ ~ In k (keys d1).
Proof.
  induction d as [|[k' v'] r IH]; simpl; [discriminate|].
  destruct (String.eqb_spec k' k) as [->|Hne].
  - intros [= ->]. exists [], r. simpl. tauto.
  - intros H. destruct (IH H) as (d1 & d2 & -> & Hn).
    exists ((k', v') :: d1), d2. simpl. split; [reflexivity|]. tauto.
Qed.

End DictFacts.

(** ** The planner *)

(** *** [complete_current_task] without a current task *)

(** C10: with [current_task_id] none, [complete_current_task] returns none
    and the planner is unchanged: the same tasks with the same status,
    result and error, and the same (absent) current pointer. *)
Theorem complete_current_task_without_current (r : pyval) (p : TaskPlanner) :
  current_task_id p = None ->
  complete_current_task r p = (None, p).
Proof.
  intros H. unfold complete_current_task. now rewrite H.
Qed.

Lemma complete_current_task_without_current_witness :
  current_task_id new_planner = None
  /\ complete_current_task (PStr "done") new_planner = (None, new_planner).
Proof.
  split; [reflexivity|].
  apply (complete_current_task_without_current (PStr "done") new_planner).
  reflexivity.
Defined.

(** *** Task ids *)

Lemma template_of_nonempty command : template_of command <> [].
Proof.
  unfold template_of, login_template, api_template.
  destruct (login_rule _); [discriminate|].
  destruct (api_rule _); discriminate.
Qed.

Lemma plan_tasks_template command p :
  plan_tasks command p
  = let (ts, p1) := create_all (template_of (lower command)) p in
    (ts, {| tasks := tasks p1;
            current_task_id :=
              match ts with
              | t :: _ => Some (id t)
              | [] => current_task_id p1
              end |}).
Proof.
  unfold plan_tasks, template_of.
  destruct (login_rule _); [|destruct (api_rule _)];
    (destruct (create_all _ p) as [[|t ts] [tk cur]]; reflexivity).
Qed.

Lemma create_all_length specs p :
  List.length (fst (create_all specs p)) = List.length specs.
Proof.
  revert p. induction specs as [|[d m] r IH]; intros p; [reflexivity|].
  cbn [create_all]. destruct (Planner.create_task d (Some m) p) as [t p1].
  specialize (IH p1). destruct (create_all r p1). simpl in *. now rewrite IH.
Qed.

(** [plan_tasks] returns at least one task, whatever the command. *)
Lemma plan_tasks_nonempty command p : fst (plan_tasks command p) <> [].
Proof.
  rewrite plan_tasks_template.
  pose proof (create_all_length (template_of (lower command)) p) as L.
  pose proof (template_of_nonempty (lower command)) as N.
  destruct (create_all _ p) as [[|t ts] p1]; simpl in *; [|discriminate].
  destruct (template_of (lower command)); [congruence | discriminate].
Qed.

Lemma create_task_eq d m p :
  Planner.create_task d m p
  = let k := task_name (List.length (tasks p) + 1) in
    (new_task k d m,
     {| tasks := dict_set k (new_task k d m) (tasks p);
        current_task_id := current_task_id p |}).
Proof. reflexivity. Qed.

Lemma str_of_nat_inj n m : str_of_nat n = str_of_nat m -> n = m.
Proof.
  unfold str_of_nat. intros H.
  apply DecimalNat.Unsigned.to_uint_inj.
  apply (f_equal DecimalString.NilEmpty.uint_of_string) in H.
  rewrite !DecimalString.NilEmpty.usu in H. congruence.
Qed.

Lemma task_name_inj n m : task_name n = task_name m -> n = m.
Proof.
  unfold task_name. intros H. simpl in H. injection H as H.
  now apply str_of_nat_inj.
Qed.

Lemma NoDup_map_task_name l : NoDup l -> NoDup (map task_name l).
Proof.
  induction 1 as [|x l Hx Hl IH]; simpl; constructor; [|exact IH].
  rewrite in_map_iff. intros (y & E & Hy). apply task_name_inj in E.
  now subst y.
Qed.

Lemma task_name_nonempty n : task_name n <> "".
Proof. unfold task_name. simpl. discriminate. Qed.

Lemma task_name_not_in_seq n : ~ In (task_name (n + 1)) (map task_name (seq 1 n)).
Proof.
  rewrite in_map_iff. intros (i & E & Hi). apply task_name_inj in E.
  apply in_seq in Hi. lia.
Qed.

Lemma named_store_length n p : named_store n p -> List.length (tasks p) = n.
Proof.
  intros K. apply (f_equal (@List.length string)) in K.
  unfold keys in K. now rewrite !length_map, length_seq in K.
Qed.

Lemma create_task_named d m n p :
  named_store n p ->
  id (fst (Planner.create_task d m p)) = task_name (n + 1)
  /\ named_store (n + 1) (snd (Planner.create_task d m p)).
Proof.
  intros K. pose proof (named_store_length n p K) as L.
  rewrite create_task_eq, L. cbn [fst snd].
  split; [reflexivity|]. unfold named_store in *. cbn [tasks].
  rewrite keys_dict_set. unfold dict_mem.
  pose proof (task_name_not_in_seq n) as Hn. rewrite <- K in Hn.
  apply dict_get_None in Hn. rewrite Hn.
  rewrite K, seq_app, map_app. simpl.
  now replace (S n) with (n + 1) by lia.
Qed.

Lemma create_all_named specs n p :
  named_store n p ->
  map id (fst (create_all specs p))
  = map task_name (seq (1 + n) (List.length specs))
  /\ named_store (n + List.length specs) (snd (create_all specs p)).
Proof.
  revert n p. induction specs as [|[d m] r IH]; intros n p F.
  - simpl. rewrite Nat.add_0_r. now split.
  - cbn [create_all List.length].
    destruct (create_task_named d (Some m) n p F) as [E F1].
    destruct (Planner.create_task d (Some m) p) as [t p1]. cbn [fst snd] in E, F1.
    destruct (IH _ _ F1) as [E2 F2].
    destruct (create_all r p1) as [ts p2]. cbn [fst snd] in *.
    cbn [map seq]. rewrite E, E2.
    replace (n + 1) with (S n) in * by lia.
    replace (n + S (List.length r)) with (S n + List.length r) by lia.
    now split.
Qed.

Lemma create_task_fresh d m n p :
  fresh_store n p ->
  id (fst (Planner.create_task d m p)) = task_name (n + 1)
  /\ fresh_store (n + 1) (snd (Planner.create_task d m p)).
Proof.
  intros [K A]. destruct (create_task_named d m n p K) as [E K1].
  split; [exact E|]. split; [exact K1|].
  rewrite create_task_eq. cbn [snd tasks].
  apply Forall_dict_set; [reflexivity | exact A].
Qed.

Lemma create_all_fresh specs n p :
  fresh_store n p ->
  map id (fst (create_all specs p))
  = map task_name (seq (1 + n) (List.length specs))
  /\ fresh_store (n + List.length specs) (snd (create_all specs p)).
Proof.
  intros [K A]. destruct (create_all_named specs n p K) as [E K1].
  split; [exact E|]. split; [exact K1|].
  clear K K1 E. revert p A.
  induction specs as [|[d m] r IH]; intros p A; [exact A|].
  cbn [create_all].
  assert (A1 : Forall (fun kt => status (snd kt) = PENDING)
                 (tasks (snd (Planner.create_task d (Some m) p)))).
  { rewrite create_task_eq. cbn [snd tasks].
    apply Forall_dict_set; [reflexivity | exact A]. }
  destruct (Planner.create_task d (Some m) p) as [t p1]. cbn [snd] in A1.
  specialize (IH p1 A1). now destruct (create_all r p1).
Qed.

Lemma clear_completed_tasks_fresh n p :
  fresh_store n p -> clear_completed_tasks p = p.
Proof.
  intros [_ A]. unfold clear_completed_tasks.
  assert (E : filter (fun kt => status_eqb (status (snd kt)) COMPLETED) (tasks p)
              = []).
  { induction A as [|kt r H _ IH]; simpl; [reflexivity|]. now rewrite H. }
  now rewrite E.
Qed.

Lemma run_fresh cs n p :
  forallb creates_or_clears cs = true -> fresh_store n p ->
  exists m, map id (fst (run cs p)) = map task_name (seq (1 + n) m).
Proof.
  revert n p. induction cs as [|c r IH]; intros n p H F.
  - now exists 0.
  - cbn [run]. simpl in H. apply andb_prop in H as [Hc Hr].
    assert (S1 : exists k, map id (fst (exec c p)) = map task_name (seq (1 + n) k)
                           /\ fresh_store (n + k) (snd (exec c p))).
    { destruct c as [d m|command| | |]; try discriminate; cbn [exec].
      - destruct (create_task_fresh d m n p F) as [E F1].
        destruct (Planner.create_task d m p) as [t p1]. cbn [fst snd] in *.
        exists 1. cbn [map seq]. rewrite E.
        replace (n + 1) with (S n) in * by lia. now split.
      - rewrite plan_tasks_template.
        destruct (create_all_fresh (template_of (lower command)) n p F)
          as [E F1].
        destruct (create_all _ p) as [ts p1]. cbn [fst snd] in *.
        exists (List.length (template_of (lower command))). split; [exact E|].
        destruct F1 as [K A]. split; assumption.
      - exists 0. rewrite Nat.add_0_r. split; [reflexivity|].
        cbn [snd]. now rewrite (clear_completed_tasks_fresh n p F). }
    destruct S1 as (k & E1 & F1).
    destruct (exec c p) as [ts p1]. cbn [fst snd] in E1, F1.
    destruct (IH _ _ Hr F1) as (m & E2).
    destruct (run r p1) as [ts' p2]. cbn [fst snd] in *.
    exists (k + m). rewrite map_app, E1, E2, seq_app, map_app.
    reflexivity.
Qed.

(** As long as no task is completed, ids are not reused: the tasks created
    by a sequence of [create_task], [plan_tasks] and [clear_completed_tasks]
    calls on a new planner have pairwise different ids. *)
Lemma ids_unique_while_nothing_completes cs :
  forallb creates_or_clears cs = true ->
  NoDup (map id (fst (run cs new_planner))).
Proof.
  intros H.
  destruct (run_fresh cs 0 new_planner H) as (m & E).
  { split; [reflexivity | constructor]. }
  rewrite E. apply NoDup_map_task_name, seq_NoDup.
Qed.

(** C1: [create_task] numbers a task by the size of the store, so once
    [clear_completed_tasks] has removed a task the next id is one already
    given out: after planning one task, completing it, creating "b",
    clearing and creating "c", both "b" and "c" were created as "task_2",
    and "c" has taken the place of "b" in the store. *)
Theorem create_task_reuses_id_after_clear :
  let calls := [PlanTasks "rename the project"; CompleteCurrentTask PNone;
                CreateTask "b" None; ClearCompletedTasks;
                CreateTask "c" None] in
  let (created, p) := run calls new_planner in
  map id created = ["task_1"; "task_2"; "task_2"]
  /\ map description created
     = ["Process command: rename the project"; "b"; "c"]
  /\ map (fun kt => (fst kt, description (snd kt))) (tasks p)
     = [("task_2", "c")].
Proof.
  vm_compute. repeat split.
Qed.

(** *** Stores built through the planner's methods *)

Lemma store_ok_entry p k t :
  store_ok p -> dict_get k (tasks p) = Some t -> id t = k /\ k <> "".
Proof.
  intros [_ A] H. apply dict_get_In in H.
  rewrite Forall_forall in A. exact (A _ H).
Qed.

Lemma In_dict_get {V : Type} (d : dict V) k v :
  NoDup (keys d) -> In (k, v) d -> dict_get k d = Some v.
Proof.
  induction d as [|[k0 v0] r IH]; simpl; [tauto|].
  intros N [E|Hin].
  - injection E as -> ->. now rewrite String.eqb_refl.
  - inversion N as [|? ? Hn Hr]; subst.
    destruct (String.eqb_spec k0 k) as [->|Hne]; [|auto].
    exfalso. apply Hn. unfold keys. apply in_map_iff. now exists (k, v).
Qed.

Lemma store_ok_value p t :
  store_ok p -> In t (values (tasks p)) -> dict_get (id t) (tasks p) = Some t.
Proof.
  intros [N A] H. unfold values in H. apply in_map_iff in H as ([k t'] & E & Hin).
  simpl in E. subst t'. rewrite Forall_forall in A.
  destruct (A _ Hin) as [E _]. simpl in E. rewrite E.
  now apply In_dict_get.
Qed.

Lemma create_task_store_ok d m p :
  store_ok p -> store_ok (snd (Planner.create_task d m p)).
Proof.
  intros [N A]. rewrite create_task_eq. cbn [snd]. split; cbn [tasks].
  - now apply NoDup_keys_dict_set.
  - apply Forall_dict_set; [|exact A]. split; [reflexivity|].
    apply task_name_nonempty.
Qed.

Lemma create_task_get_other d m p k :
  k <> id (fst (Planner.create_task d m p)) ->
  dict_get k (tasks (snd (Planner.create_task d m p))) = dict_get k (tasks p).
Proof.
  rewrite create_task_eq. cbn [fst snd tasks id new_task]. intros H.
  apply dict_get_set_ne. congruence.
Qed.

Lemma create_task_get_new d m p :
  let (t, p') := Planner.create_task d m p in
  dict_get (id t) (tasks p') = Some t /\ status t = PENDING
  /\ result t = PNone /\ error t = None.
Proof.
  rewrite create_task_eq. cbn [tasks id new_task].
  rewrite dict_get_set_eq. repeat split.
Qed.

Lemma create_task_current d m p :
  current_task_id (snd (Planner.create_task d m p)) = current_task_id p.
Proof. reflexivity. Qed.

Lemma update_task_status_eq k s r e p :
  update_task_status k s r e p
  = match dict_get k (tasks p) with
    | None => (false, p)
    | Some t =>
        (true,
         {| tasks := dict_set k (mkTask (id t) (description t) s r e (metadata t))
                              (tasks p);
            current_task_id := current_task_id p |})
    end.
Proof. reflexivity. Qed.

Lemma update_task_status_store_ok k s r e p :
  store_ok p -> store_ok (snd (update_task_status k s r e p)).
Proof.
  intros H. rewrite update_task_status_eq.
  destruct (dict_get k (tasks p)) as [t|] eqn:G; [|exact H].
  destruct (store_ok_entry p k t H G) as [E K]. destruct H as [N A].
  split; cbn [snd tasks].
  - now apply NoDup_keys_dict_set.
  - apply Forall_dict_set; [|exact A]. now split.
Qed.

Lemma update_task_status_get_other k s r e p k' :
  k <> k' ->
  dict_get k' (tasks (snd (update_task_status k s r e p))) = dict_get k' (tasks p).
Proof.
  intros H. rewrite update_task_status_eq.
  destruct (dict_get k (tasks p)); [|reflexivity].
  cbn [snd tasks]. now apply dict_get_set_ne.
Qed.

Lemma update_task_status_current k s r e p :
  current_task_id (snd (update_task_status k s r e p)) = current_task_id p.
Proof.
  rewrite update_task_status_eq. now destruct (dict_get k (tasks p)).
Qed.

Lemma update_task_status_mem k s r e p k' :
  dict_mem k' (tasks (snd (update_task_status k s r e p)))
  = dict_mem k' (tasks p).
Proof.
  unfold dict_mem. destruct (String.eqb_spec k k') as [->|Hne].
  - rewrite update_task_status_eq.
    destruct (dict_get k' (tasks p)) eqn:G; cbn [snd tasks].
    + now rewrite dict_get_set_eq.
    + now rewrite G.
  - now rewrite update_task_status_get_other.
Qed.

(** *** [complete_current_task] with a current task *)

Lemma status_eqb_eq a b : status_eqb a b = true <-> a = b.
Proof. destruct a, b; simpl; split; congruence. Qed.

Lemma pending_false t : pending t = false <-> status t <> PENDING.
Proof.
  unfold pending. rewrite <- status_eqb_eq.
  destruct (status_eqb (status t) PENDING); split; congruence.
Qed.

Lemma find_current_idx_app cid l t r i :
  Forall (fun x => id x <> cid) l -> id t = cid ->
  find_current_idx cid (l ++ t :: r)%list i = (i + Z.of_nat (List.length l))%Z.
Proof.
  intros A E. revert i. induction A as [|x l Hx _ IH]; intros i; simpl.
  - rewrite E, String.eqb_refl. lia.
  - destruct (String.eqb_spec (id x) cid); [contradiction|].
    rewrite IH. lia.
Qed.

Lemma skipn_past {A : Type} (l : list A) x r :
  skipn (Z.to_nat (0 + Z.of_nat (List.length l) + 1)) (l ++ x :: r)%list = r.
Proof.
  replace (Z.to_nat (0 + Z.of_nat (List.length l) + 1))
    with (List.length l + 1) by lia.
  rewrite skipn_app, skipn_all2 by lia.
  replace (List.length l + 1 - List.length l) with 1 by lia. reflexivity.
Qed.

Lemma falsy_nonempty cid : cid <> "" -> falsy (Some cid) = false.
Proof. destruct cid; [congruence | reflexivity]. Qed.

Lemma complete_current_task_eq r p cid l1 t l2 :
  store_ok p -> current_task_id p = Some cid ->
  tasks p = (l1 ++ (cid, t) :: l2)%list ->
  complete_current_task r p
  = (find pending (values l2),
     {| tasks := (l1 ++ (cid, completed r t) :: l2)%list;
        current_task_id := option_map id (find pending (values l2)) |}).
Proof.
  intros [N A] C T. rewrite T in N, A.
  unfold keys in N. rewrite map_app in N. simpl in N.
  pose proof (NoDup_remove_2 _ _ _ N) as Hn.
  assert (Hn1 : ~ In cid (keys l1)).
  { intros H. apply Hn. apply in_or_app. now left. }
  apply Forall_app in A as [A1 A2]. inversion A2 as [|? ? [Et Ek] _]; subst.
  simpl in Et, Ek.
  assert (I1 : Forall (fun x => id x <> cid) (values l1)).
  { unfold values. rewrite Forall_map. rewrite Forall_forall in *.
    intros [k x] Hin. destruct (A1 _ Hin) as [E _]. simpl in *.
    intros Hc. apply Hn1. unfold keys. apply in_map_iff.
    exists (k, x). simpl. split; [congruence | assumption]. }
  unfold complete_current_task. rewrite C, (falsy_nonempty cid Ek).
  rewrite update_task_status_eq, T, (dict_get_app_r l1 _ cid Hn1).
  simpl dict_get. rewrite String.eqb_refl.
  rewrite (dict_set_app_r l1 _ cid _ Hn1). simpl dict_set.
  rewrite String.eqb_refl. cbn [tasks].
  fold (completed r t). fold pending.
  assert (V : values (l1 ++ (cid, completed r t) :: l2)%list
              = (values l1 ++ completed r t :: values l2)%list).
  { unfold values. now rewrite map_app. }
  rewrite V.
  rewrite (find_current_idx_app cid (values l1) (completed r t) (values l2)
             0%Z I1 Et).
  now rewrite skipn_past.
Qed.

Lemma find_first {A : Type} (f : A -> bool) l :
  match find f l with
  | Some x => exists before after,
                l = (before ++ x :: after)%list /\ f x = true
                /\ Forall (fun y => f y = false) before
  | None => Forall (fun y => f y = false) l
  end.
Proof.
  induction l as [|a l IH]; simpl; [constructor|].
  destruct (f a) eqn:E.
  - exists [], l. repeat split; [assumption | constructor].
  - destruct (find f l) as [x|].
    + destruct IH as (b & c & -> & Hx & Hb).
      exists (a :: b), c. repeat split; [assumption | now constructor].
    + now constructor.
Qed.

(** With a current task, [complete_current_task r] replaces it, in place,
    by the same task Completed with result [r] (and no error); the task it
    returns is the first Pending one among the tasks stored after the
    completed one, every task in between being not Pending; with no Pending
    task after it the call returns none. The current pointer is the id of
    the returned task, or none. The order is that of the store. *)
Lemma complete_current_task_in_store_order r p cid l1 t l2 :
  store_ok p -> current_task_id p = Some cid ->
  tasks p = (l1 ++ (cid, t) :: l2)%list ->
  exists next,
    complete_current_task r p
    = (next, {| tasks := (l1 ++ (cid, completed r t) :: l2)%list;
                current_task_id := option_map id next |})
    /\ match next with
       | Some nt =>
           exists skipped later,
             values l2 = (skipped ++ nt :: later)%list
             /\ status nt = PENDING
             /\ Forall (fun x => status x <> PENDING) skipped
       | None => Forall (fun x => status x <> PENDING) (values l2)
       end.
Proof.
  intros S C T. exists (find pending (values l2)).
  split; [now apply complete_current_task_eq|].
  pose proof (find_first pending (values l2)) as F.
  destruct (find pending (values l2)) as [nt|].
  - destruct F as (b & c & E & Hp & Hb). exists b, c.
    split; [exact E|]. split; [now apply status_eqb_eq|].
    eapply Forall_impl; [|exact Hb]. intros x. apply pending_false.
  - eapply Forall_impl; [|exact F]. intros x. apply pending_false.
Qed.

(** *** What each call keeps *)

Lemma create_all_store_ok specs p :
  store_ok p -> store_ok (snd (create_all specs p)).
Proof.
  revert p. induction specs as [|[d m] r IH]; intros p H; [exact H|].
  cbn [create_all]. pose proof (create_task_store_ok d (Some m) p H) as H1.
  destruct (Planner.create_task d (Some m) p) as [t p1]. cbn [snd] in H1.
  specialize (IH p1 H1). now destruct (create_all r p1).
Qed.

Lemma create_all_current specs p :
  current_task_id (snd (create_all specs p)) = current_task_id p.
Proof.
  revert p. induction specs as [|[d m] r IH]; intros p; [reflexivity|].
  cbn [create_all]. pose proof (create_task_current d (Some m) p) as H1.
  destruct (Planner.create_task d (Some m) p) as [t p1]. cbn [snd] in H1.
  specialize (IH p1). destruct (create_all r p1). cbn [snd] in *. congruence.
Qed.

Lemma create_all_get_other specs p k :
  ~ In k (map id (fst (create_all specs p))) ->
  dict_get k (tasks (snd (create_all specs p))) = dict_get k (tasks p).
Proof.
  revert p. induction specs as [|[d m] r IH]; intros p; [reflexivity|].
  cbn [create_all]. pose proof (create_task_get_other d (Some m) p k) as H1.
  destruct (Planner.create_task d (Some m) p) as [t p1]. cbn [fst snd] in H1.
  specialize (IH p1). destruct (create_all r p1) as [ts p2].
  cbn [fst snd map] in *. intros Hn. rewrite IH, H1; auto.
  - intros E. apply Hn. left. congruence.
  - intros Hin. apply Hn. now right.
Qed.

Lemma create_task_pending_at d m p k :
  pending_at k p -> pending_at k (snd (Planner.create_task d m p)).
Proof.
  intros (t & G & St).
  destruct (String.eqb_spec k (id (fst (Planner.create_task d m p)))) as [E|Hne].
  - pose proof (create_task_get_new d m p) as H.
    destruct (Planner.create_task d m p) as [t1 p1]. cbn [fst snd] in *.
    subst k. exists t1. tauto.
  - exists t. now rewrite create_task_get_other.
Qed.

Lemma create_all_pending_at specs p k :
  pending_at k p -> pending_at k (snd (create_all specs p)).
Proof.
  revert p. induction specs as [|[d m] r IH]; intros p H; [exact H|].
  cbn [create_all]. pose proof (create_task_pending_at d (Some m) p k H) as H1.
  destruct (Planner.create_task d (Some m) p) as [t p1]. cbn [snd] in H1.
  specialize (IH p1 H1). now destruct (create_all r p1).
Qed.

Lemma create_all_first_pending specs p t ts p' :
  create_all specs p = (t :: ts, p') -> pending_at (id t) p'.
Proof.
  destruct specs as [|[d m] r]; [discriminate|]. cbn [create_all].
  pose proof (create_task_get_new d (Some m) p) as H1.
  destruct (Planner.create_task d (Some m) p) as [t1 p1].
  pose proof (create_all_pending_at r p1 (id t1)) as H2.
  destruct (create_all r p1) as [ts2 p2]. cbn [snd] in H2.
  intros [= <- <- <-]. apply H2. exists t1. tauto.
Qed.

Lemma create_all_Forall (P : string * Task -> Prop) specs p :
  (forall k d m, P (k, new_task k d m)) ->
  Forall P (tasks p) -> Forall P (tasks (snd (create_all specs p))).
Proof.
  intros HP. revert p. induction specs as [|[d m] r IH]; intros p H; [exact H|].
  cbn [create_all].
  assert (H1 : Forall P (tasks (snd (Planner.create_task d (Some m) p)))).
  { rewrite create_task_eq. cbn [snd tasks]. now apply Forall_dict_set. }
  destruct (Planner.create_task d (Some m) p) as [t p1]. cbn [snd] in H1.
  specialize (IH p1 H1). now destruct (create_all r p1).
Qed.

Lemma pending_at_defined k p :
  pending_at k p -> exists t, dict_get k (tasks p) = Some t.
Proof. intros (t & G & _). now exists t. Qed.

Section Clear.
Variable ids : list string.

Lemma clear_get_other p k :
  ~ In k ids ->
  dict_get k (tasks (fold_left clear_one ids p)) = dict_get k (tasks p).
Proof.
  revert p. induction ids as [|i r IH]; intros p Hn; [reflexivity|].
  cbn [fold_left]. rewrite IH by (simpl in Hn; tauto).
  cbn [clear_one tasks]. apply dict_get_del_ne. simpl in Hn. intros E. tauto.
Qed.

Lemma clear_NoDup p :
  NoDup (keys (tasks p)) -> NoDup (keys (tasks (fold_left clear_one ids p))).
Proof.
  revert p. induction ids as [|i r IH]; intros p N; [exact N|].
  cbn [fold_left]. apply IH. cbn [clear_one tasks].
  now apply NoDup_keys_dict_del.
Qed.

Lemma clear_get_incl p k t :
  NoDup (keys (tasks p)) ->
  dict_get k (tasks (fold_left clear_one ids p)) = Some t ->
  dict_get k (tasks p) = Some t /\ ~ In k ids.
Proof.
  revert p. induction ids as [|i r IH]; intros p N G; [simpl; tauto|].
  cbn [fold_left] in G. apply IH in G as [G Hn].
  2:{ cbn [clear_one tasks]. now apply NoDup_keys_dict_del. }
  cbn [clear_one tasks] in G.
  destruct (String.eqb_spec i k) as [->|Hne].
  - rewrite dict_get_del_eq in G by assumption. discriminate.
  - rewrite dict_get_del_ne in G by assumption. split; [assumption|].
    simpl. tauto.
Qed.

Lemma clear_Forall (P : string * Task -> Prop) p :
  Forall P (tasks p) -> Forall P (tasks (fold_left clear_one ids p)).
Proof.
  revert p. induction ids as [|i r IH]; intros p H; [exact H|].
  cbn [fold_left]. apply IH. cbn [clear_one tasks]. now apply Forall_dict_del.
Qed.

Lemma clear_current p cid :
  current_task_id (fold_left clear_one ids p) = Some cid ->
  current_task_id p = Some cid /\ ~ In cid ids.
Proof.
  revert p. induction ids as [|i r IH]; intros p H; [simpl; tauto|].
  cbn [fold_left] in H. apply IH in H as [H Hn].
  cbn [clear_one current_task_id] in H.
  destruct (current_task_id p) as [c|]; [|discriminate].
  destruct (String.eqb_spec c i) as [E|Hne]; [discriminate|].
  injection H as H. subst c. split; [reflexivity|].
  simpl. intros [E|E]; [congruence | contradiction].
Qed.

End Clear.

Lemma clear_completed_tasks_store_ok p :
  store_ok p -> store_ok (clear_completed_tasks p).
Proof.
  intros [N A]. split; [now apply clear_NoDup | now apply clear_Forall].
Qed.

Lemma dict_get_mid_eq {V : Type} (l1 l2 : dict V) k x :
  ~ In k (keys l1) -> dict_get k (l1 ++ (k, x) :: l2)%list = Some x.
Proof.
  intros H. rewrite dict_get_app_r by assumption. simpl.
  now rewrite String.eqb_refl.
Qed.

Lemma dict_get_mid_ne {V : Type} (l1 l2 : dict V) k k' x y :
  k <> k' ->
  dict_get k' (l1 ++ (k, x) :: l2)%list = dict_get k' (l1 ++ (k, y) :: l2)%list.
Proof.
  intros H. induction l1 as [|[k0 v0] r IH]; simpl.
  - destruct (String.eqb_spec k k'); [contradiction | reflexivity].
  - now rewrite IH.
Qed.

Lemma complete_current_task_cases r p :
  store_ok p -> current_ok p ->
  complete_current_task r p = (None, p) /\ current_task_id p = None
  \/ exists cid l1 t l2,
       current_task_id p = Some cid
       /\ tasks p = (l1 ++ (cid, t) :: l2)%list
       /\ ~ In cid (keys l1)
       /\ complete_current_task r p
          = (find pending (values l2),
             {| tasks := (l1 ++ (cid, completed r t) :: l2)%list;
                current_task_id := option_map id (find pending (values l2)) |}).
Proof.
  intros S C. destruct (current_task_id p) as [cid|] eqn:E.
  - right. destruct (C cid E) as [t G].
    destruct (dict_get_split _ _ _ G) as (l1 & l2 & T & Hn).
    exists cid, l1, t, l2. repeat split; [assumption | assumption|].
    now apply complete_current_task_eq.
  - left. split; [|reflexivity]. unfold complete_current_task. now rewrite E.
Qed.

Lemma store_ok_completed l1 l2 cid t r cur cur' :
  store_ok {| tasks := (l1 ++ (cid, t) :: l2)%list; current_task_id := cur |} ->
  store_ok {| tasks := (l1 ++ (cid, completed r t) :: l2)%list;
              current_task_id := cur' |}.
Proof.
  intros [N A]. cbn [tasks] in *. split; cbn [tasks].
  - unfold keys in *. now rewrite map_app in *.
  - apply Forall_app in A as [A1 A2]. apply Forall_app. split; [exact A1|].
    inversion A2; subst. now constructor.
Qed.

Lemma find_pending_stored l1 l2 cid x cur nt :
  store_ok {| tasks := (l1 ++ (cid, x) :: l2)%list; current_task_id := cur |} ->
  find pending (values l2) = Some nt ->
  dict_get (id nt) (l1 ++ (cid, x) :: l2)%list = Some nt /\ status nt = PENDING.
Proof.
  intros S F. apply find_some in F as [Hin Hp]. split.
  - apply (store_ok_value _ nt S). cbn [tasks]. unfold values in *.
    rewrite map_app. apply in_or_app. right. now right.
  - now apply status_eqb_eq.
Qed.

Lemma complete_current_task_store_ok r p :
  store_ok p -> current_ok p ->
  store_ok (snd (complete_current_task r p))
  /\ current_ok (snd (complete_current_task r p)).
Proof.
  intros S C.
  destruct (complete_current_task_cases r p S C)
    as [[E _]|(cid & l1 & t & l2 & Cu & T & Hn & E)]; rewrite E; cbn [snd].
  - now split.
  - destruct p as [tk cur]. cbn [tasks current_task_id] in *. subst tk.
    pose proof (store_ok_completed _ _ _ _ r _
                  (option_map id (find pending (values l2))) S) as S'.
    split; [exact S'|]. intros c. cbn [current_task_id tasks].
    destruct (find pending (values l2)) as [nt|] eqn:F; [|discriminate].
    intros [= <-]. exists nt.
    now destruct (find_pending_stored _ _ _ _ _ _ S' F).
Qed.

Lemma plan_tasks_store_ok command p :
  store_ok p ->
  store_ok (snd (plan_tasks command p))
  /\ current_ok (snd (plan_tasks command p))
  /\ forall cid, current_task_id (snd (plan_tasks command p)) = Some cid ->
                 pending_at cid (snd (plan_tasks command p)).
Proof.
  intros S. rewrite plan_tasks_template.
  pose proof (create_all_store_ok (template_of (lower command)) p S) as S1.
  pose proof (create_all_length (template_of (lower command)) p) as L.
  pose proof (template_of_nonempty (lower command)) as N.
  destruct (create_all _ p) as [[|t ts] p1] eqn:E; cbn [fst snd] in *.
  { destruct (template_of (lower command)); [congruence | discriminate]. }
  pose proof (create_all_first_pending _ _ _ _ _ E) as P.
  assert (Q : forall cid, Some (id t) = Some cid ->
                pending_at cid {| tasks := tasks p1;
                                  current_task_id := Some (id t) |}).
  { intros cid [= <-]. exact P. }
  split; [exact S1|]. split; [|exact Q].
  intros cid H. cbn [current_task_id] in H.
  apply pending_at_defined. now apply Q.
Qed.

(** Every call keeps a store well formed and its current pointer on a
    stored task. *)
Lemma exec_store_ok c p :
  store_ok p -> current_ok p ->
  store_ok (snd (exec c p)) /\ current_ok (snd (exec c p)).
Proof.
  intros S C. destruct c as [d m|command|k s r e|r|]; cbn [exec fst snd].
  - pose proof (create_task_store_ok d m p S) as S1.
    pose proof (create_task_pending_at d m p) as P.
    pose proof (create_task_get_new d m p) as G.
    pose proof (create_task_get_other d m p) as O.
    pose proof (create_task_current d m p) as Cu.
    destruct (Planner.create_task d m p) as [t p1]. cbn [fst snd] in *.
    split; [exact S1|]. intros cid H. rewrite Cu in H.
    destruct (String.eqb_spec cid (id t)) as [->|Hne].
    + exists t. tauto.
    + rewrite O by assumption. now apply C.
  - destruct (plan_tasks_store_ok command p S) as (S1 & C1 & _). now split.
  - split; [now apply update_task_status_store_ok|].
    intros cid H. rewrite update_task_status_current in H.
    destruct (C cid H) as [t G].
    pose proof (update_task_status_mem k s r e p cid) as M.
    unfold dict_mem in M. rewrite G in M.
    destruct (dict_get cid (tasks (snd (update_task_status k s r e p))))
      as [t'|]; [now exists t' | discriminate].
  - now apply complete_current_task_store_ok.
  - split; [now apply clear_completed_tasks_store_ok|].
    intros cid H. unfold clear_completed_tasks in *.
    apply clear_current in H as [H Hn]. rewrite clear_get_other by assumption.
    now apply C.
Qed.

Lemma run_snd_app cs c p :
  snd (run (cs ++ [c]) p) = snd (exec c (snd (run cs p))).
Proof.
  revert p. induction cs as [|c0 r IH]; intros p.
  - simpl. now destruct (exec c p).
  - change ((c0 :: r) ++ [c])%list with (c0 :: (r ++ [c]))%list. cbn [run].
    destruct (exec c0 p) as [ts p1]. specialize (IH p1).
    destruct (run (r ++ [c]) p1), (run r p1). cbn [snd] in *. exact IH.
Qed.

(** Whatever the calls, the store of a planner is well formed and its
    current pointer, when set, names a stored task. *)
Lemma run_store_ok cs :
  store_ok (snd (run cs new_planner)) /\ current_ok (snd (run cs new_planner)).
Proof.
  induction cs as [|c cs IH] using rev_ind.
  - split; [split; constructor | intros cid; discriminate].
  - rewrite run_snd_app. destruct IH. now apply exec_store_ok.
Qed.

(** *** Status, result and error *)

Lemma planned_current_ok p : planned p -> current_ok p.
Proof.
  intros (_ & _ & C) cid H. apply pending_at_defined. now apply C.
Qed.

Lemma clean_new_task k d m : clean (new_task k d m).
Proof. split; [reflexivity|]. left. now split. Qed.

Lemma exec_planned c p :
  no_update c = true -> planned p -> planned (snd (exec c p)).
Proof.
  intros U P. pose proof (planned_current_ok p P) as C.
  destruct P as (S & A & Cu).
  destruct (exec_store_ok c p S C) as [S' _]. split; [exact S'|]. clear S'.
  destruct c as [d m|command|k s r e|r|]; try discriminate; cbn [exec fst snd].
  - pose proof (create_task_pending_at d m p) as Pa.
    pose proof (create_task_current d m p) as E.
    assert (A1 : Forall (fun kt => clean (snd kt))
                   (tasks (snd (Planner.create_task d m p)))).
    { rewrite create_task_eq. cbn [snd tasks].
      apply Forall_dict_set; [apply clean_new_task | exact A]. }
    destruct (Planner.create_task d m p) as [t p1]. cbn [snd] in *.
    split; [exact A1|]. intros cid H. rewrite E in H. auto.
  - destruct (plan_tasks_store_ok command p S) as (_ & _ & Q).
    split; [|exact Q]. rewrite plan_tasks_template.
    pose proof (create_all_Forall (fun kt => clean (snd kt))
                  (template_of (lower command)) p
                  (fun k d m => clean_new_task k d m) A) as A1.
    now destruct (create_all _ p).
  - destruct (complete_current_task_cases r p S C)
      as [[E _]|(cid & l1 & t & l2 & Ec & T & Hn & E)]; rewrite E; cbn [snd].
    + now split.
    + destruct p as [tk cur]. cbn [tasks current_task_id] in *. subst tk.
      pose proof (store_ok_completed _ _ _ _ r _
                    (option_map id (find pending (values l2))) S) as S'.
      split.
      * apply Forall_app in A as [A1 A2]. apply Forall_app. split; [exact A1|].
        inversion A2; subst. constructor; [|assumption].
        split; [reflexivity | now right].
      * intros c. cbn [current_task_id].
        destruct (find pending (values l2)) as [nt|] eqn:F; [|discriminate].
        intros [= <-]. exists nt. cbn [tasks].
        exact (find_pending_stored _ _ _ _ _ _ S' F).
  - unfold clear_completed_tasks. split; [now apply clear_Forall|].
    intros cid H. apply clear_current in H as [H Hn].
    destruct (Cu cid H) as (t & G & St). exists t.
    now rewrite clear_get_other.
Qed.

Lemma forallb_snoc {A : Type} (f : A -> bool) l x :
  forallb f (l ++ [x]) = true -> forallb f l = true /\ f x = true.
Proof.
  rewrite forallb_app. simpl. rewrite andb_true_r. apply andb_prop.
Qed.

Lemma run_planned cs :
  forallb no_update cs = true -> planned (snd (run cs new_planner)).
Proof.
  induction cs as [|c cs IH] using rev_ind; intros H.
  - split; [split; constructor|]. split; [constructor | intros cid; discriminate].
  - apply forallb_snoc in H as [H Hc]. rewrite run_snd_app.
    apply exec_planned; auto.
Qed.

Lemma update_task_status_Forall (P : string * Task -> Prop) k s r e p :
  (forall t, P (k, t) -> P (k, updated s r e t)) ->
  Forall P (tasks p) -> Forall P (tasks (snd (update_task_status k s r e p))).
Proof.
  intros HP A. rewrite update_task_status_eq.
  destruct (dict_get k (tasks p)) as [t|] eqn:G; [|exact A].
  cbn [snd tasks]. apply Forall_dict_set; [|exact A].
  apply (HP t). rewrite Forall_forall in A. apply A. now apply dict_get_In.
Qed.

Lemma complete_current_task_Forall (P : string * Task -> Prop) r p :
  (forall k t, P (k, t) -> P (k, updated COMPLETED r None t)) ->
  Forall P (tasks p) -> Forall P (tasks (snd (complete_current_task r p))).
Proof.
  intros HP A. unfold complete_current_task.
  destruct (current_task_id p) as [cid|]; [|exact A].
  destruct (falsy (Some cid)); [exact A|].
  pose proof (update_task_status_Forall P cid COMPLETED r None p (HP cid) A) as A1.
  now destruct (update_task_status cid COMPLETED r None p).
Qed.

Lemma forward_status_one_directional s s' :
  forward_status s s' = true <-> one_directional s s'.
Proof.
  unfold one_directional.
  destruct s, s'; simpl; split; intros H; try reflexivity;
    try discriminate; try (split; [congruence | intros [E|E]; congruence]);
    destruct H as [H1 H2]; exfalso;
    try (apply H1; [discriminate | reflexivity]);
    try (specialize (H2 (or_introl eq_refl)); discriminate);
    try (specialize (H2 (or_intror eq_refl)); discriminate).
Qed.

(** One call on a well-formed store: the status of a task that stays
    stored under an id the call did not hand out. *)
Lemma exec_status_after c p k t t' :
  store_ok p -> current_ok p ->
  get_task k p = Some t -> get_task k (snd (exec c p)) = Some t' ->
  ~ In k (map id (fst (exec c p))) ->
  status t' = status_after c p k (status t).
Proof.
  unfold get_task. intros S C G G' Hn.
  destruct c as [d m|command|k0 s r e|r|]; cbn [exec fst snd status_after] in *.
  - pose proof (create_task_get_other d m p k) as O.
    destruct (Planner.create_task d m p) as [t1 p1]. cbn [fst snd map] in *.
    rewrite O in G' by (intros E; apply Hn; now left). congruence.
  - rewrite plan_tasks_template in G', Hn.
    pose proof (create_all_get_other (template_of (lower command)) p k) as O.
    destruct (create_all _ p) as [ts p1]. cbn [fst snd tasks] in *.
    rewrite O in G' by assumption. congruence.
  - destruct (String.eqb_spec k0 k) as [E|Hne].
    + subst k0. rewrite update_task_status_eq, G in G'. cbn [snd tasks] in G'.
      rewrite dict_get_set_eq in G'. now injection G' as <-.
    + rewrite update_task_status_get_other in G' by assumption. congruence.
  - destruct (complete_current_task_cases r p S C)
      as [[E N]|(cid & l1 & t0 & l2 & Ec & T & Hl & E)];
      rewrite E in G'; cbn [snd tasks] in G'.
    + rewrite N. congruence.
    + rewrite Ec. destruct (String.eqb_spec cid k) as [E1|Hne].
      * subst cid. rewrite dict_get_mid_eq in G' by assumption.
        now injection G' as <-.
      * rewrite (dict_get_mid_ne l1 l2 cid k _ t0 Hne), <- T in G'.
        congruence.
  - unfold clear_completed_tasks in G'. destruct S as [N _].
    apply clear_get_incl in G' as [G' _]; [congruence | assumption].
Qed.

Lemma get_current_task_stored p k t :
  store_ok p -> current_task_id p = Some k -> get_task k p = Some t ->
  get_current_task p = Some t.
Proof.
  intros S C G. unfold get_current_task. rewrite C.
  destruct (store_ok_entry p k t S G) as [_ NE].
  now rewrite (falsy_nonempty k NE).
Qed.

(** C3 as stated fails: [update_task_status] sets the status it is given,
    and a Completed task is Pending again after
    [update_task_status("task_1", PENDING)]. *)
Lemma update_task_status_reopens_completed :
  let p := snd (run [CreateTask "a" None;
                     UpdateTaskStatus "task_1" COMPLETED (PStr "ok") None]
                    new_planner) in
  let p' := snd (exec (UpdateTaskStatus "task_1" PENDING PNone None) p) in
  exists t t',
    get_task "task_1" p = Some t /\ get_task "task_1" p' = Some t'
    /\ status t = COMPLETED /\ status t' = PENDING
    /\ ~ one_directional (status t) (status t').
Proof.
  do 2 eexists. split; [reflexivity|]. split; [reflexivity|].
  split; [reflexivity|]. split; [reflexivity|].
  simpl. intros [H _]. apply H; [discriminate | reflexivity].
Qed.

(** [complete_current_task] does not look at the status of the current
    task either: a current task that [update_task_status] marked Failed
    is Completed after it. *)
Lemma complete_current_task_completes_failed :
  let p := snd (run [PlanTasks "rename the project";
                     UpdateTaskStatus "task_1" FAILED PNone (Some "boom")]
                    new_planner) in
  let p' := snd (exec (CompleteCurrentTask (PStr "ok")) p) in
  exists t t',
    get_task "task_1" p = Some t /\ get_task "task_1" p' = Some t'
    /\ status t = FAILED /\ error t = Some "boom"
    /\ status t' = COMPLETED /\ error t' = None
    /\ ~ one_directional (status t) (status t').
Proof.
  do 2 eexists. split; [reflexivity|]. split; [reflexivity|].
  do 4 (split; [reflexivity|]).
  simpl. intros [_ H]. specialize (H (or_intror eq_refl)). discriminate.
Qed.

(** C3, amended: the planner checks no transition. Whatever calls were
    made before, a call leaves to every task that stays stored under an id
    the call did not hand out the status it had, with two exceptions:
    [update_task_status] gives the task it names the status it is passed,
    and [complete_current_task] makes the current task Completed, each
    whatever the status was. So the move is one-directional (no return to
    Pending, Completed and Failed final) when the call is a forward one,
    that is unless [update_task_status] is passed a status that is not a
    forward move for the task it names or [complete_current_task] is
    called on a Failed current task; and a call that is not forward does
    move a stored task against the direction. *)
Theorem status_one_directional_when_forward cs c k t t' :
  let p := snd (run cs new_planner) in
  get_task k p = Some t -> get_task k (snd (exec c p)) = Some t' ->
  ~ In k (map id (fst (exec c p))) ->
  status t' = status_after c p k (status t)
  /\ (forward c p = true -> one_directional (status t) (status t'))
  /\ (forward c p = false ->
      exists k0 t0 t0',
        get_task k0 p = Some t0 /\ get_task k0 (snd (exec c p)) = Some t0'
        /\ ~ one_directional (status t0) (status t0')).
Proof.
  cbv zeta. destruct (run_store_ok cs) as [S C].
  set (p := snd (run cs new_planner)) in *. intros G G' Hn.
  pose proof (exec_status_after c p k t t' S C G G' Hn) as E.
  split; [exact E|]. split.
  - intros F. rewrite E. apply forward_status_one_directional.
    destruct c as [d m|command|k0 s r e|r|];
      cbn [status_after forward] in *;
      try (now destruct (status t)).
    + destruct (String.eqb_spec k0 k) as [E1|Hne];
        [|now destruct (status t)].
      subst k0. now rewrite G in F.
    + destruct (current_task_id p) as [cid|] eqn:Ec; [|now destruct (status t)].
      destruct (String.eqb_spec cid k) as [E1|Hne];
        [|now destruct (status t)].
      subst cid. now rewrite (get_current_task_stored p k t S Ec G) in F.
  - intros F.
    destruct c as [d m|command|k0 s r e|r|]; cbn [forward] in F;
      try discriminate.
    + destruct (get_task k0 p) as [t0|] eqn:G0; [|discriminate].
      exists k0, t0, (updated s r e t0). split; [exact G0|]. split.
      * unfold get_task in *. cbn [exec snd].
        rewrite update_task_status_eq, G0. cbn [snd tasks].
        apply dict_get_set_eq.
      * cbn [updated status]. rewrite <- forward_status_one_directional.
        congruence.
    + destruct (get_current_task p) as [t0|] eqn:G0; [|discriminate].
      unfold get_current_task in G0.
      destruct (current_task_id p) as [cid|] eqn:Ec; [|discriminate].
      destruct (falsy (Some cid)); [discriminate|].
      destruct (complete_current_task_cases r p S C)
        as [[_ N]|(cid' & l1 & t1 & l2 & Ec' & T & Hl & E')]; [congruence|].
      assert (X : cid' = cid) by congruence. subst cid'.
      exists cid, t0, (completed r t1). split; [exact G0|]. split.
      * unfold get_task. cbn [exec snd]. rewrite E'. cbn [snd tasks].
        now apply dict_get_mid_eq.
      * cbn [completed status]. rewrite <- forward_status_one_directional.
        congruence.
Qed.

Lemma status_one_directional_when_forward_witness :
  let cs := [PlanTasks "Fix the layout issue on the login page";
             UpdateTaskStatus "task_1" IN_PROGRESS PNone None] in
  let c := CompleteCurrentTask (PStr "Task completed successfully") in
  exists t t',
    get_task "task_1" (snd (run cs new_planner)) = Some t
    /\ get_task "task_1" (snd (exec c (snd (run cs new_planner)))) = Some t'
    /\ status t = IN_PROGRESS /\ status t' = COMPLETED
    /\ forward c (snd (run cs new_planner)) = true
    /\ one_directional (status t) (status t').
Proof.
  cbv zeta. do 2 eexists. split; [reflexivity|]. split; [reflexivity|].
  split; [reflexivity|]. split; [reflexivity|]. split; [reflexivity|].
  refine (proj1 (proj2 (status_one_directional_when_forward
                   [PlanTasks "Fix the layout issue on the login page";
                    UpdateTaskStatus "task_1" IN_PROGRESS PNone None]
                   (CompleteCurrentTask (PStr "Task completed successfully"))
                   "task_1" _ _ eq_refl eq_refl _)) eq_refl).
  simpl. tauto.
Defined.

(** C8 as stated fails: [update_task_status] stores the result and the
    error it is given, whatever the status; here a Pending task has both. *)
Lemma update_task_status_sets_result_and_error :
  let p := snd (run [CreateTask "a" None;
                     UpdateTaskStatus "task_1" PENDING (PStr "r") (Some "e")]
                    new_planner) in
  exists t,
    get_task "task_1" p = Some t
    /\ status t = PENDING /\ result t = PStr "r" /\ error t = Some "e"
    /\ ~ result_error_exclusive t.
Proof.
  eexists. split; [reflexivity|]. do 3 (split; [reflexivity|]).
  simpl. intros [H _]. apply H. split; discriminate.
Qed.

Lemma consistent_updated k s r e t :
  consistent (UpdateTaskStatus k s r e) = true <->
  result_error_exclusive (updated s r e t).
Proof.
  unfold result_error_exclusive. cbn [consistent updated result error status].
  split.
  - intros H. split.
    + intros [R E]. destruct r, e, s; try discriminate; congruence.
    + intros [-> | ->]; destruct r, e; try discriminate; now split.
  - intros [H1 H2].
    destruct s.
    1,2: destruct H2 as [-> ->]; [auto|reflexivity].
    all: destruct r, e; try reflexivity; exfalso; apply H1;
      split; discriminate.
Qed.

(** One call from any state: the tasks of the store stay with a result
    and an error that exclude each other when the call is consistent. *)
Lemma exec_exclusive c p :
  consistent c = true ->
  Forall (fun kt => result_error_exclusive (snd kt)) (tasks p) ->
  Forall (fun kt => result_error_exclusive (snd kt)) (tasks (snd (exec c p))).
Proof.
  intros Hc A.
  assert (N : forall k d m, result_error_exclusive (snd (k, new_task k d m))).
  { intros k d m. split; [intros [H _]; now apply H | now split]. }
  destruct c as [d m|command|k s r e|r|]; cbn [exec fst snd].
  - rewrite create_task_eq. cbn [snd tasks].
    apply Forall_dict_set; [apply N | exact A].
  - rewrite plan_tasks_template.
    pose proof (create_all_Forall
                  (fun kt => result_error_exclusive (snd kt))
                  (template_of (lower command)) p N A) as H.
    now destruct (create_all _ p).
  - apply update_task_status_Forall; [|exact A].
    intros t _. cbn [snd]. now apply (consistent_updated k).
  - apply complete_current_task_Forall; [|exact A].
    intros k t _. cbn [snd]. apply (consistent_updated k). now destruct r.
  - unfold clear_completed_tasks. now apply clear_Forall.
Qed.

(** C8, amended: [update_task_status] stores the result and the error it
    is passed, with the status it is passed, and checks neither. A call is
    consistent when it is not an [update_task_status] whose own arguments
    break the rule, that is one passed both a result and an error, or
    either of them with Pending or InProgress. From any state in which
    result and error exclude each other on every stored task, a
    consistent call leads to such a state; so they do after every sequence
    of consistent calls on a new planner, on tasks of every status; and an
    [update_task_status] that is not consistent leaves the task it names,
    when it is stored, with a result and an error that break the rule. *)
Theorem result_error_exclusive_when_consistent cs c p k t :
  (consistent c = true ->
   Forall (fun kt => result_error_exclusive (snd kt)) (tasks p) ->
   Forall (fun kt => result_error_exclusive (snd kt)) (tasks (snd (exec c p))))
  /\ (forallb consistent cs = true ->
      get_task k (snd (run cs new_planner)) = Some t ->
      result_error_exclusive t)
  /\ (consistent c = false -> get_task k p = Some t ->
      exists k0 s r e,
        c = UpdateTaskStatus k0 s r e
        /\ (k0 = k ->
            get_task k (snd (exec c p)) = Some (updated s r e t)
            /\ ~ result_error_exclusive (updated s r e t))).
Proof.
  split; [apply exec_exclusive|]. split.
  - intros Hcs G.
    assert (A : Forall (fun kt => result_error_exclusive (snd kt))
                  (tasks (snd (run cs new_planner)))).
    { clear G. induction cs as [|c0 cs IH] using rev_ind; [constructor|].
      apply forallb_snoc in Hcs as [Hcs Hc]. rewrite run_snd_app.
      apply exec_exclusive; auto. }
    apply dict_get_In in G. rewrite Forall_forall in A. exact (A _ G).
  - intros Hc G. destruct c as [d m|command|k0 s r e|r|]; try discriminate.
    exists k0, s, r, e. split; [reflexivity|]. intros ->. split.
    + unfold get_task in *. cbn [exec snd].
      rewrite update_task_status_eq, G. cbn [snd tasks].
      apply dict_get_set_eq.
    + rewrite <- (consistent_updated k). congruence.
Qed.

Lemma result_error_exclusive_when_consistent_witness :
  let cs := [PlanTasks "add an api endpoint";
             UpdateTaskStatus "task_1" IN_PROGRESS PNone None;
             CompleteCurrentTask (PStr "ok");
             UpdateTaskStatus "task_2" IN_PROGRESS PNone None;
             UpdateTaskStatus "task_2" FAILED PNone (Some "boom")] in
  exists t,
    forallb consistent cs = true
    /\ get_task "task_2" (snd (run cs new_planner)) = Some t
    /\ status t = FAILED /\ result t = PNone /\ error t = Some "boom"
    /\ result_error_exclusive t.
Proof.
  cbv zeta. eexists. split; [reflexivity|]. split; [reflexivity|].
  do 3 (split; [reflexivity|]).
  refine (proj1 (proj2 (result_error_exclusive_when_consistent
                   [PlanTasks "add an api endpoint";
                    UpdateTaskStatus "task_1" IN_PROGRESS PNone None;
                    CompleteCurrentTask (PStr "ok");
                    UpdateTaskStatus "task_2" IN_PROGRESS PNone None;
                    UpdateTaskStatus "task_2" FAILED PNone (Some "boom")]
                   ClearCompletedTasks new_planner "task_2" _))
            eq_refl eq_refl).
Defined.

(** *** The order of the store *)

Lemma update_task_status_keys k s r e p :
  keys (tasks (snd (update_task_status k s r e p))) = keys (tasks p).
Proof.
  rewrite update_task_status_eq.
  destruct (dict_get k (tasks p)) as [t|] eqn:G; [|reflexivity].
  cbn [snd tasks]. rewrite keys_dict_set. unfold dict_mem. now rewrite G.
Qed.

Lemma complete_current_task_keys r p :
  keys (tasks (snd (complete_current_task r p))) = keys (tasks p).
Proof.
  unfold complete_current_task.
  destruct (current_task_id p) as [cid|]; [|reflexivity].
  destruct (falsy (Some cid)); [reflexivity|].
  pose proof (update_task_status_keys cid COMPLETED r None p) as K.
  now destruct (update_task_status cid COMPLETED r None p).
Qed.

Lemma run_named cs n p :
  forallb never_clears cs = true -> named_store n p ->
  exists m,
    map id (fst (run cs p)) = map task_name (seq (1 + n) m)
    /\ named_store (n + m) (snd (run cs p)).
Proof.
  revert n p. induction cs as [|c r IH]; intros n p H F.
  - exists 0. rewrite Nat.add_0_r. now split.
  - cbn [run]. simpl in H. apply andb_prop in H as [Hc Hr].
    assert (S1 : exists k,
               map id (fst (exec c p)) = map task_name (seq (1 + n) k)
               /\ named_store (n + k) (snd (exec c p))).
    { destruct c as [d m|command|k s x e|x|]; try discriminate;
        cbn [exec fst snd].
      - destruct (create_task_named d m n p F) as [E F1].
        destruct (Planner.create_task d m p) as [t p1]. cbn [fst snd] in *.
        exists 1. cbn [map seq]. rewrite E.
        replace (n + 1) with (S n) in * by lia. now split.
      - rewrite plan_tasks_template.
        destruct (create_all_named (template_of (lower command)) n p F)
          as [E F1].
        destruct (create_all _ p) as [ts p1]. cbn [fst snd] in *.
        exists (List.length (template_of (lower command))). now split.
      - exists 0. rewrite Nat.add_0_r. split; [reflexivity|].
        unfold named_store. now rewrite update_task_status_keys.
      - exists 0. rewrite Nat.add_0_r. split; [reflexivity|].
        unfold named_store. now rewrite complete_current_task_keys. }
    destruct S1 as (k & E1 & F1).
    destruct (exec c p) as [ts p1]. cbn [fst snd] in E1, F1.
    destruct (IH _ _ Hr F1) as (m & E2 & F2).
    destruct (run r p1) as [ts' p2]. cbn [fst snd] in *.
    exists (k + m). rewrite map_app, E1, E2, seq_app, map_app.
    split; [reflexivity|]. now rewrite Nat.add_assoc.
Qed.

(** Until [clear_completed_tasks] is called the store lists the tasks in
    the order of their creation: its keys are the ids of the tasks created,
    oldest first, and these are pairwise different. *)
Lemma store_order_is_creation_order cs :
  forallb never_clears cs = true ->
  keys (tasks (snd (run cs new_planner))) = map id (fst (run cs new_planner))
  /\ NoDup (map id (fst (run cs new_planner))).
Proof.
  intros H. destruct (run_named cs 0 new_planner H eq_refl) as (m & E & K).
  rewrite E. split; [exact K|]. apply NoDup_map_task_name, seq_NoDup.
Qed.

Lemma stored_not_pending (p : TaskPlanner) (l : dict Task) :
  NoDup (keys (tasks p)) -> incl l (tasks p) ->
  Forall (fun x => status x <> PENDING) (values l) ->
  Forall (fun k => exists t, get_task k p = Some t /\ status t <> PENDING)
         (keys l).
Proof.
  intros N I A. unfold keys, values in *. rewrite Forall_map in *.
  rewrite Forall_forall in *. intros [k t] Hin. exists t. cbn [fst].
  split; [|exact (A _ Hin)].
  apply In_dict_get; [exact N | now apply I].
Qed.

(** Until [clear_completed_tasks] is called, [complete_current_task]
    advances in the order of creation: the task it returns is Pending and
    was created after the completed one, every task created between the
    two is stored and not Pending, and with no Pending task created after
    the completed one it returns none. *)
Lemma complete_current_task_in_creation_order cs r cid :
  forallb never_clears cs = true ->
  let p := snd (run cs new_planner) in
  current_task_id p = Some cid ->
  exists before after,
    map id (fst (run cs new_planner)) = (before ++ cid :: after)%list
    /\ match fst (complete_current_task r p) with
       | Some nt =>
           exists skipped later,
             after = (skipped ++ id nt :: later)%list
             /\ get_task (id nt) p = Some nt /\ status nt = PENDING
             /\ Forall (fun k => exists t, get_task k p = Some t
                                           /\ status t <> PENDING) skipped
       | None =>
           Forall (fun k => exists t, get_task k p = Some t
                                      /\ status t <> PENDING) after
       end.
Proof.
  intros H. cbv zeta. intros Cu.
  destruct (store_order_is_creation_order cs H) as [K _].
  destruct (run_store_ok cs) as [S C].
  set (p := snd (run cs new_planner)) in *.
  destruct (C cid Cu) as [t G].
  destruct (dict_get_split _ _ _ G) as (l1 & l2 & T & Hn).
  rewrite (complete_current_task_eq r p cid l1 t l2 S Cu T). cbn [fst].
  exists (keys l1), (keys l2). split.
  { rewrite <- K, T. unfold keys. now rewrite map_app. }
  pose proof S as [N A].
  pose proof (find_first pending (values l2)) as F.
  destruct (find pending (values l2)) as [nt|].
  - destruct F as (b & c & E & Hp & Hb).
    unfold values in E. apply map_eq_app in E as (lb & lc' & -> & Eb & Ec).
    apply map_eq_cons in Ec as ([k x] & lc & -> & Ex & Ec).
    cbn [snd] in Ex. subst x.
    assert (I : In (k, nt) (tasks p)).
    { rewrite T. apply in_or_app. right. right. apply in_or_app. right.
      now left. }
    rewrite Forall_forall in A. destruct (A _ I) as [Ei _]. cbn [fst snd] in Ei.
    exists (keys lb), (keys lc). split.
    { unfold keys. rewrite map_app. cbn [map fst]. now rewrite Ei. }
    split; [rewrite Ei; now apply In_dict_get|].
    split; [now apply status_eqb_eq|].
    apply stored_not_pending; [exact N| |].
    + intros kt Hin. rewrite T. apply in_or_app. right. right.
      apply in_or_app. now left.
    + unfold values. rewrite Eb. eapply Forall_impl; [|exact Hb].
      intros x. apply pending_false.
  - apply stored_not_pending; [exact N| |].
    + intros kt Hin. rewrite T. apply in_or_app. right. now right.
    + eapply Forall_impl; [|exact F]. intros x. apply pending_false.
Qed.

(** C2: once [clear_completed_tasks] has shrunk the store, [create_task]
    gives out an id a second time and the new task takes the place of the
    old one in the store, ahead of tasks created before it. After planning
    four tasks, completing two, clearing and completing the third, the
    task "x" is created fifth and last, as "task_3" again; it is stored
    before "task_4", the current task. [complete_current_task] then
    completes "task_4" and returns none, with no current task left,
    although "x", created after "task_4", is stored and Pending. *)
Theorem complete_current_task_skips_recreated_task :
  let calls := [PlanTasks "add an api endpoint"; CompleteCurrentTask PNone;
                CompleteCurrentTask PNone; ClearCompletedTasks;
                CompleteCurrentTask PNone; CreateTask "x" None] in
  let (created, p) := run calls new_planner in
  map id created = ["task_1"; "task_2"; "task_3"; "task_4"; "task_3"]
  /\ map description created
     = ["Identify API endpoint requirements";
        "Create API endpoint implementation"; "Add input validation";
        "Write unit tests"; "x"]
  /\ current_task_id p = Some "task_4"
  /\ map (fun kt => (fst kt, description (snd kt), status (snd kt))) (tasks p)
     = [("task_3", "x", PENDING); ("task_4", "Write unit tests", PENDING)]
  /\ let (next, p') := complete_current_task (PStr "ok") p in
     next = None /\ current_task_id p' = None
     /\ map (fun kt => (fst kt, description (snd kt), status (snd kt)))
            (tasks p')
        = [("task_3", "x", PENDING); ("task_4", "Write unit tests", COMPLETED)].
Proof.
  vm_compute. repeat split.
Qed.

(** *** Commands that match no rule *)

(** C6 as stated fails: on "Rename the Project" no rule matches and the
    one task planned is described by the lower-cased command, not by the
    command as given. *)
Lemma plan_tasks_lowers_the_command :
  let command := "Rename the Project" in
  let planned := fst (plan_tasks command new_planner) in
  login_rule (lower command) = false /\ api_rule (lower command) = false
  /\ map description planned = ["Process command: rename the project"]
  /\ map description planned <> ["Process command: " ++ command]
  /\ forallb (fun t => contains command (description t)) planned = false.
Proof.
  cbv zeta. repeat split; try reflexivity. vm_compute. discriminate.
Qed.

(** C6, amended: a command that matches no rule gives exactly one task,
    Pending and made current, whose description is "Process command: "
    followed by the lower-cased command, which is also what its metadata
    keeps under "command"; it is the command as given when that has no
    upper-case letter. *)
Theorem plan_tasks_generic command p :
  login_rule (lower command) = false -> api_rule (lower command) = false ->
  let t := new_task (task_name (List.length (tasks p) + 1))
             ("Process command: " ++ lower command)
             (Some [("type", PStr "general");
                    ("command", PStr (lower command))]) in
  plan_tasks command p
  = ([t], {| tasks := dict_set (id t) t (tasks p);
             current_task_id := Some (id t) |})
  /\ (lower command = command ->
      description t = "Process command: " ++ command).
Proof.
  intros L A. cbv zeta. split.
  - rewrite plan_tasks_template. unfold template_of. rewrite L, A.
    reflexivity.
  - intros E. cbn [description new_task]. now rewrite E.
Qed.

Lemma plan_tasks_generic_witness :
  login_rule (lower "rename the project") = false
  /\ api_rule (lower "rename the project") = false
  /\ map description (fst (plan_tasks "rename the project" new_planner))
     = ["Process command: rename the project"].
Proof.
  split; [reflexivity|]. split; [reflexivity|].
  rewrite (proj1 (plan_tasks_generic "rename the project" new_planner
                    eq_refl eq_refl)).
  reflexivity.
Defined.

(** ** The orchestrator *)

(** *** Saving and loading *)

Lemma last_slice_most_recent {A : Type} (n : nat) (l : list A) :
  last_slice n l = most_recent (Nat.min n (List.length l)) l.
Proof.
  unfold last_slice, most_recent. rewrite firstn_rev, rev_involutive.
  f_equal. lia.
Qed.

Lemma last_slice_length {A : Type} (n : nat) (l : list A) :
  List.length (last_slice n l) = Nat.min n (List.length l).
Proof. unfold last_slice. rewrite length_skipn. lia. Qed.

Lemma records_of_map_PDict l : records_of (map PDict l) = Some l.
Proof.
  induction l as [|d r IH]; [reflexivity|]. cbn [map records_of].
  now rewrite IH.
Qed.

Lemma as_records_array l : as_records (array l) = Some l.
Proof. apply records_of_map_PDict. Qed.

Lemma py_len_array l : py_len (array l) = inr (List.length l).
Proof. unfold array, py_len. now rewrite length_map. Qed.

Lemma load_state_saved (a b : VoiceIDE) (w : World) :
  fst (load_state b (save_state a w))
  = Loaded {| running := running b; current_task := current_task b;
              task_queue := task_queue a;
              history := last_slice 100 (history a) |}.
Proof.
  unfold load_state, load_fields, save_state.
  cbn [tasks_file history_file logger]. rewrite !py_len_array.
  cbn [fst]. now rewrite !as_records_array.
Qed.

(** C4: after [save_state], [load_state] (in any instance, such as the one
    the next start creates) reads back the queue as it was saved and the
    most recent min(100, length) entries of the history, entry for entry;
    [save_state] returns no new object state, so the history in memory is
    cut at no time; with 150 entries in memory the 100 most recent are
    loaded. *)
Theorem save_state_then_load_state (a b : VoiceIDE) (w : World) :
  let (state, _) := load_state b (save_state a w) in
  exists a',
    state = Loaded a'
    /\ task_queue a' = task_queue a
    /\ history a'
       = most_recent (Nat.min 100 (List.length (history a))) (history a)
    /\ List.length (history a') = Nat.min 100 (List.length (history a))
    /\ (List.length (history a) = 150 ->
        history a' = skipn 50 (history a) /\ List.length (history a') = 100).
Proof.
  pose proof (load_state_saved a b w) as E.
  destruct (load_state b (save_state a w)) as [state w']. cbn [fst] in E.
  eexists. split; [exact E|]. cbn [task_queue history].
  split; [reflexivity|]. split; [apply last_slice_most_recent|].
  split; [apply last_slice_length|].
  intros H. rewrite last_slice_length. unfold last_slice. rewrite H.
  split; reflexivity.
Qed.

Lemma save_state_then_load_state_witness :
  let a := {| running := true; current_task := None;
              task_queue := [[("id", PStr "task_1")]];
              history := numbered_events |} in
  let w := {| tasks_file := None; history_file := None; log := []; clock := 0 |} in
  List.length (history a) = 150
  /\ exists a',
       fst (startup (save_state a w)) = Loaded a'
       /\ history a' = skipn 50 numbered_events
       /\ task_queue a' = [[("id", PStr "task_1")]].
Proof.
  cbv zeta. split; [reflexivity|].
  pose proof (save_state_then_load_state
                {| running := true; current_task := None;
                   task_queue := [[("id", PStr "task_1")]];
                   history := numbered_events |} init
                {| tasks_file := None; history_file := None; log := [];
                   clock := 0 |}) as H.
  unfold startup. destruct (load_state _ _) as [state w'].
  destruct H as (a' & E & Q & _ & _ & H). exists a'. cbn [fst].
  split; [exact E|]. split; [|exact Q].
  exact (proj1 (H eq_refl)).
Defined.

(** *** Loading at startup *)

(** C7 as stated fails: with a well-formed tasks file and a malformed
    history file the queue is loaded and the history is empty. *)
Lemma startup_mixes_loaded_and_empty :
  let w := {| tasks_file := Some (JsonText (array [[("id", PStr "task_1")]]));
              history_file := Some (BadText "Expecting value");
              log := []; clock := 0 |} in
  exists a,
    fst (startup w) = Loaded a
    /\ task_queue a = [[("id", PStr "task_1")]]
    /\ history a = []
    /\ ~ (task_queue a = [] /\ history a = []).
Proof.
  cbv zeta. eexists. repeat split. intros [H _]. discriminate H.
Qed.

(** A tasks file that holds [null] is not rejected by [json.load]: the
    queue becomes [None], the log line raises, the well-formed history
    file is not read, and the object is left with a queue that is no
    list. *)
Lemma startup_reads_null :
  let w := {| tasks_file := Some (JsonText PNone);
              history_file := Some (JsonText (array [[("type", PStr "user_input")]]));
              log := []; clock := 0 |} in
  startup w
  = (IllTyped PNone (PList []),
     {| tasks_file := tasks_file w; history_file := history_file w;
        log := [load_warning "object of type 'NoneType' has no len()"];
        clock := 0 |}).
Proof. reflexivity. Qed.

(** C7, amended: [load_state] at startup always returns and writes no
    file. It reads the tasks file, then the history file; an absent file
    is skipped and leaves its field empty, without a log line. The first
    file that raises ends the loading and is logged as one warning: a file
    that [json.load] rejects, which leaves its field empty, or one whose
    value has no length ([null], a number, a boolean), which has been
    assigned to its field when the log line raises; the history file is
    not read after a tasks file that raised. Every other value becomes the
    field as it is, a list or not. So the queue is the value of the tasks
    file, or empty when that is absent or rejected, and the history is the
    value of the history file, or empty when that is absent, rejected or
    not read; both are empty only in these cases, the object has a queue
    and a history as the other methods expect them only when both values
    are lists of objects, and a loaded queue can stand beside an empty
    history. *)
Theorem startup_absent_or_malformed (w : World) :
  let '(queue, history, w') := load_fields (PList []) (PList []) w in
  queue = match tasks_file w with
          | Some (JsonText v) => v
          | _ => PList []
          end
  /\ history = match load_error (tasks_file w), history_file w with
               | None, Some (JsonText v) => v
               | _, _ => PList []
               end
  /\ warnings (log w) (log w')
     = match load_error (tasks_file w), load_error (history_file w) with
       | Some e, _ => [load_warning e]
       | None, Some e => [load_warning e]
       | None, None => []
       end
  /\ tasks_file w' = tasks_file w /\ history_file w' = history_file w
  /\ startup w
     = (match as_records queue, as_records history with
        | Some q, Some h =>
            Loaded {| running := false; current_task := None;
                      task_queue := q; history := h |}
        | _, _ => IllTyped queue history
        end, w').
Proof.
  unfold startup, load_state, load_fields, warnings, load_error.
  change (array (task_queue init)) with (PList []).
  change (array (Orchestrator.history init)) with (PList []).
  destruct (tasks_file w) as [[q|e]|] eqn:T;
    [destruct (py_len q) as [e|n] eqn:Lq| |];
    (destruct (history_file w) as [[h|e']|] eqn:H;
     [destruct (py_len h) as [e2|n2] eqn:Lh| |]);
    cbn [tasks_file history_file log logger fst snd];
    rewrite ?T, ?H, ?Lh; cbn [tasks_file history_file log logger fst snd];
    repeat split;
    rewrite <- ?app_assoc, ?skipn_app, ?skipn_all, ?Nat.sub_diag;
    rewrite ?T, ?H, ?Lq, ?Lh; reflexivity.
Qed.

(** *** The status indicator *)

(** C9 as stated fails: with neither a current task nor queued tasks the
    indicator is "ready", not "idle". *)
Lemma get_status_of_init_is_ready :
  current_task init = None /\ task_queue init = []
  /\ get_status init = Some "ready" /\ get_status init <> Some "idle".
Proof. repeat split. discriminate. Qed.

Lemma str_prefix_length n s :
  String.length (str_prefix n s) = Nat.min n (String.length s).
Proof.
  unfold str_prefix. revert s.
  induction n as [|n IH]; intros [|c r]; simpl; try reflexivity.
  now rewrite IH.
Qed.

Lemma str_prefix_is_prefix n s : String.prefix (str_prefix n s) s = true.
Proof.
  unfold str_prefix. revert s.
  induction n as [|n IH]; intros [|c r]; simpl; try reflexivity.
  rewrite IH. now destruct (Ascii.ascii_dec c c).
Qed.

(** C9, amended: [get_status] is a function of the object's fields and
    returns nothing but the indicator. With no current task it is "ready"
    on an empty queue and "N tasks queued" on a queue of N > 0 tasks; with a
    current task whose description is the text [d] it is "working on: ",
    the first 20 characters of [d], and "...". *)
Theorem get_status_cases (a : VoiceIDE) :
  (truthy (current_task a) = false -> task_queue a = [] ->
   get_status a = Some "ready")
  /\ (truthy (current_task a) = false -> task_queue a <> [] ->
      get_status a
      = Some (str_of_nat (List.length (task_queue a)) ++ " tasks queued"))
  /\ (forall task d,
        current_task a = Some task ->
        dict_get "description" task = Some (PStr d) ->
        get_status a = Some ("working on: " ++ str_prefix 20 d ++ "...")
        /\ String.length (str_prefix 20 d) = Nat.min 20 (String.length d)
        /\ String.prefix (str_prefix 20 d) d = true).
Proof.
  unfold get_status, truthy. repeat split.
  - intros T Q. rewrite Q. destruct (current_task a) as [[|kv t]|]; congruence.
  - intros T Q. destruct (task_queue a) as [|x q]; [congruence|].
    destruct (current_task a) as [[|kv t]|]; congruence.
  - rewrite H. destruct task as [|kv t]; [discriminate|]. now rewrite H0.
  - apply str_prefix_length.
  - apply str_prefix_is_prefix.
Qed.

Lemma get_status_cases_witness :
  let idle := init in
  let queued := set_queue [[("description", PStr "a")];
                           [("description", PStr "b")]] init in
  let busy := set_current
                (Some [("description",
                        PStr "Fix the layout issue on the login page")])
                init in
  get_status idle = Some "ready"
  /\ get_status queued = Some "2 tasks queued"
  /\ get_status busy = Some "working on: Fix the layout issue...".
Proof.
  cbv zeta. split; [|split].
  - apply (proj1 (get_status_cases init)); reflexivity.
  - apply (proj1 (proj2 (get_status_cases
                           (set_queue [[("description", PStr "a")];
                                       [("description", PStr "b")]] init))));
      [reflexivity | discriminate].
  - apply (proj1 (proj2 (proj2 (get_status_cases
             (set_current
                (Some [("description",
                        PStr "Fix the layout issue on the login page")])
                init)))
             [("description", PStr "Fix the layout issue on the login page")]
             "Fix the layout issue on the login page" eq_refl eq_refl)).
Defined.

(** *** Failure of a task *)

Lemma description_started ts (task : record) :
  dict_get "description" (started ts task) = dict_get "description" task.
Proof. unfold started. now rewrite !dict_get_set_ne by discriminate. Qed.

Lemma truthy_dict_set k v (d : record) : truthy (Some (dict_set k v d)) = true.
Proof.
  destruct d as [|[k0 v0] r]; simpl; [reflexivity|].
  now destruct (String.eqb k0 k).
Qed.

Ltac kept_keys Hk :=
  unfold started, succeeded, failed_with;
  repeat (rewrite dict_get_set_ne
            by (let E := fresh in
                intros E; apply Hk; rewrite <- E; simpl; tauto));
  reflexivity.

Section LoopFacts.

Variable now : nat -> string.
Variable work : nat -> outcome.
Variable recursion_error : string.

Lemma run_task_eq task rest a w :
  run_task now work task rest a w
  = let c := clock w in
    let t0 := started (now c) task in
    let except e :=
      after_task (failed_with e t0)
        (history a ++ [failed_event (now (S c)) (failed_with e t0) e])%list
        (log w ++ [(ERROR, ("Task failed: " ++ e)%string)])%list (S (S c)) rest a in
    match work (S c), dict_get "description" task with
    | RaisesInDisplay e, _ => except e
    | _, None => except "'description'"
    | RaisesInWork e, Some _ => except e
    | Finishes, Some _ =>
        if running a then
          after_task (succeeded (now (S c)) t0)
            (history a ++ [completed_event (now (S (S c)))
                             (succeeded (now (S c)) t0)])%list
            (log w) (S (S (S c))) rest a
        else after_task t0 (history a) (log w) (S c) rest a
    | RaisesInPrint e, Some _ =>
        if running a then
          let t2 := failed_with e (succeeded (now (S c)) t0) in
          after_task t2
            (history a ++ [completed_event (now (S (S c))) t2;
                           failed_event (now (S (S (S c)))) t2 e])%list
            (log w ++ [(ERROR, ("Task failed: " ++ e)%string)])%list
            (S (S (S (S c)))) rest a
        else after_task t0 (history a) (log w) (S c) rest a
    end.
Proof.
  pose proof (description_started (now (clock w)) task) as D.
  unfold run_task, after_task, started, succeeded, failed_with,
    success_result in *.
  cbv zeta. cbn [tick clock]. rewrite D.
  destruct (work (S (clock w))); destruct (dict_get "description" task);
    destruct (running a); reflexivity.
Qed.

(** What [run_task] does whatever the outcome. *)
Lemma run_task_facts task rest a w :
  let (a1, w1) := run_task now work task rest a w in
  task_queue a1 = rest /\ running a1 = running a
  /\ tasks_file w1 = Some (JsonText (array rest))
  /\ history_file w1 = Some (JsonText (array (last_slice 100 (history a1))))
  /\ (exists later, history a1 = (history a ++ later)%list)
  /\ exists t1,
       current_task a1 = Some t1 /\ truthy (Some t1) = true
       /\ dict_get "started_at" t1 = Some (PStr (now (clock w)))
       /\ forall k, ~ In k written_keys -> dict_get k t1 = dict_get k task.
Proof.
  rewrite run_task_eq. cbv zeta. unfold after_task.
  destruct (work (S (clock w))); destruct (dict_get "description" task);
    destruct (running a);
    (split; [reflexivity|]; split; [reflexivity|]; split; [reflexivity|];
     split; [reflexivity|]; split;
     [first [exists []; cbn [history]; now rewrite app_nil_r
            |eexists; reflexivity]|]);
    eexists; (split; [reflexivity|]);
    (split; [apply truthy_dict_set|]);
    (split;
     [unfold started, succeeded, failed_with;
      repeat (rewrite dict_get_set_ne by discriminate); apply dict_get_set_eq
     |intros k Hk; kept_keys Hk]).
Qed.

Lemma run_task_queue task rest a w :
  task_queue (fst (run_task now work task rest a w)) = rest.
Proof.
  pose proof (run_task_facts task rest a w) as F.
  destruct (run_task now work task rest a w). cbn [fst]. tauto.
Qed.

Lemma process_next_task_step room a w task rest :
  task_queue a = task :: rest ->
  process_next_task now work recursion_error (S room) a w
  = process_next_task now work recursion_error room
      (fst (run_task now work task rest a w))
      (snd (run_task now work task rest a w)).
Proof.
  intros Q. unfold process_next_task. rewrite Q, run_task_queue.
  cbn [process_queue]. now destruct (run_task now work task rest a w).
Qed.

(** The history only grows, whether the queue is drained or not. *)
Lemma process_queue_history room : forall queue a w,
  exists later,
    history (fst (fst (process_queue now work recursion_error room queue a w)))
    = (history a ++ later)%list.
Proof.
  induction room as [|room IH]; intros queue a w; cbn [process_queue].
  - exists []. cbn [fst]. now rewrite app_nil_r.
  - destruct queue as [|task rest].
    + exists []. cbn [fst set_current history]. now rewrite app_nil_r.
    + pose proof (run_task_facts task rest a w) as F.
      destruct (run_task now work task rest a w) as [a1 w1].
      destruct F as (_ & _ & _ & _ & (l1 & H1) & _).
      destruct (IH rest a1 w1) as (l2 & H2).
      exists (l1 ++ l2)%list. now rewrite H2, H1, app_assoc.
Qed.

(** With room on the stack for one call more than there are tasks, the
    queue is drained. *)
Lemma process_queue_drains room : forall queue a w,
  task_queue a = queue -> List.length queue < room ->
  let '(a', w', escaped) :=
    process_queue now work recursion_error room queue a w in
  escaped = None /\ task_queue a' = [] /\ current_task a' = None
  /\ running a' = running a
  /\ (queue <> [] -> tasks_file w' = Some (JsonText (array []))).
Proof.
  induction room as [|room IH]; intros queue a w Q L; [lia|].
  cbn [process_queue]. destruct queue as [|task rest].
  - cbn [set_current task_queue current_task running]. now repeat split.
  - pose proof (run_task_facts task rest a w) as F.
    destruct (run_task now work task rest a w) as [a1 w1].
    destruct F as (Q1 & R1 & Sv & _).
    cbn [List.length] in L.
    specialize (IH rest a1 w1 Q1 ltac:(lia)).
    destruct (process_queue now work recursion_error room rest a1 w1)
      as [[a' w'] escaped] eqn:P.
    destruct IH as (E & Q' & C' & R' & Sv').
    repeat split; try assumption; [congruence|].
    intros _. destruct rest as [|t2 r2]; [|apply Sv'; discriminate].
    destruct room as [|room]; [cbn [List.length] in L; lia|].
    cbn [process_queue] in P. injection P as <- <- <-. exact Sv.
Qed.

(** Without that room, the [RecursionError] leaves the call when as many
    tasks were popped as there was room for, the last of them still the
    current task. *)
Lemma process_queue_overflows room : forall queue a w,
  task_queue a = queue -> room <= List.length queue ->
  let '(a', w', escaped) :=
    process_queue now work recursion_error room queue a w in
  escaped = Some recursion_error /\ task_queue a' = skipn room queue
  /\ (0 < room -> truthy (current_task a') = true).
Proof.
  induction room as [|room IH]; intros queue a w Q L; cbn [process_queue].
  - repeat split; [exact Q | lia].
  - destruct queue as [|task rest]; [cbn [List.length] in L; lia|].
    pose proof (run_task_facts task rest a w) as F.
    destruct (run_task now work task rest a w) as [a1 w1].
    destruct F as (Q1 & _ & _ & _ & _ & t1 & C1 & T1 & _).
    cbn [List.length] in L.
    specialize (IH rest a1 w1 Q1 ltac:(lia)).
    destruct (process_queue now work recursion_error room rest a1 w1)
      as [[a' w'] escaped] eqn:P.
    destruct IH as (E & Q' & C'). repeat split; [exact E | exact Q'|].
    intros _. destruct room as [|room]; [|apply C'; lia].
    cbn [process_queue] in P. injection P as <- <- <-. now rewrite C1.
Qed.


End LoopFacts.


(** ** More of the planner *)

(** *** [update_task_status] *)

(** X1: [update_task_status] returns true exactly when a task is stored
    under the id; it then changes the status, result and error of that
    task to the arguments and nothing else: the other fields of the task,
    the other tasks, the order of the store and the current pointer stay.
    For an unknown id the planner is unchanged. *)
Theorem update_task_status_contract k s r e p :
  let (ok, p') := update_task_status k s r e p in
  (ok = true <-> exists t, get_task k p = Some t)
  /\ (ok = false -> p' = p)
  /\ keys (tasks p') = keys (tasks p)
  /\ current_task_id p' = current_task_id p
  /\ (forall k', k' <> k -> get_task k' p' = get_task k' p)
  /\ (forall t, get_task k p = Some t -> get_task k p' = Some (updated s r e t)).
Proof.
  pose proof (update_task_status_keys k s r e p) as K.
  pose proof (update_task_status_current k s r e p) as C.
  pose proof (fun k' => update_task_status_get_other k s r e p k') as O.
  pose proof (update_task_status_eq k s r e p) as E.
  unfold get_task. destruct (update_task_status k s r e p) as [ok p'].
  cbn [snd] in *. destruct (dict_get k (tasks p)) as [t|] eqn:G.
  - injection E as -> ->.
    split; [split; [intros _; now exists t | reflexivity]|].
    split; [discriminate|]. split; [exact K|]. split; [exact C|].
    split; [intros k' H; apply O; congruence|].
    intros t' [= <-]. cbn [tasks]. apply dict_get_set_eq.
  - injection E as -> ->.
    split; [split; [discriminate | intros [t H]; discriminate]|].
    split; [reflexivity|]. split; [exact K|]. split; [exact C|].
    split; [intros k' H; apply O; congruence | discriminate].
Qed.

Lemma update_task_status_contract_witness :
  let p := snd (run [PlanTasks "add an api endpoint"] new_planner) in
  fst (update_task_status "task_2" FAILED PNone (Some "boom") p) = true
  /\ option_map status
       (get_task "task_2"
          (snd (update_task_status "task_2" FAILED PNone (Some "boom") p)))
     = Some FAILED
  /\ snd (update_task_status "task_9" FAILED PNone (Some "boom") p) = p.
Proof.
  cbv zeta.
  pose proof (update_task_status_contract "task_2" FAILED PNone (Some "boom")
                (snd (run [PlanTasks "add an api endpoint"] new_planner)))
    as H.
  pose proof (update_task_status_contract "task_9" FAILED PNone (Some "boom")
                (snd (run [PlanTasks "add an api endpoint"] new_planner)))
    as H'.
  destruct (update_task_status "task_2" _ _ _ _) as [ok p'].
  destruct (update_task_status "task_9" _ _ _ _) as [ok' p''].
  destruct H as (H1 & _ & _ & _ & _ & H2).
  destruct H' as (H1' & H2' & _). cbn [fst snd].
  split; [apply H1; eexists; reflexivity|].
  split; [now rewrite (H2 _ eq_refl)|].
  apply H2'. destruct ok'; [|reflexivity].
  destruct (proj1 H1' eq_refl) as [t Ht]. discriminate Ht.
Defined.

(** *** [plan_tasks] on a store that never shrank *)

Lemma dict_set_fresh {V : Type} (d : dict V) k v :
  dict_get k d = None -> dict_set k v d = (d ++ [(k, v)])%list.
Proof.
  induction d as [|[k0 v0] r IH]; simpl; [reflexivity|].
  destruct (String.eqb k0 k); [discriminate|]. intros H. now rewrite IH.
Qed.

Lemma create_task_appends d m n p :
  named_store n p ->
  tasks (snd (Planner.create_task d m p))
  = (tasks p ++ [entry (fst (Planner.create_task d m p))])%list.
Proof.
  intros K. pose proof (named_store_length n p K) as L.
  rewrite create_task_eq, L. cbn [fst snd tasks]. unfold entry.
  cbn [id new_task]. apply dict_set_fresh.
  pose proof (task_name_not_in_seq n) as Hn. unfold named_store in K.
  rewrite <- K in Hn. now apply dict_get_None.
Qed.

Lemma create_all_appends specs n p :
  named_store n p ->
  tasks (snd (create_all specs p))
  = (tasks p ++ map entry (fst (create_all specs p)))%list.
Proof.
  revert n p. induction specs as [|[d m] r IH]; intros n p K.
  - simpl. now rewrite app_nil_r.
  - cbn [create_all].
    pose proof (create_task_appends d (Some m) n p K) as A.
    destruct (create_task_named d (Some m) n p K) as [_ K1].
    destruct (Planner.create_task d (Some m) p) as [t p1]. cbn [fst snd] in *.
    specialize (IH _ _ K1).
    destruct (create_all r p1) as [ts p2]. cbn [fst snd map] in *.
    rewrite IH, A, <- app_assoc. reflexivity.
Qed.

Lemma run_named_store cs :
  forallb never_clears cs = true ->
  exists n, named_store n (snd (run cs new_planner)).
Proof.
  intros H. destruct (run_named cs 0 new_planner H eq_refl) as (m & _ & K).
  now exists (0 + m).
Qed.

Lemma lower_char_idempotent c : lower_char (lower_char c) = lower_char c.
Proof. destruct c as [[] [] [] [] [] [] [] []]; reflexivity. Qed.

Lemma lower_idempotent s : lower (lower s) = lower s.
Proof.
  induction s as [|c r IH]; simpl; [reflexivity|].
  now rewrite lower_char_idempotent, IH.
Qed.

Lemma create_all_descriptions specs p :
  map description (fst (create_all specs p)) = map fst specs
  /\ Forall (fun t => status t = PENDING /\ result t = PNone /\ error t = None)
            (fst (create_all specs p)).
Proof.
  revert p. induction specs as [|[d m] r IH]; intros p.
  - split; [reflexivity | constructor].
  - cbn [create_all]. rewrite create_task_eq. cbv zeta.
    destruct (IH {| tasks := dict_set (task_name (List.length (tasks p) + 1))
                               (new_task (task_name (List.length (tasks p) + 1))
                                         d (Some m)) (tasks p);
                    current_task_id := current_task_id p |}) as [E A].
    destruct (create_all r _) as [ts p2]. cbn [fst map] in *.
    rewrite E. split; [reflexivity|]. constructor; [|exact A].
    repeat split.
Qed.

Lemma plan_tasks_on_named_store command n p :
  named_store n p ->
  let (planned, p') := plan_tasks command p in
  tasks p' = (tasks p ++ map entry planned)%list
  /\ NoDup (map id planned)
  /\ (forall t, In t planned -> get_task (id t) p' = Some t)
  /\ get_current_task p' = hd_error planned
  /\ planned <> [].
Proof.
  intros K.
  pose proof (plan_tasks_nonempty command p) as NE.
  rewrite plan_tasks_template in *.
  pose proof (create_all_appends (template_of (lower command)) n p K) as A.
  destruct (create_all_named (template_of (lower command)) n p K) as [E K1].
  destruct (create_all (template_of (lower command)) p) as [ts p1].
  cbn [fst snd tasks] in *.
  assert (N : NoDup (keys (tasks p1))).
  { unfold named_store in K1. rewrite K1.
    apply NoDup_map_task_name, seq_NoDup. }
  assert (G : forall t, In t ts -> dict_get (id t) (tasks p1) = Some t).
  { intros t Ht. apply In_dict_get; [exact N|]. rewrite A.
    apply in_or_app. right. apply in_map_iff. now exists t. }
  split; [exact A|]. split.
  { rewrite E. apply NoDup_map_task_name, seq_NoDup. }
  split; [exact G|]. split; [|exact NE].
  destruct ts as [|t ts]; [congruence|].
  unfold get_current_task, get_task. cbn [current_task_id tasks hd_error].
  assert (Ht : id t <> "").
  { cbn [map] in E. destruct (List.length (template_of (lower command)));
      [discriminate|]. cbn [seq map] in E. injection E as E _. rewrite E.
    apply task_name_nonempty. }
  rewrite (falsy_nonempty _ Ht). apply G. now left.
Qed.

Lemma plan_tasks_pending command p :
  Forall (fun t => status t = PENDING /\ result t = PNone /\ error t = None)
         (fst (plan_tasks command p)).
Proof.
  rewrite plan_tasks_template.
  destruct (create_all_descriptions (template_of (lower command)) p) as [_ A].
  now destruct (create_all (template_of (lower command)) p).
Qed.

(** X2: as long as [clear_completed_tasks] was never called, [plan_tasks]
    appends its tasks to the store in the order it returns them, under
    pairwise different ids; each of them is what [get_task] finds under its
    id, and the first one is what [get_current_task] returns. *)
Theorem plan_tasks_stores_its_tasks cs command :
  forallb never_clears cs = true ->
  let p := snd (run cs new_planner) in
  let (planned, p') := plan_tasks command p in
  tasks p' = (tasks p ++ map entry planned)%list
  /\ NoDup (map id planned)
  /\ (forall t, In t planned -> get_task (id t) p' = Some t)
  /\ get_current_task p' = hd_error planned
  /\ planned <> [].
Proof.
  intros H. cbv zeta. destruct (run_named_store cs H) as [n K].
  exact (plan_tasks_on_named_store command n _ K).
Qed.

Lemma plan_tasks_stores_its_tasks_witness :
  let p := snd (run [PlanTasks "rename the project";
                     CompleteCurrentTask PNone] new_planner) in
  option_map description
    (get_current_task
       (snd (plan_tasks "Fix the layout of the login page" p)))
  = Some "Locate login page files"
  /\ map id (fst (plan_tasks "Fix the layout of the login page" p))
     = ["task_2"; "task_3"; "task_4"; "task_5"; "task_6"].
Proof.
  cbv zeta.
  pose proof (plan_tasks_stores_its_tasks
                [PlanTasks "rename the project"; CompleteCurrentTask PNone]
                "Fix the layout of the login page" eq_refl) as H.
  cbv zeta in H.
  destruct (plan_tasks "Fix the layout of the login page" _) as [ts p'] eqn:E.
  destruct H as (_ & _ & _ & H & _). cbn [fst snd]. rewrite H.
  apply (f_equal fst) in E. cbn [fst] in E. subst ts.
  split; reflexivity.
Defined.

(** *** The rules of [plan_tasks] *)

(** X3: the rules of [plan_tasks] are tried in order on the lower-cased
    command. When "login" and one of "layout", "style" occur in it, the plan
    is the five tasks of the login template, also when the API rule matches
    too; otherwise, when "api" and one of "add", "create" occur, it is the
    four tasks of the API template. Every planned task is Pending without
    result or error, and the plan does not depend on the case of the
    command. *)
Theorem plan_tasks_rules command p :
  (login_rule (lower command) = true ->
   map description (fst (plan_tasks command p))
   = ["Locate login page files"; "Analyze current layout structure";
      "Update CSS for modern styling"; "Ensure responsive design";
      "Test across different screen sizes"])
  /\ (login_rule (lower command) = false -> api_rule (lower command) = true ->
      map description (fst (plan_tasks command p))
      = ["Identify API endpoint requirements";
         "Create API endpoint implementation"; "Add input validation";
         "Write unit tests"])
  /\ Forall (fun t => status t = PENDING /\ result t = PNone /\ error t = None)
            (fst (plan_tasks command p))
  /\ plan_tasks (lower command) p = plan_tasks command p.
Proof.
  rewrite !plan_tasks_template, lower_idempotent.
  destruct (create_all_descriptions (template_of (lower command)) p) as [E A].
  destruct (create_all (template_of (lower command)) p) as [ts p1].
  cbn [fst] in *. unfold template_of in E.
  split; [intros L; now rewrite L in E|].
  split; [intros L R; now rewrite L, R in E|].
  split; [exact A | reflexivity].
Qed.

Lemma plan_tasks_rules_witness :
  login_rule (lower "Add a LOGIN api with a new layout") = true
  /\ api_rule (lower "Add a LOGIN api with a new layout") = true
  /\ List.length (fst (plan_tasks "Add a LOGIN api with a new layout"
                                  new_planner)) = 5
  /\ List.length (fst (plan_tasks "please CREATE the Api" new_planner)) = 4.
Proof.
  split; [reflexivity|]. split; [reflexivity|].
  destruct (plan_tasks_rules "Add a LOGIN api with a new layout" new_planner)
    as (H & _).
  destruct (plan_tasks_rules "please CREATE the Api" new_planner)
    as (_ & H' & _).
  split.
  - rewrite <- (length_map description), (H eq_refl). reflexivity.
  - rewrite <- (length_map description), (H' eq_refl eq_refl). reflexivity.
Defined.

(** *** [clear_completed_tasks] *)

Lemma dict_del_filter {V : Type} (d : dict V) k :
  NoDup (keys d) ->
  dict_del k d = filter (fun kv => negb (String.eqb (fst kv) k)) d.
Proof.
  induction d as [|[k0 v0] r IH]; simpl; [reflexivity|].
  intros N. inversion N as [|? ? Hn Hr]; subst.
  destruct (String.eqb_spec k0 k) as [->|Hne]; simpl.
  - symmetry. apply forallb_filter_id. apply forallb_forall.
    intros [k1 v1] Hin. simpl. destruct (String.eqb_spec k1 k) as [->|]; [|reflexivity].
    exfalso. apply Hn. unfold keys. apply in_map_iff. now exists (k, v1).
  - now rewrite IH.
Qed.

Lemma filter_filter_and {A : Type} (f g : A -> bool) l :
  filter g (filter f l) = filter (fun x => f x && g x) l.
Proof.
  induction l as [|x l IH]; simpl; [reflexivity|].
  destruct (f x); simpl; [destruct (g x)|]; now rewrite IH.
Qed.

Lemma filter_never {A : Type} (f : A -> bool) l :
  filter (fun x => negb (f x) && f x) l = [].
Proof.
  induction l as [|x l IH]; cbn [filter]; [reflexivity|].
  now destruct (f x).
Qed.

Lemma clear_fold_filter ids p :
  NoDup (keys (tasks p)) ->
  tasks (fold_left clear_one ids p)
  = filter (fun kt => negb (existsb (String.eqb (fst kt)) ids)) (tasks p)
  /\ current_task_id (fold_left clear_one ids p)
     = match current_task_id p with
       | Some c => if existsb (String.eqb c) ids then None else Some c
       | None => None
       end.
Proof.
  revert p. induction ids as [|i r IH]; intros p N.
  - simpl. split; [|now destruct (current_task_id p)].
    symmetry. apply forallb_filter_id. now apply forallb_forall.
  - cbn [fold_left]. destruct (IH (clear_one p i)) as [E C].
    { cbn [clear_one tasks]. now apply NoDup_keys_dict_del. }
    rewrite E, C. cbn [clear_one tasks current_task_id]. split.
    + rewrite dict_del_filter by assumption. rewrite filter_filter_and.
      apply filter_ext. intros [k t]. cbn [fst existsb].
      rewrite negb_orb. reflexivity.
    + destruct (current_task_id p) as [c|]; [|reflexivity].
      cbn [existsb]. now destruct (String.eqb c i).
Qed.

Lemma completed_key_test (d : dict Task) k t :
  NoDup (keys d) -> In (k, t) d ->
  existsb (String.eqb k) (map fst (filter entry_completed d))
  = entry_completed (k, t).
Proof.
  intros N Hin. destruct (entry_completed (k, t)) eqn:E.
  - apply existsb_exists. exists k. split; [|apply String.eqb_refl].
    apply in_map_iff. exists (k, t). split; [reflexivity|].
    apply filter_In. now split.
  - apply Bool.not_true_is_false. intros H.
    apply existsb_exists in H as (k' & Hk' & Ek). apply String.eqb_eq in Ek.
    subst k'. apply in_map_iff in Hk' as ([k1 t1] & E1 & H1). simpl in E1.
    subst k1. apply filter_In in H1 as [H1 C1].
    pose proof (In_dict_get d k t N Hin) as G.
    pose proof (In_dict_get d k t1 N H1) as G1.
    rewrite G in G1. injection G1 as <-. congruence.
Qed.

(** X4: on a store with distinct keys, [clear_completed_tasks] removes
    exactly the Completed tasks and keeps the others in their order; the
    current pointer is cleared when it names a Completed task and kept
    otherwise; a second call changes nothing. *)
Theorem clear_completed_tasks_removes_completed p :
  NoDup (keys (tasks p)) ->
  tasks (clear_completed_tasks p)
  = filter (fun kt => negb (entry_completed kt)) (tasks p)
  /\ current_task_id (clear_completed_tasks p)
     = match current_task_id p with
       | Some c =>
           match get_task c p with
           | Some t => if status_eqb (status t) COMPLETED then None else Some c
           | None => Some c
           end
       | None => None
       end
  /\ clear_completed_tasks (clear_completed_tasks p) = clear_completed_tasks p.
Proof.
  intros N. unfold clear_completed_tasks at 1 2.
  fold entry_completed.
  destruct (clear_fold_filter (map fst (filter entry_completed (tasks p))) p N)
    as [E C].
  assert (E' : tasks (fold_left clear_one
                        (map fst (filter entry_completed (tasks p))) p)
               = filter (fun kt => negb (entry_completed kt)) (tasks p)).
  { rewrite E. apply filter_ext_in. intros [k t] Hin. cbn [fst].
    now rewrite (completed_key_test _ k t N Hin). }
  split; [exact E'|]. split.
  - rewrite C. destruct (current_task_id p) as [c|]; [|reflexivity].
    unfold get_task. destruct (dict_get c (tasks p)) as [t|] eqn:G.
    + apply dict_get_In in G.
      now rewrite (completed_key_test _ c t N G).
    + apply dict_get_None in G.
      destruct (existsb _ _) eqn:X; [|reflexivity].
      apply existsb_exists in X as (k' & Hk' & Ek). apply String.eqb_eq in Ek.
      subst k'. exfalso. apply G. apply in_map_iff in Hk' as (x & Ex & Hx).
      apply filter_In in Hx as [Hx _]. unfold keys. apply in_map_iff.
      now exists x.
  - unfold clear_completed_tasks at 1. fold entry_completed.
    unfold clear_completed_tasks at 1. fold entry_completed.
    rewrite E', filter_filter_and, filter_never. reflexivity.
Qed.

Lemma clear_completed_tasks_removes_completed_witness :
  let p := snd (run [PlanTasks "add an api endpoint";
                     CompleteCurrentTask PNone; CompleteCurrentTask PNone]
                    new_planner) in
  keys (tasks (clear_completed_tasks p)) = ["task_3"; "task_4"]
  /\ current_task_id (clear_completed_tasks p) = Some "task_3".
Proof.
  cbv zeta.
  destruct (clear_completed_tasks_removes_completed
              (snd (run [PlanTasks "add an api endpoint";
                         CompleteCurrentTask PNone; CompleteCurrentTask PNone]
                        new_planner))) as (E & C & _).
  { vm_compute. repeat constructor; simpl; intuition discriminate. }
  rewrite E, C. split; reflexivity.
Defined.

(** *** [get_status_summary] *)

Lemma count_by_status (l : list Task) :
  List.length l
  = List.length (filter (fun t => status_eqb (status t) COMPLETED) l)
    + List.length (filter (fun t => status_eqb (status t) IN_PROGRESS) l)
    + List.length (filter (fun t => status_eqb (status t) PENDING) l)
    + List.length (filter (fun t => status_eqb (status t) FAILED) l).
Proof.
  induction l as [|t l IH]; [reflexivity|].
  cbn [filter List.length]. destruct (status t); cbn [status_eqb List.length]; lia.
Qed.

(** X5: in the summary the three counts and the number of Failed tasks add
    up to "total_tasks": a Failed task is counted in the total and under no
    heading. "tasks" lists one dictionary per stored task, in the order of
    the store, and "current_task" is the current pointer. *)
Theorem get_status_summary_counts p :
  let s := get_status_summary p in
  dict_get "total_tasks" s = Some (PInt (Z.of_nat (List.length (tasks p))))
  /\ dict_get "completed" s = Some (PInt (Z.of_nat (count_status COMPLETED p)))
  /\ dict_get "in_progress" s
     = Some (PInt (Z.of_nat (count_status IN_PROGRESS p)))
  /\ dict_get "pending" s = Some (PInt (Z.of_nat (count_status PENDING p)))
  /\ List.length (tasks p)
     = count_status COMPLETED p + count_status IN_PROGRESS p
       + count_status PENDING p + count_status FAILED p
  /\ dict_get "tasks" s
     = Some (PList (map (fun t => PDict (to_dict t)) (values (tasks p))))
  /\ dict_get "current_task" s
     = Some match current_task_id p with Some c => PStr c | None => PNone end.
Proof.
  cbv zeta. repeat split.
  unfold count_status. rewrite <- count_by_status. unfold values.
  now rewrite length_map.
Qed.

(** *** [Task.to_dict] and [Task.from_dict] *)

Lemma status_of_value_value s : status_of_value (PStr (status_value s)) = Some s.
Proof. now destruct s. Qed.

Lemma status_of_value_inv v s :
  status_of_value v = Some s -> v = PStr (status_value s).
Proof.
  destruct v as [| | |x| |]; try discriminate. cbn [status_of_value].
  destruct (String.eqb_spec x "pending") as [->|_]; [now intros [= <-]|].
  destruct (String.eqb_spec x "in_progress") as [->|_]; [now intros [= <-]|].
  destruct (String.eqb_spec x "completed") as [->|_]; [now intros [= <-]|].
  destruct (String.eqb_spec x "failed") as [->|_]; [now intros [= <-]|].
  discriminate.
Qed.

Lemma from_dict_to_dict t :
  from_dict (to_dict t)
  = Built {| id := id t; description := description t; status := status t;
             result := result t; error := error t;
             metadata := Some (or_empty (metadata t)) |}.
Proof.
  unfold from_dict, to_dict. cbn [dict_get String.eqb Ascii.eqb Bool.eqb].
  rewrite status_of_value_value. now destruct (error t).
Qed.

Lemma run_has_metadata cs k t :
  get_task k (snd (run cs new_planner)) = Some t -> metadata t <> None.
Proof.
  intros G.
  assert (A : Forall (fun kt => metadata (snd kt) <> None)
                (tasks (snd (run cs new_planner)))).
  { clear G. induction cs as [|c cs IH] using rev_ind; [constructor|].
    rewrite run_snd_app. set (p := snd (run cs new_planner)) in *.
    destruct c as [d m|command|k0 s r e|r|]; cbn [exec fst snd].
    - rewrite create_task_eq. cbn [snd tasks].
      apply Forall_dict_set; [discriminate | exact IH].
    - rewrite plan_tasks_template.
      pose proof (create_all_Forall (fun kt => metadata (snd kt) <> None)
                    (template_of (lower command)) p) as H.
      destruct (create_all _ p). cbn [snd tasks] in *.
      apply H; [discriminate | exact IH].
    - apply update_task_status_Forall; [now intros t0 | exact IH].
    - apply complete_current_task_Forall; [now intros k1 t1 | exact IH].
    - unfold clear_completed_tasks. now apply clear_Forall. }
  apply dict_get_In in G. rewrite Forall_forall in A. exact (A _ G).
Qed.

(** X6: [Task.from_dict] undoes [Task.to_dict] on every task of a planner:
    whatever the calls made, each stored task is read back from its
    dictionary field for field. For a task built elsewhere the only change
    is that an absent metadata comes back as an empty dictionary. *)
Theorem from_dict_to_dict_stored cs k t :
  get_task k (snd (run cs new_planner)) = Some t ->
  from_dict (to_dict t) = Built t
  /\ forall t',
       from_dict (to_dict t')
       = Built {| id := id t'; description := description t';
                  status := status t'; result := result t';
                  error := error t';
                  metadata := Some (or_empty (metadata t')) |}.
Proof.
  intros G. split; [|apply from_dict_to_dict].
  rewrite from_dict_to_dict. pose proof (run_has_metadata cs k t G) as M.
  destruct t as [i d s r e [m|]]; [reflexivity | contradiction].
Qed.

Lemma from_dict_to_dict_stored_witness :
  exists t,
    get_task "task_1"
      (snd (run [PlanTasks "rename the project";
                 UpdateTaskStatus "task_1" FAILED PNone (Some "boom")]
                new_planner)) = Some t
    /\ error t = Some "boom" /\ from_dict (to_dict t) = Built t.
Proof.
  eexists. split; [reflexivity|]. split; [reflexivity|].
  exact (proj1 (from_dict_to_dict_stored
                  [PlanTasks "rename the project";
                   UpdateTaskStatus "task_1" FAILED PNone (Some "boom")]
                  "task_1" _ eq_refl)).
Defined.

(** X7: what [Task.from_dict] builds agrees with the dictionary: id and
    description are those of the dictionary, the status is the one named
    under "status", or Pending when the key is absent, and result is the
    value under "result", or none. A dictionary without "id" raises
    [KeyError] on "id", before anything else is looked at; one with an id
    but no description raises it on "description"; and a "status" that is
    none of the four values raises [ValueError] with that value. *)
Theorem from_dict_reads_the_dictionary data :
  (forall t, from_dict data = Built t ->
     dict_get "id" data = Some (PStr (id t))
     /\ dict_get "description" data = Some (PStr (description t))
     /\ (dict_get "status" data = Some (PStr (status_value (status t)))
         \/ dict_get "status" data = None /\ status t = PENDING)
     /\ (dict_get "result" data = Some (result t)
         \/ dict_get "result" data = None /\ result t = PNone))
  /\ (dict_get "id" data = None -> from_dict data = KeyError "id")
  /\ (forall i, dict_get "id" data = Some i ->
        dict_get "description" data = None ->
        from_dict data = KeyError "description")
  /\ (forall i d v, dict_get "id" data = Some i ->
        dict_get "description" data = Some d ->
        dict_get "status" data = Some v -> status_of_value v = None ->
        from_dict data = ValueError v).
Proof.
  unfold from_dict. split; [|split; [|split]].
  - intros t. destruct (dict_get "id" data) as [i|]; [|discriminate].
    destruct (dict_get "description" data) as [d|]; [|discriminate].
    destruct (status_of_value _) as [s|] eqn:S; [|discriminate].
    destruct i as [| | |i| |]; try discriminate.
    destruct d as [| | |d| |]; try discriminate.
    destruct (match dict_get "error" data with
              | None | Some PNone => Some None
              | Some (PStr e) => Some (Some e)
              | Some _ => None
              end) as [e|]; [|discriminate].
    destruct (match dict_get "metadata" data with
              | None | Some PNone => Some None
              | Some (PDict m) => Some (Some m)
              | Some _ => None
              end) as [m|]; [|discriminate].
    intros [= <-]. cbn [id description status result].
    split; [reflexivity|]. split; [reflexivity|]. split.
    + destruct (dict_get "status" data) as [v|].
      * left. now rewrite (status_of_value_inv v s S).
      * right. split; [reflexivity|]. simpl in S. congruence.
    + destruct (dict_get "result" data); [now left | now right].
  - now intros ->.
  - now intros i -> ->.
  - intros i d v -> -> -> S. now rewrite S.
Qed.

Lemma from_dict_reads_the_dictionary_witness :
  from_dict [("description", PStr "no id")] = KeyError "id"
  /\ from_dict [("id", PStr "task_1")] = KeyError "description"
  /\ from_dict [("id", PStr "task_1"); ("description", PStr "d");
                ("status", PStr "done")] = ValueError (PStr "done")
  /\ exists t,
       from_dict [("id", PStr "task_1"); ("description", PStr "d")] = Built t
       /\ status t = PENDING.
Proof.
  split; [|split; [|split]].
  - apply (proj1 (proj2 (from_dict_reads_the_dictionary _))). reflexivity.
  - apply (proj1 (proj2 (proj2 (from_dict_reads_the_dictionary _)))
             (PStr "task_1")); reflexivity.
  - apply (proj2 (proj2 (proj2 (from_dict_reads_the_dictionary _)))
             (PStr "task_1") (PStr "d") (PStr "done")); reflexivity.
  - eexists. split; [reflexivity|].
    destruct (proj1 (from_dict_reads_the_dictionary
                       [("id", PStr "task_1"); ("description", PStr "d")])
                _ eq_refl) as (_ & _ & [H|[_ H]] & _);
      [discriminate H | exact H].
Defined.

(** *** The example loop *)

Lemma find_pending_head (l : list Task) :
  Forall (fun t => status t = PENDING) l -> find pending l = hd_error l.
Proof.
  intros A. destruct A as [|t l H _]; [reflexivity|].
  cbn [find hd_error]. unfold pending. now rewrite H.
Qed.

Lemma values_entries (l : list Task) : values (map entry l) = l.
Proof.
  unfold values. rewrite map_map. cbn [entry snd]. apply map_id.
Qed.

Lemma simulate_execution_from r planned :
  forall pre p,
    store_ok p ->
    tasks p = (pre ++ map entry planned)%list ->
    Forall (fun t => status t = PENDING) planned ->
    current_task_id p = option_map id (hd_error planned) ->
    tasks (simulate_execution r planned p)
    = (pre ++ map entry (map (completed r) planned))%list
    /\ current_task_id (simulate_execution r planned p) = None.
Proof.
  induction planned as [|t rest IH]; intros pre p S T A C.
  - cbn [simulate_execution map]. now split.
  - cbn [simulate_execution]. cbn [map hd_error option_map] in T, C.
    unfold entry at 1 in T.
    pose proof S as [N _]. rewrite T in N.
    unfold keys in N. rewrite map_app in N. cbn [map fst] in N.
    assert (Hn : ~ In (id t) (keys pre)).
    { intros H. apply (NoDup_remove_2 _ _ _ N). apply in_or_app. now left. }
    pose proof (update_task_status_store_ok (id t) IN_PROGRESS PNone None p S)
      as S1.
    pose proof (update_task_status_current (id t) IN_PROGRESS PNone None p)
      as C1.
    assert (T1 : tasks (snd (update_task_status (id t) IN_PROGRESS PNone None p))
                 = (pre ++ (id t, updated IN_PROGRESS PNone None t)
                           :: map entry rest)%list).
    { rewrite update_task_status_eq, T, (dict_get_mid_eq pre _ (id t) t Hn).
      cbn [snd tasks]. rewrite (dict_set_app_r pre _ (id t) _ Hn).
      cbn [dict_set]. now rewrite String.eqb_refl. }
    destruct (update_task_status (id t) IN_PROGRESS PNone None p) as [ok p1].
    cbn [snd] in *. rewrite C in C1.
    pose proof (complete_current_task_eq r p1 (id t) pre _ _ S1 C1 T1) as E.
    rewrite values_entries in E.
    inversion A as [|? ? Ht Ar]; subst.
    rewrite (find_pending_head rest Ar) in E.
    assert (S2 : store_ok (snd (complete_current_task r p1))).
    { apply complete_current_task_store_ok; [exact S1|].
      intros cid Hc. rewrite C1 in Hc. injection Hc as <-.
      rewrite T1, (dict_get_mid_eq pre _ (id t) _ Hn). eauto. }
    destruct (complete_current_task r p1) as [nx p2]. injection E as _ ->.
    cbn [snd] in S2.
    destruct (IH (pre ++ [entry (completed r t)])%list _ S2) as [T3 C3].
    + cbn [tasks]. rewrite <- app_assoc. reflexivity.
    + exact Ar.
    + reflexivity.
    + rewrite T3, C3. split; [|reflexivity].
      now rewrite <- app_assoc.
Qed.

(** X8: the loop of the module's example, run on what [plan_tasks] returned
    (no [clear_completed_tasks] call before): every planned task ends
    Completed with the result, in place and in order, the tasks stored
    before the plan are untouched (one still Pending is not made current
    again), and no current task is left. *)
Theorem simulate_execution_completes_the_plan cs command r :
  forallb never_clears cs = true ->
  let p := snd (run cs new_planner) in
  let (planned, p0) := plan_tasks command p in
  tasks (simulate_execution r planned p0)
  = (tasks p ++ map entry (map (completed r) planned))%list
  /\ current_task_id (simulate_execution r planned p0) = None
  /\ Forall (fun t => status t = COMPLETED /\ result t = r /\ error t = None)
            (map (completed r) planned).
Proof.
  intros H. cbv zeta.
  destruct (run_named_store cs H) as [n K].
  pose proof (plan_tasks_on_named_store command n _ K) as X.
  pose proof (plan_tasks_pending command (snd (run cs new_planner))) as A.
  destruct (plan_tasks_store_ok command (snd (run cs new_planner))
              (proj1 (run_store_ok cs))) as (S & _ & _).
  pose proof (plan_tasks_template command (snd (run cs new_planner))) as E.
  destruct (plan_tasks command (snd (run cs new_planner))) as [planned p0].
  cbn [fst snd] in *. destruct X as (T & _ & _ & _ & NE).
  assert (C : current_task_id p0 = option_map id (hd_error planned)).
  { destruct (create_all _ _) as [ts p1]. injection E as <- ->.
    destruct planned; [congruence | reflexivity]. }
  destruct (simulate_execution_from r planned (tasks (snd (run cs new_planner)))
              p0 S T) as [T' C'].
  - eapply Forall_impl; [|exact A]. now intros t (St & _).
  - exact C.
  - split; [exact T'|]. split; [exact C'|].
    apply Forall_map. apply Forall_forall. intros t _. repeat split.
Qed.

Lemma simulate_execution_completes_the_plan_witness :
  let p0 := snd (plan_tasks "add an api endpoint" new_planner) in
  let planned := fst (plan_tasks "add an api endpoint" new_planner) in
  map status (values (tasks (simulate_execution (PStr "ok") planned p0)))
  = [COMPLETED; COMPLETED; COMPLETED; COMPLETED]
  /\ current_task_id (simulate_execution (PStr "ok") planned p0) = None.
Proof.
  cbv zeta.
  pose proof (simulate_execution_completes_the_plan [] "add an api endpoint"
                (PStr "ok") eq_refl) as H.
  cbv zeta in H. cbn [run snd] in H.
  destruct (plan_tasks "add an api endpoint" new_planner) as [planned p0] eqn:E.
  cbn [fst snd]. destruct H as (T & C & _). rewrite T, C.
  apply (f_equal fst) in E. cbn [fst] in E. subst planned.
  split; reflexivity.
Defined.

(** ** More of the orchestrator *)

(** *** [estimate_complexity] *)

(** X9: [estimate_complexity] answers "low", "medium", "high" or "unknown",
    does not depend on the case of the description, and answers "low" as
    soon as one of "simple", "add", "update", "fix" occurs in the
    lower-cased description, whatever else occurs in it. *)
Theorem estimate_complexity_levels description :
  In (estimate_complexity description) ["low"; "medium"; "high"; "unknown"]
  /\ estimate_complexity (lower description) = estimate_complexity description
  /\ (forall word,
        In word ["simple"; "add"; "update"; "fix"] ->
        contains word (lower description) = true ->
        estimate_complexity description = "low").
Proof.
  unfold estimate_complexity. rewrite lower_idempotent.
  split; [|split; [reflexivity|]].
  - destruct (existsb _ ["simple"; "add"; "update"; "fix"]);
      [simpl; tauto|].
    destruct (existsb _ ["implement"; "create"; "refactor"]); [simpl; tauto|].
    destruct (existsb _ ["rewrite"; "migrate"; "redesign"]); simpl; tauto.
  - intros word Hin Hc.
    assert (E : existsb (fun word => contains word (lower description))
                        ["simple"; "add"; "update"; "fix"] = true).
    { apply existsb_exists. now exists word. }
    now rewrite E.
Qed.

Lemma estimate_complexity_levels_witness :
  estimate_complexity "Fix the bug, then REWRITE the parser" = "low"
  /\ estimate_complexity "migrate the database" = "high".
Proof.
  split; [|reflexivity].
  apply (proj2 (proj2 (estimate_complexity_levels
                         "Fix the bug, then REWRITE the parser")) "fix").
  - simpl. tauto.
  - reflexivity.
Defined.

(** *** [process_command] *)

Section CommandFacts.

Variable now : nat -> string.
Variable work : nat -> outcome.
Variable recursion_error : string.
Variable console : Console.

Lemma get_status_idle a :
  task_queue a = [] -> current_task a = None -> get_status a = Some "ready".
Proof. unfold get_status. now intros -> ->. Qed.

Lemma process_command_eq room command a w :
  process_command now work recursion_error console room command a w
  = if truthy (current_task a)
    then (command_queued now command a w, tick (tick w),
          print_error console (queued_notice command))
    else process_next_task now work recursion_error room
           (command_queued now command a w) (tick (tick w)).
Proof. reflexivity. Qed.


End CommandFacts.


(** *** Sessions *)

Lemma count_type_app ty (h1 h2 : list record) :
  count_type ty (h1 ++ h2)%list = count_type ty h1 + count_type ty h2.
Proof. unfold count_type. now rewrite filter_app, length_app. Qed.

Lemma task_events_app evs1 evs2 :
  task_events evs1 -> task_events evs2 -> task_events (evs1 ++ evs2)%list.
Proof.
  intros [U1 L1] [U2 L2]. unfold task_events.
  rewrite !count_type_app, length_app. lia.
Qed.

Lemma count_type_user_input ty ts command evs :
  count_type ty (user_input_event ts command :: evs)
  = (if String.eqb "user_input" ty then 1 else 0) + count_type ty evs.
Proof.
  unfold count_type, has_type. cbn [filter].
  change (dict_get "type" (user_input_event ts command))
    with (Some (PStr "user_input")).
  now destruct (String.eqb "user_input" ty).
Qed.

Section SessionFacts.

Variable now : nat -> string.
Variable work : nat -> outcome.
Variable recursion_error : string.
Variable console : Console.

Lemma run_task_events task rest a w :
  exists evs,
    history (fst (run_task now work task rest a w)) = (history a ++ evs)%list
    /\ running (fst (run_task now work task rest a w)) = running a
    /\ task_events evs
    /\ (running a = true
        -> 1 <= count_type "task_completed" evs + count_type "task_failed" evs).
Proof.
  rewrite run_task_eq. cbv zeta. unfold after_task.
  destruct (work (S (clock w))) as [|e|e|e];
    destruct (dict_get "description" task);
    destruct (running a);
    cbn [fst history running];
    eexists; (split; [try reflexivity; symmetry; apply app_nil_r|]);
    (split; [reflexivity|]); split; try (split; reflexivity);
    try (intros _; cbn; lia); try discriminate.
Qed.

Lemma process_queue_events room : forall queue a w,
  exists evs,
    history (fst (fst (process_queue now work recursion_error room queue a w)))
    = (history a ++ evs)%list
    /\ running (fst (fst (process_queue now work recursion_error room queue a w)))
       = running a
    /\ task_events evs
    /\ (running a = true
        -> Nat.min room (List.length queue)
           <= count_type "task_completed" evs + count_type "task_failed" evs).
Proof.
  induction room as [|room IH]; intros queue a w; cbn [process_queue].
  - exists []. cbn [fst]. rewrite app_nil_r. repeat split. intros _. cbn. lia.
  - destruct queue as [|task rest].
    + exists []. cbn [fst set_current history running]. rewrite app_nil_r.
      repeat split. intros _. cbn. lia.
    + destruct (run_task_events task rest a w) as (e1 & H1 & R1 & T1 & G1).
      destruct (run_task now work task rest a w) as [a1 w1]. cbn [fst] in *.
      destruct (IH rest a1 w1) as (e2 & H2 & R2 & T2 & G2).
      exists (e1 ++ e2)%list. rewrite H2, H1, R2, R1, app_assoc.
      split; [reflexivity|]. split; [reflexivity|].
      split; [now apply task_events_app|].
      intros R. rewrite R in R1. specialize (G1 R). specialize (G2 R1).
      rewrite !count_type_app. cbn [List.length]. lia.
Qed.

Lemma process_command_events room command a w :
  exists evs,
    history (fst (fst (process_command now work recursion_error console room command a w)))
    = (history a ++ user_input_event (now (clock w)) command :: evs)%list
    /\ running (fst (fst (process_command now work recursion_error console room
                            command a w))) = running a
    /\ task_events evs
    /\ (truthy (current_task a) = false ->
        List.length (task_queue a) + 1 < room ->
        current_task (fst (fst (process_command now work recursion_error console room
                                  command a w))) = None
        /\ task_queue (fst (fst (process_command now work recursion_error console room
                                   command a w))) = []
        /\ (running a = true
            -> 1 <= count_type "task_completed" evs
                    + count_type "task_failed" evs)).
Proof.
  rewrite process_command_eq. destruct (truthy (current_task a)) eqn:T.
  - exists []. cbn [fst command_queued history running].
    repeat split; discriminate.
  - unfold process_next_task.
    set (b := command_queued now command a w).
    assert (Lb : List.length (task_queue b) = List.length (task_queue a) + 1).
    { unfold b. cbn [command_queued task_queue]. rewrite length_app.
      reflexivity. }
    destruct (process_queue_events room (task_queue b) b (tick (tick w)))
      as (evs & H & R & E & G).
    pose proof (process_queue_drains now work recursion_error room
                  (task_queue b) b (tick (tick w)) eq_refl) as D.
    destruct (process_queue now work recursion_error room _ _ _)
      as [[a' w'] escaped]. cbn [fst] in *.
    exists evs. rewrite H, R. unfold b at 1 2. cbn [command_queued history running].
    rewrite <- app_assoc. split; [reflexivity|]. split; [reflexivity|].
    split; [exact E|]. intros _ L.
    destruct D as (_ & Q & C & _); [lia|].
    split; [exact C|]. split; [exact Q|].
    intros Ru. unfold b in G at 1. cbn [command_queued running] in G.
    specialize (G Ru). lia.
Qed.

Lemma process_commands_blocks room commands : forall a w,
  truthy (current_task a) = false ->
  List.length (task_queue a) + 1 < room ->
  exists blocks,
    history (fst (process_commands now work recursion_error console room commands a w))
    = (history a ++ List.concat blocks)%list
    /\ Forall2 (command_block (running a)) commands blocks.
Proof.
  induction commands as [|c r IH]; intros a w T L.
  - exists []. cbn [process_commands fst List.concat]. rewrite app_nil_r.
    split; [reflexivity | constructor].
  - cbn [process_commands].
    destruct (process_command_events room c a w) as (evs & H & R & E & G).
    destruct (G T L) as (C & Q & G1).
    destruct (process_command now work recursion_error console room c a w)
      as [[a1 w1] escaped]. cbn [fst] in *.
    destruct (IH a1 (handled escaped w1)) as (blocks & H2 & F2).
    { now rewrite C. }
    { rewrite Q. cbn [List.length]. lia. }
    exists ((user_input_event (now (clock w)) c :: evs) :: blocks).
    cbn [List.concat]. rewrite H2, H, <- !app_assoc. split; [reflexivity|].
    constructor; [|now rewrite <- R].
    exists (now (clock w)), evs. split; [reflexivity|].
    split; [exact E | exact G1].
Qed.

Lemma command_blocks_counts running commands blocks :
  Forall2 (command_block running) commands blocks ->
  count_type "user_input" (List.concat blocks) = List.length commands
  /\ List.length (List.concat blocks)
     = List.length commands + count_type "task_completed" (List.concat blocks)
       + count_type "task_failed" (List.concat blocks)
  /\ (running = true ->
      List.length commands
      <= count_type "task_completed" (List.concat blocks)
         + count_type "task_failed" (List.concat blocks)).
Proof.
  induction 1 as [|c b cs bs (ts & evs & -> & [U L] & G) _ (IU & IL & IG)].
  - repeat split. intros _. cbn. lia.
  - cbn [List.concat List.length].
    change (user_input_event ts c :: evs ++ List.concat bs)%list
      with ((user_input_event ts c :: evs) ++ List.concat bs)%list.
    rewrite !count_type_app, !count_type_user_input, length_app.
    cbn [String.eqb Ascii.eqb Bool.eqb List.length].
    split; [lia|]. split; [lia|]. intros Ru.
    specialize (G Ru). specialize (IG Ru). lia.
Qed.


(** X12: the history only grows, by at least one event per command, and
    [create_task] numbers a task by its length: the tasks that
    [process_command] builds for two commands of a session, whatever
    commands come between them, have different ids. *)
Theorem process_commands_fresh_ids room first between last a w :
  let '(a1, w1, escaped) :=
    process_command now work recursion_error console room first a w in
  let (a2, w2) :=
    process_commands now work recursion_error console room between a1
      (handled escaped w1) in
  (exists later,
     history a2 = (history a ++ later)%list
     /\ S (List.length between) <= List.length later)
  /\ id_of (command_task now last a2 w2) <> id_of (command_task now first a w)
  /\ id_of (command_task now first a w)
     = Some (PStr ("task_" ++ str_of_nat (List.length (history a) + 2))).
Proof.
  destruct (process_command_events room first a w) as (evs & H & _).
  destruct (process_command now work recursion_error console room first a w)
    as [[a1 w1] escaped]. cbn [fst] in H.
  set (v1 := handled escaped w1). clearbody v1.
  assert (G : exists later,
            history (fst (process_commands now work recursion_error console room
                            between a1 v1))
            = (history a1 ++ later)%list
            /\ List.length between <= List.length later).
  { clear H. revert a1 v1. induction between as [|c r IH]; intros a1 v1.
    - exists []. cbn [process_commands fst]. rewrite app_nil_r. now split.
    - cbn [process_commands].
      destruct (process_command_events room c a1 v1) as (e & Hc & _).
      destruct (process_command now work recursion_error console room c a1 v1)
        as [[a2 w2] esc]. cbn [fst] in Hc.
      destruct (IH a2 (handled esc w2)) as (l & Hl & Ll).
      exists (user_input_event (now (clock v1)) c :: e ++ l)%list.
      rewrite Hl, Hc, <- app_assoc. split; [reflexivity|].
      cbn [List.length]. rewrite length_app. lia. }
  destruct (process_commands now work recursion_error console room between a1 v1)
    as [a2 w2].
  cbn [fst] in G. destruct G as (later & H2 & L2).
  assert (E : forall c b v,
            id_of (command_task now c b v)
            = Some (PStr (task_name (List.length (history b) + 2)))).
  { intros c b v. unfold id_of, command_task.
    cbn [Orchestrator.create_task fst set_history history dict_get
         String.eqb Ascii.eqb Bool.eqb].
    rewrite length_app. cbn [List.length].
    now replace (List.length (history b) + 1 + 1)
      with (List.length (history b) + 2) by lia. }
  split; [|split; [|apply E]].
  - exists (user_input_event (now (clock w)) first :: evs ++ later)%list.
    rewrite H2, H, <- app_assoc. split; [reflexivity|].
    cbn [List.length]. rewrite length_app. lia.
  - rewrite !E. intros X. injection X as X. apply str_of_nat_inj in X.
    rewrite H2, H, !length_app in X. cbn [List.length] in X. lia.
Qed.

End SessionFacts.


(** *** One turn of the loop of [start] *)

Lemma existsb_eqb_In x l : existsb (String.eqb x) l = true <-> In x l.
Proof.
  rewrite existsb_exists. split.
  - intros (y & Hy & E). apply String.eqb_eq in E. now subst.
  - intros H. exists x. split; [exact H | apply String.eqb_refl].
Qed.

Lemma existsb_eqb_not_In x l : existsb (String.eqb x) l = false <-> ~ In x l.
Proof.
  rewrite <- existsb_eqb_In. destruct (existsb (String.eqb x) l); split;
    congruence.
Qed.

Lemma queued_rows_none queue : forall i,
  queued_rows i queue = None
  <-> Exists (fun task => description_of task = None) queue.
Proof.
  induction queue as [|task r IH]; intros i; cbn [queued_rows].
  - split; [discriminate | intros H; inversion H].
  - rewrite Exists_cons, <- (IH (S i)).
    destruct (description_of task) as [d|]; [|tauto].
    destruct (queued_rows (S i) r); split; try discriminate; try tauto.
    intros [H|H]; discriminate.
Qed.

Lemma show_status_none a :
  show_status a = None
  <-> Exists (fun task => description_of task = None) (shown_tasks a).
Proof.
  unfold show_status, shown_tasks. rewrite Exists_app.
  pose proof (queued_rows_none (firstn 5 (task_queue a)) 1) as Q.
  destruct (queued_rows 1 (firstn 5 (task_queue a))) as [q|];
    destruct (current_task a) as [[|kv t]|]; cbv beta iota;
    rewrite ?Exists_cons, ?Exists_nil;
    try destruct (description_of (kv :: t));
    intuition discriminate.
Qed.

Section TurnFacts.

Variable now : nat -> string.
Variable work : nat -> outcome.
Variable recursion_error : string.
Variable console : Console.

Lemma rows_error_taken tasks :
  cells_taken console tasks ->
  rows_error console tasks
  = match find (fun task => match description_of task with
                            | None => true
                            | Some _ => false
                            end) tasks with
    | Some _ => Some "'description'"
    | None => None
    end.
Proof.
  induction 1 as [|task r H _ IH]; cbn [rows_error find]; [reflexivity|].
  destruct (description_of task) as [d|]; [|reflexivity].
  now rewrite (H d eq_refl).
Qed.

Lemma show_status_error_taken a :
  cells_taken console (shown_tasks a) ->
  show_status_error console a
  = match show_status a with
    | None => Some "'description'"
    | Some rows => table_error console rows
    end.
Proof.
  intros Ht. unfold show_status_error. rewrite (rows_error_taken _ Ht).
  destruct (find _ (shown_tasks a)) as [task|] eqn:F; [|reflexivity].
  apply find_some in F as [Hin Hd].
  assert (E : show_status a = None).
  { apply show_status_none, Exists_exists. exists task. split; [exact Hin|].
    now destruct (description_of task). }
  now rewrite E.
Qed.


End TurnFacts.


(** *** [show_status] *)

Lemma queued_rows_spec queue : forall i rows,
  queued_rows i queue = Some rows ->
  List.length rows = List.length queue
  /\ map (fun row => Some (snd row)) rows = map description_of queue.
Proof.
  induction queue as [|task r IH]; intros i rows; cbn [queued_rows].
  - intros [= <-]. now split.
  - destruct (description_of task) as [d|] eqn:D; [|discriminate].
    destruct (queued_rows (S i) r) as [rows'|] eqn:Q; [|discriminate].
    intros [= <-]. destruct (IH _ _ Q) as [L M]. cbn [List.length map snd].
    now rewrite L, M, D.
Qed.

(** X14: the table of [show_status] has one row for the current task, if
    any, one row for each of the first five queued tasks, in the order of
    the queue and with their descriptions, and one more row when more than
    five tasks are queued: at most seven rows. *)
Theorem show_status_rows a rows :
  show_status a = Some rows ->
  let shown_current := if truthy (current_task a) then 1 else 0 in
  List.length rows
  = shown_current + Nat.min 5 (List.length (task_queue a))
    + (if Nat.ltb 5 (List.length (task_queue a)) then 1 else 0)
  /\ List.length rows <= 7
  /\ map (fun row => Some (snd row))
         (firstn (Nat.min 5 (List.length (task_queue a)))
                 (skipn shown_current rows))
     = map description_of (firstn 5 (task_queue a)).
Proof.
  unfold show_status. intros H. cbv zeta.
  assert (Sh : forall c q : list (string * pyval),
            List.length c = (if truthy (current_task a) then 1 else 0) ->
            queued_rows 1 (firstn 5 (task_queue a)) = Some q ->
            Some (c ++ q
                  ++ (if Nat.ltb 5 (List.length (task_queue a))
                      then [("[dim]...[/dim]",
                             PStr ("[dim]and "
                                   ++ str_of_nat
                                        (List.length (task_queue a) - 5)
                                   ++ " more tasks[/dim]"))]
                      else []))%list = Some rows ->
            List.length rows
            = (if truthy (current_task a) then 1 else 0)
              + Nat.min 5 (List.length (task_queue a))
              + (if Nat.ltb 5 (List.length (task_queue a)) then 1 else 0)
            /\ List.length rows <= 7
            /\ map (fun row => Some (snd row))
                   (firstn (Nat.min 5 (List.length (task_queue a)))
                           (skipn (if truthy (current_task a) then 1 else 0)
                                  rows))
               = map description_of (firstn 5 (task_queue a))).
  { intros c q Lc Q R. injection R as <-.
    destruct (queued_rows_spec _ _ _ Q) as [L M].
    rewrite length_firstn in L. rewrite !length_app, Lc, L.
    split; [|split].
    - destruct (Nat.ltb 5 _); cbn [List.length]; lia.
    - destruct (truthy (current_task a)); destruct (Nat.ltb 5 _);
        cbn [List.length]; lia.
    - rewrite <- Lc, skipn_app, skipn_all, Nat.sub_diag. cbn [skipn app].
      rewrite <- L, firstn_app, firstn_all, Nat.sub_diag. cbn [firstn].
      now rewrite app_nil_r. }
  destruct (queued_rows 1 (firstn 5 (task_queue a))) as [q|] eqn:Q.
  - destruct (current_task a) as [[|kv t]|]; cbn [truthy] in *.
    + now apply (Sh [] q).
    + destruct (description_of (kv :: t)) as [d|]; [|discriminate].
      now apply (Sh [("[yellow]In Progress[/yellow]", d)] q).
    + now apply (Sh [] q).
  - destruct (current_task a) as [[|kv t]|]; try discriminate.
    destruct (description_of (kv :: t)); discriminate.
Qed.

Lemma show_status_rows_witness :
  let task n := [("description", PStr (str_of_nat n))] in
  let a := {| running := true; current_task := Some (task 0);
              task_queue := map task (seq 1 8); history := [] |} in
  exists rows,
    show_status a = Some rows /\ List.length rows = 7
    /\ nth_error rows 6
       = Some ("[dim]...[/dim]", PStr "[dim]and 3 more tasks[/dim]").
Proof.
  cbv zeta. eexists. split; [reflexivity|].
  split; [|reflexivity].
  refine (proj1 (show_status_rows
                   {| running := true;
                      current_task := Some [("description", PStr (str_of_nat 0))];
                      task_queue :=
                        map (fun n => [("description", PStr (str_of_nat n))])
                            (seq 1 8);
                      history := [] |} _ eq_refl)).
Defined.

(** ** The mock IDE *)

Section FileFacts.

Context {T : Type}.
Variable relpath : string -> string -> string.

(** X15: what [save_file] stores is what [get_file_content] returns, under
    the path given and under every path that names the same file relative
    to the workspace; the content of the other files, the open files and
    the current file are unchanged, and the call returns true. *)
Theorem save_file_then_get_file_content (t : T) path content (ide : IDE T) :
  let (ok, ide') := save_file relpath t path content ide in
  ok = true
  /\ (forall other,
        relative relpath ide other = relative relpath ide path ->
        get_file_content relpath other ide' = Some (PStr content))
  /\ (forall other,
        relative relpath ide other <> relative relpath ide path ->
        get_file_content relpath other ide'
        = get_file_content relpath other ide)
  /\ open_files ide' = open_files ide /\ current_file ide' = current_file ide.
Proof.
  unfold save_file, get_file_content, relative. cbn [write workspace_root files].
  split; [reflexivity|]. split; [|split; [|split; reflexivity]].
  - intros other ->. apply dict_get_set_eq.
  - intros other H. apply dict_get_set_ne. congruence.
Qed.

Lemma relative_root (ide ide' : IDE T) f :
  workspace_root ide' = workspace_root ide ->
  relative relpath ide' f = relative relpath ide f.
Proof. unfold relative. now intros ->. Qed.

Lemma written_path_root (ide ide' : IDE T) change :
  workspace_root ide' = workspace_root ide ->
  written_path relpath ide' change = written_path relpath ide change.
Proof.
  intros H. unfold written_path.
  destruct (dict_get "file" change) as [[| | |f| |]|]; try reflexivity.
  destruct (dict_get "content" change); [|reflexivity].
  destruct (String.eqb f ""); [reflexivity|].
  now rewrite (relative_root ide ide' f H).
Qed.

Lemma apply_each_ok time changes : forall n (ide : IDE T),
  forallb file_ok changes = true ->
  exists ide',
    apply_each relpath time n changes ide = (Some tt, ide')
    /\ workspace_root ide' = workspace_root ide
    /\ open_files ide' = open_files ide
    /\ current_file ide' = current_file ide
    /\ forall k,
         Forall (fun change => written_path relpath ide change <> Some k)
                changes ->
         dict_get k (files ide') = dict_get k (files ide).
Proof.
  induction changes as [|change r IH]; intros n ide Hok.
  - exists ide. cbn [apply_each]. repeat split.
  - cbn [forallb] in Hok. apply andb_prop in Hok as [Hc Hr].
    cbn [apply_each]. unfold file_ok in Hc.
    assert (Skip : forall m,
              exists ide',
                apply_each relpath time m r ide = (Some tt, ide')
                /\ workspace_root ide' = workspace_root ide
                /\ open_files ide' = open_files ide
                /\ current_file ide' = current_file ide
                /\ forall k,
                     Forall (fun change =>
                               written_path relpath ide change <> Some k)
                            (change :: r) ->
                     dict_get k (files ide') = dict_get k (files ide)).
    { intros m. destruct (IH m ide Hr) as (ide' & E & R & O & C & K).
      exists ide'. repeat split; try assumption.
      intros k F. apply K. now inversion F. }
    destruct (dict_get "file" change) as [v|] eqn:F; [|now apply Skip].
    destruct v as [|b|z|f|l|d]; cbn [py_truthy] in Hc;
      try (apply negb_true_iff in Hc; rewrite ?Hc).
    + now apply Skip.
    + now apply Skip.
    + cbn [py_truthy]. rewrite Hc. now apply Skip.
    + destruct (String.eqb f "") eqn:Ef; [now apply Skip|].
      destruct (dict_get "content" change) as [c|] eqn:Ec; [|now apply Skip].
      destruct (IH (S n) (write (relative relpath ide f) c (time n) ide) Hr)
        as (ide' & E & R & O & C & K).
      exists ide'. split; [exact E|]. split; [exact R|].
      split; [exact O|]. split; [exact C|].
      intros k Fk. inversion Fk as [|? ? Hk Hrest]; subst.
      unfold written_path in Hk. rewrite F, Ec, Ef in Hk.
      rewrite K.
      * cbn [write files]. apply dict_get_set_ne. congruence.
      * eapply Forall_impl; [|exact Hrest]. intros ch Hch.
        now rewrite (written_path_root ide _ ch).
    + cbn [py_truthy]. destruct l; [now apply Skip | discriminate].
    + cbn [py_truthy]. destruct d; [now apply Skip | discriminate].
Qed.

Lemma apply_each_last_write time before : forall n (ide : IDE T) change f c after,
  forallb file_ok (before ++ change :: after) = true ->
  dict_get "file" change = Some (PStr f) -> f <> "" ->
  dict_get "content" change = Some c ->
  Forall (fun ch => written_path relpath ide ch
                    <> Some (relative relpath ide f)) after ->
  exists ide',
    apply_each relpath time n (before ++ change :: after) ide = (Some tt, ide')
    /\ workspace_root ide' = workspace_root ide
    /\ dict_get (relative relpath ide f) (files ide') = Some c.
Proof.
  induction before as [|b r IH]; intros n ide change f c after Hok F NE C A.
  - cbn [app] in *. cbn [forallb] in Hok. apply andb_prop in Hok as [_ Hr].
    cbn [apply_each]. rewrite F, C.
    destruct (String.eqb_spec f "") as [|_]; [contradiction|].
    destruct (apply_each_ok time after (S n)
                (write (relative relpath ide f) c (time n) ide) Hr)
      as (ide' & E & R & _ & _ & K).
    exists ide'. split; [exact E|]. split; [exact R|].
    rewrite K; [cbn [write files]; apply dict_get_set_eq|].
    eapply Forall_impl; [|exact A]. intros ch Hch.
    now rewrite (written_path_root ide _ ch).
  - change ((b :: r) ++ change :: after)%list
      with (b :: (r ++ change :: after))%list in *.
    cbn [forallb] in Hok. apply andb_prop in Hok as [Hb Hr].
    cbn [apply_each]. unfold file_ok in Hb.
    assert (Go : forall m (ide1 : IDE T),
              workspace_root ide1 = workspace_root ide ->
              exists ide',
                apply_each relpath time m (r ++ change :: after) ide1
                = (Some tt, ide')
                /\ workspace_root ide' = workspace_root ide
                /\ dict_get (relative relpath ide f) (files ide') = Some c).
    { intros m ide1 R1.
      destruct (IH m ide1 change f c after Hr F NE C) as (ide' & E & R & G).
      - eapply Forall_impl; [|exact A]. intros ch Hch.
        now rewrite (written_path_root ide ide1 ch R1),
                    (relative_root ide ide1 f R1).
      - exists ide'. split; [exact E|]. split; [congruence|].
        now rewrite <- (relative_root ide ide1 f R1). }
    destruct (dict_get "file" b) as [v|]; [|now apply Go].
    destruct v as [|x|z|g|l|d]; cbn [py_truthy] in Hb;
      try (apply negb_true_iff in Hb; rewrite ?Hb).
    + now apply Go.
    + now apply Go.
    + cbn [py_truthy]. rewrite Hb. now apply Go.
    + destruct (String.eqb g ""); [now apply Go|].
      destruct (dict_get "content" b); now apply Go.
    + cbn [py_truthy]. destruct l; [now apply Go | discriminate].
    + cbn [py_truthy]. destruct d; [now apply Go | discriminate].
Qed.

(** X16: [apply_changes] returns false on an empty list and changes
    nothing. On a non-empty list of changes whose 'file' is absent, falsy
    or a [str] it returns true, also when no change is written, and leaves
    the open files and the current file alone; and the content of a file is
    that of the last change written to it: after a change with a non-empty
    'file' [f] and a 'content' [c], followed by no change written to the
    same file, [get_file_content f] is [c]. *)
Theorem apply_changes_last_write_wins time (ide : IDE T) :
  apply_changes relpath time [] ide = (Some false, ide)
  /\ (forall changes,
        changes <> [] -> forallb file_ok changes = true ->
        fst (apply_changes relpath time changes ide) = Some true
        /\ open_files (snd (apply_changes relpath time changes ide))
           = open_files ide
        /\ current_file (snd (apply_changes relpath time changes ide))
           = current_file ide)
  /\ (forall before change after f c,
        forallb file_ok (before ++ change :: after) = true ->
        dict_get "file" change = Some (PStr f) -> f <> "" ->
        dict_get "content" change = Some c ->
        Forall (fun ch => written_path relpath ide ch
                          <> Some (relative relpath ide f)) after ->
        get_file_content relpath f
          (snd (apply_changes relpath time (before ++ change :: after) ide))
        = Some c).
Proof.
  split; [reflexivity|]. split.
  - intros changes NE Hok. unfold apply_changes.
    destruct changes as [|ch r]; [congruence|].
    destruct (apply_each_ok time (ch :: r) 0 ide Hok) as (ide' & E & _ & O & C & _).
    rewrite E. cbn [fst snd]. now repeat split.
  - intros before change after f c Hok F NE C A. unfold apply_changes.
    destruct (apply_each_last_write time before 0 ide change f c after
                Hok F NE C A) as (ide' & E & R & G).
    destruct (before ++ change :: after)%list as [|x l] eqn:L.
    { destruct before; discriminate. }
    rewrite E. cbn [snd]. unfold get_file_content.
    now rewrite (relative_root ide ide' f R).
Qed.

End FileFacts.

Lemma save_file_then_get_file_content_witness :
  let ide' := snd (save_file example_relpath 7 "/ws/src/a.py" "print(1)"
                             example_ide) in
  relative example_relpath example_ide "src/a.py"
  = relative example_relpath example_ide "/ws/src/a.py"
  /\ get_file_content example_relpath "src/a.py" ide' = Some (PStr "print(1)")
  /\ get_file_content example_relpath "src/b.py" ide' = None.
Proof.
  cbv zeta.
  pose proof (save_file_then_get_file_content example_relpath 7 "/ws/src/a.py"
                "print(1)" example_ide) as H.
  destruct (save_file example_relpath 7 "/ws/src/a.py" "print(1)" example_ide)
    as [ok ide'].
  destruct H as (_ & Same & Other & _). cbn [snd].
  split; [reflexivity|]. split.
  - apply Same. reflexivity.
  - rewrite Other; [reflexivity|]. vm_compute. discriminate.
Defined.

Lemma apply_changes_last_write_wins_witness :
  let changes := [[("file", PStr "a.py"); ("content", PStr "old")];
                  [("content", PStr "no file")];
                  [("file", PStr "a.py"); ("content", PStr "new")];
                  [("file", PStr "b.py")]] in
  forallb file_ok changes = true
  /\ fst (apply_changes example_relpath (fun n => n) changes example_ide)
     = Some true
  /\ get_file_content example_relpath "a.py"
       (snd (apply_changes example_relpath (fun n => n) changes example_ide))
     = Some (PStr "new").
Proof.
  cbv zeta. split; [reflexivity|].
  destruct (apply_changes_last_write_wins example_relpath (fun n => n)
              example_ide) as (_ & Ok & Last).
  split.
  - apply Ok; [discriminate | reflexivity].
  - apply (Last [[("file", PStr "a.py"); ("content", PStr "old")];
                 [("content", PStr "no file")]]
                [("file", PStr "a.py"); ("content", PStr "new")]
                [[("file", PStr "b.py")]] "a.py" (PStr "new"));
      try reflexivity; [discriminate|].
    repeat constructor. vm_compute. discriminate.
Defined.

(** *** Open files *)

Lemma open_file_files {T : Type} f (ide : IDE T) :
  open_files (snd (open_file f ide))
  = if existsb (String.eqb f) (open_files ide)
    then open_files ide else (open_files ide ++ [f])%list.
Proof. reflexivity. Qed.

Lemma open_all_spec {T : Type} paths : forall (ide : IDE T),
  NoDup (open_files ide) ->
  NoDup (open_files (open_all paths ide))
  /\ (exists added, open_files (open_all paths ide)
                    = (open_files ide ++ added)%list)
  /\ (forall f, In f (open_files (open_all paths ide))
                <-> In f (open_files ide) \/ In f paths)
  /\ current_file (open_all paths ide)
     = match rev paths with [] => current_file ide | f :: _ => Some f end.
Proof.
  induction paths as [|p r IH] using rev_ind; intros ide N.
  - cbn [open_all fold_left rev]. split; [exact N|].
    split; [exists []; now rewrite app_nil_r|]. split; [|reflexivity].
    intros f. simpl. tauto.
  - unfold open_all in *. rewrite fold_left_app. cbn [fold_left].
    destruct (IH ide N) as (N1 & (added & A) & M & _).
    set (ide1 := fold_left (fun ide f => snd (open_file f ide)) r ide) in *.
    rewrite rev_app_distr. cbn [rev app].
    rewrite open_file_files.
    destruct (existsb (String.eqb p) (open_files ide1)) eqn:X.
    + apply existsb_eqb_In in X. split; [exact N1|].
      split; [now exists added|]. split; [|reflexivity].
      intros f. rewrite M, in_app_iff. simpl. split; [tauto|].
      intros [H|[H|[<-|[]]]]; try tauto. now apply M.
    + assert (Hp : ~ In p (open_files ide1)).
      { intros H. apply existsb_eqb_In in H. congruence. }
      split; [|split; [|split; [|reflexivity]]].
      * apply NoDup_app; repeat split; auto.
        -- constructor; [simpl; tauto | constructor].
        -- intros x Hx [<-|[]]. contradiction.
      * exists (added ++ [p])%list. now rewrite A, app_assoc.
      * intros f. rewrite !in_app_iff, M. simpl. tauto.
Qed.

(** X17: [open_file] never lists a file twice: after any sequence of
    [open_file] calls on an IDE whose open files are distinct, the open
    files are distinct, the files open before come first and in the same
    order, a file is open exactly when it was open before or was opened by
    one of the calls, the current file is the one opened last, and
    [get_open_files] has one entry per open file. Opening the same file
    again changes nothing. *)
Theorem open_file_keeps_open_files_distinct {T : Type} paths (ide : IDE T) :
  NoDup (open_files ide) ->
  NoDup (open_files (open_all paths ide))
  /\ (exists added, open_files (open_all paths ide)
                    = (open_files ide ++ added)%list)
  /\ (forall f, In f (open_files (open_all paths ide))
                <-> In f (open_files ide) \/ In f paths)
  /\ current_file (open_all paths ide)
     = match rev paths with [] => current_file ide | f :: _ => Some f end
  /\ map (dict_get "path") (get_open_files (open_all paths ide))
     = map (fun f => Some (PStr f)) (open_files (open_all paths ide))
  /\ forall f, snd (open_file f (snd (open_file f ide)))
               = snd (open_file f ide).
Proof.
  intros N. destruct (open_all_spec paths ide N) as (H1 & H2 & H3 & H4).
  split; [exact H1|]. split; [exact H2|]. split; [exact H3|].
  split; [exact H4|]. split.
  - unfold get_open_files. rewrite map_map. reflexivity.
  - intros f. unfold open_file. cbn [snd open_files workspace_root files
      last_modified current_file current_position].
    destruct (existsb (String.eqb f) (open_files ide)) eqn:X.
    + now rewrite X.
    + rewrite existsb_app. cbn [existsb]. rewrite String.eqb_refl.
      now rewrite orb_true_r.
Qed.

Lemma open_file_keeps_open_files_distinct_witness :
  NoDup (open_files example_ide)
  /\ open_files (open_all ["a.py"; "b.py"; "a.py"] example_ide)
     = ["a.py"; "b.py"]
  /\ current_file (open_all ["a.py"; "b.py"; "a.py"] example_ide)
     = Some "a.py".
Proof.
  assert (N : NoDup (open_files example_ide)) by constructor.
  split; [exact N|].
  destruct (open_file_keeps_open_files_distinct ["a.py"; "b.py"; "a.py"]
              example_ide N) as (_ & _ & _ & C & _).
  split; [reflexivity | exact C].
Defined.

(** *** [send_instruction] *)

Lemma nth_mod_In (pick : nat) (l : list string) :
  l <> [] -> In (nth (Nat.modulo pick (List.length l)) l "") l.
Proof.
  intros NE. apply nth_In. apply Nat.mod_upper_bound.
  destruct l; [congruence | discriminate].
Qed.

Lemma responses_for_nonempty intent : responses_for intent <> [].
Proof.
  unfold responses_for, mock_responses. cbn [dict_get].
  repeat (match goal with
          | |- context [String.eqb ?a intent] => destruct (String.eqb a intent)
          end; [discriminate|]).
  discriminate.
Qed.

(** X18: the reply of [send_instruction] always reports success and no
    changes; its intent is one of "fix", "create", "refactor", "test",
    "debug" and "general", read from the lower-cased instruction with "fix",
    "correct" and "resolve" tried first, and its response is one of the
    canned answers for that intent. [apply_changes] on the changes of a
    reply returns false. *)
Theorem send_instruction_reply {T : Type} relpath (time : nat -> T)
    (ide : IDE T) pick processing_time timestamp instruction :
  let reply := send_instruction pick processing_time timestamp instruction in
  dict_get "success" reply = Some (PBool true)
  /\ dict_get "changes" reply = Some (PList [])
  /\ apply_changes relpath time [] ide = (Some false, ide)
  /\ dict_get "metadata" reply
     = Some (PDict [("intent", PStr (intent_of instruction));
                    ("processing_time", processing_time);
                    ("timestamp", timestamp)])
  /\ In (intent_of instruction)
        ["fix"; "create"; "refactor"; "test"; "debug"; "general"]
  /\ intent_of (lower instruction) = intent_of instruction
  /\ (forall word, In word ["fix"; "correct"; "resolve"] ->
        contains word (lower instruction) = true ->
        intent_of instruction = "fix")
  /\ exists response,
       dict_get "response" reply = Some (PStr response)
       /\ In response (responses_for (intent_of instruction))
       /\ List.length (responses_for (intent_of instruction)) = 3.
Proof.
  cbv zeta. split; [reflexivity|]. split; [reflexivity|].
  split; [reflexivity|]. split; [reflexivity|].
  split; [|split; [|split]].
  - unfold intent_of.
    repeat (match goal with
            | |- context [if existsb ?f ?l then _ else _] =>
                destruct (existsb f l)
            end; [simpl; tauto|]).
    simpl. tauto.
  - unfold intent_of. now rewrite lower_idempotent.
  - intros word Hin Hc. unfold intent_of.
    assert (E : existsb (fun word => contains word (lower instruction))
                        ["fix"; "correct"; "resolve"] = true).
    { apply existsb_exists. now exists word. }
    now rewrite E.
  - exists (_get_random_response pick (intent_of instruction)).
    split; [reflexivity|]. split.
    + unfold _get_random_response. fold (responses_for (intent_of instruction)).
      apply nth_mod_In, responses_for_nonempty.
    + unfold responses_for, mock_responses. cbn [dict_get].
      repeat (match goal with
              | |- context [String.eqb ?a ?b] => destruct (String.eqb a b)
              end; [reflexivity|]).
      reflexivity.
Qed.

Lemma send_instruction_reply_witness :
  intent_of "Please FIX the bug and add a test" = "fix"
  /\ dict_get "response"
       (send_instruction 4 (PInt 1) (PInt 2) "Please FIX the bug and add a test")
     = Some (PStr "The layout issue has been resolved. I've made the login form more responsive and improved the button styling.").
Proof.
  destruct (send_instruction_reply example_relpath (fun n => n) example_ide
              4 (PInt 1) (PInt 2) "Please FIX the bug and add a test")
    as (_ & _ & _ & _ & _ & _ & F & _).
  split; [|reflexivity].
  apply (F "fix"); [simpl; tauto | reflexivity].
Defined.

(** ** More of [process_next_task] and of the planner *)

Section ProcessFacts.

Variable now : nat -> string.
Variable work : nat -> outcome.
Variable recursion_error : string.

Lemma run_task_stopped task rest a w :
  running a = false ->
  (forall n e, work n <> RaisesInDisplay e /\ work n <> RaisesInWork e) ->
  dict_get "description" task <> None ->
  run_task now work task rest a w
  = after_task (started (now (clock w)) task) (history a) (log w)
      (S (clock w)) rest a.
Proof.
  intros R W D. rewrite run_task_eq. cbv zeta. rewrite R.
  destruct (dict_get "description" task); [|congruence].
  destruct (work (S (clock w))) as [|e|e|e] eqn:X;
    try reflexivity; exfalso; destruct (W (S (clock w)) e); congruence.
Qed.

Lemma process_queue_stopped room : forall queue a w,
  running a = false -> task_queue a = queue ->
  (forall n e, work n <> RaisesInDisplay e /\ work n <> RaisesInWork e) ->
  Forall (fun task => dict_get "description" task <> None) queue ->
  let '(a', w', escaped) :=
    process_queue now work recursion_error room queue a w in
  history a' = history a /\ log w' = log w
  /\ forall k task,
       room = S k -> nth_error queue k = Some task ->
       current_task a' = Some (started (now (k + clock w)) task).
Proof.
  induction room as [|room IH]; intros queue a w R Q W D;
    cbn [process_queue].
  - repeat split. intros k task E. discriminate E.
  - destruct queue as [|task rest].
    + repeat split. intros k task _ E. destruct k; discriminate E.
    + inversion D as [|? ? D1 D2]; subst.
      rewrite (run_task_stopped task rest a w R W D1). unfold after_task.
      specialize (IH rest
                    {| running := running a;
                       current_task := Some (started (now (clock w)) task);
                       task_queue := rest; history := history a |}
                    {| tasks_file := Some (JsonText (array rest));
                       history_file :=
                         Some (JsonText (array (last_slice 100 (history a))));
                       log := log w; clock := S (clock w) |}
                    R eq_refl W D2).
      destruct (process_queue now work recursion_error room rest _ _)
        as [[a' w'] escaped] eqn:P.
      cbn [history log clock] in IH. destruct IH as (H & L & C).
      split; [exact H|]. split; [exact L|].
      intros k t E N. injection E as ->. destruct k as [|k].
      * cbn [nth_error] in N. injection N as <-.
        cbn [process_queue] in P. now injection P as <- _ _.
      * cbn [nth_error] in N. rewrite (C k t eq_refl N).
        now rewrite Nat.add_succ_r.
Qed.


(** X20: when [running] is set, nothing raises and the task at the head of
    the queue has a description, that task is completed: it becomes the
    current task, marked in progress and then completed, with the two
    times and the fixed result and its other keys kept; the last event of
    the history is the "task_completed" event that holds it; the state is
    saved with the rest of the queue; nothing is logged; and
    [process_next_task] goes on with the rest, one frame deeper. *)
Theorem process_next_task_completes a w task rest :
  task_queue a = task :: rest -> running a = true ->
  work (S (clock w)) = Finishes -> dict_get "description" task <> None ->
  let done := succeeded (now (S (clock w))) (started (now (clock w)) task) in
  let (a1, w1) := run_task now work task rest a w in
  current_task a1 = Some done
  /\ dict_get "status" done = Some (PStr "completed")
  /\ dict_get "started_at" done = Some (PStr (now (clock w)))
  /\ dict_get "completed_at" done = Some (PStr (now (S (clock w))))
  /\ dict_get "result" done = Some success_result
  /\ (forall k, ~ In k written_keys -> dict_get k done = dict_get k task)
  /\ history a1
     = (history a ++ [completed_event (now (S (S (clock w)))) done])%list
  /\ task_queue a1 = rest /\ running a1 = true
  /\ tasks_file w1 = Some (JsonText (array rest))
  /\ history_file w1 = Some (JsonText (array (last_slice 100 (history a1))))
  /\ log w1 = log w /\ clock w1 = 3 + clock w
  /\ forall room,
       process_next_task now work recursion_error (S room) a w
       = process_next_task now work recursion_error room a1 w1.
Proof.
  intros Q R F D. cbv zeta.
  pose proof (fun room =>
                process_next_task_step now work recursion_error room a w
                  task rest Q) as St.
  rewrite run_task_eq in *. cbv zeta in *. rewrite F, R in *.
  destruct (dict_get "description" task); [|congruence].
  unfold after_task in *. cbn [fst snd] in St.
  cbn [current_task history task_queue running tasks_file history_file log
       clock].
  split; [reflexivity|].
  split.
  { unfold succeeded. rewrite dict_get_set_ne by discriminate.
    rewrite dict_get_set_ne by discriminate. apply dict_get_set_eq. }
  split.
  { unfold succeeded, started.
    repeat (rewrite dict_get_set_ne by discriminate). apply dict_get_set_eq. }
  split.
  { unfold succeeded. rewrite dict_get_set_ne by discriminate.
    apply dict_get_set_eq. }
  split; [apply dict_get_set_eq|].
  split; [intros k Hk; kept_keys Hk|].
  do 2 (split; [reflexivity|]). split; [exact R|].
  do 4 (split; [reflexivity|]). exact St.
Qed.

End ProcessFacts.


Lemma process_next_task_completes_witness :
  let a := {| running := true; current_task := None;
              task_queue := [[("description", PStr "first")]];
              history := [] |} in
  let w := {| tasks_file := None; history_file := None; log := []; clock := 0 |} in
  task_queue a = [[("description", PStr "first")]]
  /\ map (dict_get "type")
         (history (fst (run_task example_now (fun _ => Finishes)
                          [("description", PStr "first")] [] a w)))
     = [Some (PStr "task_completed")]
  /\ current_task (fst (run_task example_now (fun _ => Finishes)
                          [("description", PStr "first")] [] a w))
     = Some [("description", PStr "first"); ("status", PStr "completed");
             ("started_at", PStr "00:00:0");
             ("completed_at", PStr "00:00:1");
             ("result", success_result)].
Proof.
  cbv zeta. split; [reflexivity|].
  pose proof (process_next_task_completes example_now (fun _ => Finishes)
                "overflow"
                {| running := true; current_task := None;
                   task_queue := [[("description", PStr "first")]];
                   history := [] |}
                {| tasks_file := None; history_file := None; log := [];
                   clock := 0 |}
                [("description", PStr "first")] [] eq_refl eq_refl eq_refl)
    as H.
  cbv zeta in H.
  destruct (run_task _ _ _ _ _ _) as [a1 w1].
  destruct H as (C & _ & _ & _ & _ & _ & H & _); [discriminate|]. cbn [fst].
  rewrite H, C. split; reflexivity.
Defined.

(** X21: the planner by itself knows two statuses only: in a sequence of
    [create_task], [plan_tasks], [complete_current_task] and
    [clear_completed_tasks] calls on a new planner no task is InProgress or
    Failed, so in the summary "in_progress" is 0 and "total_tasks" is
    "completed" plus "pending". *)
Theorem get_status_summary_without_update cs :
  forallb no_update cs = true ->
  let p := snd (run cs new_planner) in
  count_status IN_PROGRESS p = 0 /\ count_status FAILED p = 0
  /\ dict_get "in_progress" (get_status_summary p) = Some (PInt 0)
  /\ List.length (tasks p) = count_status COMPLETED p + count_status PENDING p.
Proof.
  intros H. cbv zeta. destruct (run_planned cs H) as (_ & A & _).
  set (p := snd (run cs new_planner)) in *.
  assert (Z : forall s, s = IN_PROGRESS \/ s = FAILED -> count_status s p = 0).
  { intros s Hs. unfold count_status, values.
    induction A as [|[k t] l [_ Ht] _ IH]; [reflexivity|].
    cbn [map snd filter]. simpl in Ht.
    destruct Ht as [[-> _]| ->], Hs as [-> | ->]; cbn [status_eqb]; exact IH. }
  pose proof (Z IN_PROGRESS (or_introl eq_refl)) as ZI.
  pose proof (Z FAILED (or_intror eq_refl)) as ZF.
  split; [exact ZI|]. split; [exact ZF|]. split.
  - cbn [get_status_summary dict_get String.eqb Ascii.eqb Bool.eqb].
    now rewrite ZI.
  - pose proof (count_by_status (values (tasks p))) as E.
    unfold count_status in *. unfold values in E at 1.
    rewrite length_map in E. lia.
Qed.

Lemma get_status_summary_without_update_witness :
  let p := snd (run [PlanTasks "add an api endpoint";
                     CompleteCurrentTask PNone; ClearCompletedTasks;
                     CreateTask "extra" None] new_planner) in
  count_status IN_PROGRESS p = 0
  /\ List.length (tasks p) = count_status COMPLETED p + count_status PENDING p.
Proof.
  cbv zeta.
  destruct (get_status_summary_without_update
              [PlanTasks "add an api endpoint"; CompleteCurrentTask PNone;
               ClearCompletedTasks; CreateTask "extra" None] eq_refl)
    as (I & _ & _ & L).
  now split.
Defined.

(** X22: whatever calls were made before, the task that
    [complete_current_task] returns is the one [get_current_task] returns
    afterwards, and both are none together. *)
Theorem get_current_task_after_complete cs r :
  let p := snd (run cs new_planner) in
  let (next, p') := complete_current_task r p in
  get_current_task p' = next.
Proof.
  cbv zeta. destruct (run_store_ok cs) as [S C].
  set (p := snd (run cs new_planner)) in *.
  destruct (complete_current_task_store_ok r p S C) as [S' _].
  destruct (complete_current_task_cases r p S C)
    as [[E N]|(cid & l1 & t & l2 & Cu & Tk & Hn & E)]; rewrite E in *.
  - unfold get_current_task. now rewrite N.
  - cbn [snd] in S'. unfold get_current_task, get_task.
    cbn [current_task_id tasks].
    destruct (find pending (values l2)) as [nt|] eqn:F; [|reflexivity].
    cbn [option_map].
    destruct (find_pending_stored _ _ _ _ _ _ S' F) as [G _].
    destruct (store_ok_entry _ _ _ S' G) as [_ NE].
    now rewrite (falsy_nonempty _ NE).
Qed.
